(** * bybit_shortbot: the decision engine of [src/bybit_shortbot/bot.py]

    A shallow embedding of the pump-fade paper-trading bot: the candidate
    filter, the watchlist stall logic, the paper-trade lifecycle, the funding
    guard and the statistics.

    Numbers.  Python [int]s are [Z].  Python [float]s have two models.  The
    paper-trade lifecycle, the watchlist and the statistics are embedded over
    exact rationals [Q]: what is proved of them are orders of decisions,
    frames and signs, and a computed value is stated as the expression the
    code computes it with.  A float division is [Py.div], which raises
    [ZeroDivisionError] on a zero divisor as Python does; the one infinity
    the code writes itself, [float("inf")] for the profit factor, is a
    constructor of its own ([PFInf]).  The candidate filter, the ticker scan,
    the trigger test of step 4 and the funding guard decide on rounded
    results and on what [float(x)] parses (["nan"] and ["inf"] included);
    they are embedded a second time in Module [F64], over the IEEE 754
    binary64 numbers with the rounding, the NaN and the infinities of
    Python's [float], and their properties are proved there.

    Dictionaries.  [tick_map], [state["watch"]] and [state["cooldowns"]] are
    finite maps keyed by symbol ([gmap string _]); a dictionary with a fixed
    set of keys (a trade, a watch entry, a ticker row) is a record.  A value
    that goes through [safe_float] is represented by the outcome of Python's
    [float(x)]: [Some q], or [None] when [float(x)] raises (key missing so
    that [x] is [None], or a malformed string). *)

From Stdlib Require Import ZArith QArith Qabs Lia Floats.
From stdpp Require Import gmap strings list pretty.

Local Open Scope Z_scope.
Local Set Warnings "-inexact-float".

(* ===================================================================== *)
(** ** Python numbers *)
(* ===================================================================== *)

Module Py.

(** The exceptions the modelled code can raise. *)
Inductive exn := ZeroDivisionError.

(** The outcome of a call: a value, or an exception. *)
Inductive res (A : Type) : Type :=
| Return (a : A)
| Raise (e : exn).
Arguments Return {A} a.
Arguments Raise {A} e.

Definition bind {A B} (m : res A) (k : A -> res B) : res B :=
  match m with
  | Return a => k a
  | Raise e => Raise e
  end.

(** [a <= b], [a < b], [a == b] on floats. *)
Definition le (a b : Q) : bool := Qle_bool a b.
Definition lt (a b : Q) : bool := negb (Qle_bool b a).
Definition eq (a b : Q) : bool := Qeq_bool a b.

(** [a / b] on floats. *)
Definition div (a b : Q) : res Q :=
  if eq b 0 then Raise ZeroDivisionError else Return (a / b)%Q.

(** [int(x)] of a float: truncation towards zero. *)
Definition int (x : Q) : Z := Z.quot (Qnum x) (Z.pos (Qden x)).

(** [sum(xs)] of a list of floats. *)
Definition sum (xs : list Q) : Q := fold_left Qplus xs 0%Q.

End Py.

(** [Py.res] is a monad; stdpp's [x ← m; k] is its bind. *)
#[global] Instance res_ret : MRet Py.res := @Py.Return.
#[global] Instance res_bind : MBind Py.res := fun A B k m => Py.bind m k.

Declare Scope pyq_scope.
Notation "a <=? b" := (Py.le a b) (at level 70) : pyq_scope.
Notation "a <? b" := (Py.lt a b) (at level 70) : pyq_scope.
Notation "a >=? b" := (Py.le b a) (at level 70, only parsing) : pyq_scope.
Notation "a >? b" := (Py.lt b a) (at level 70, only parsing) : pyq_scope.
Delimit Scope pyq_scope with pyq.

(* ===================================================================== *)
(** ** CONFIG *)
(* ===================================================================== *)

Record BotConfig := {
  category : string;
  tf : string;
  wake_seconds : Z;
  only_on_15m_close : bool;
  (* pump filters (ticker) *)
  quote : string;
  min_pump_from_low24_pct : Q;
  near_high_ratio : Q;
  min_turnover_usdt : Q;
  (* stall logic *)
  stall_candles : Z;
  (* watchlist TTL *)
  watch_ttl_seconds : Z;
  (* paper trade rules *)
  notional_usdt : Q;
  tp_from_high_pct : Q;
  sl_mult : Q;
  (* funding guard *)
  enable_funding_guard : bool;
  funding_guard_ratio : Q;
  (* persistence *)
  state_file : string;
  trades_file : string;
  (* avoid spam *)
  symbol_cooldown_minutes : Z
}.

(** [CFG = BotConfig()]: the defaults of the dataclass. *)
Definition CFG : BotConfig := {|
  category := "linear";
  tf := "15";
  wake_seconds := 5;
  only_on_15m_close := true;
  quote := "USDT";
  min_pump_from_low24_pct := 35;
  near_high_ratio := 88 # 100;
  min_turnover_usdt := 5000000;
  stall_candles := 2;
  watch_ttl_seconds := 24 * 60 * 60;
  notional_usdt := 20;
  tp_from_high_pct := 30 # 100;
  sl_mult := 2;
  enable_funding_guard := true;
  funding_guard_ratio := 1;
  state_file := "state.json";
  trades_file := "trades.json";
  symbol_cooldown_minutes := 60
|}.

(* ===================================================================== *)
(** ** UTIL *)
(* ===================================================================== *)

(** [safe_float(x, default)]: [x] is given by the outcome of [float(x)]. *)
Definition safe_float (x : option Q) (default : Q) : Q :=
  match x with
  | Some v => v
  | None => default
  end.

(** [s.endswith(suffix)]. *)
Definition endswith (s suffix : string) : bool :=
  bool_decide (String.list_ascii_of_string suffix
                 `suffix_of` String.list_ascii_of_string s).

(* ===================================================================== *)
(** ** BYBIT *)
(* ===================================================================== *)

(** One row of the kline answer, [[start, open, high, low, close, volume,
    turnover]], each field by the outcome of [float] on it.  The code reads
    the indices 2, 3 and 4. *)
Record Kline := {
  k_start : option Q;
  k_open : option Q;
  k_high : option Q;
  k_low : option Q;
  k_close : option Q;
  k_volume : option Q;
  k_turnover : option Q
}.

(** The answer of [sess.get_kline]: [retCode] and [r["result"]["list"]]. *)
Record KlineResponse := {
  retCode : Z;
  result_list : list Kline
}.

(** The public session, as far as [get_last_closed_kline] uses it: the answer
    of the exchange for a symbol. *)
Definition HTTP := string -> KlineResponse.

Definition get_last_closed_kline (sess : HTTP) (symbol : string) : option Kline :=
  let r := sess symbol in
  if bool_decide (retCode r <> 0) then None else
  let data := result_list r in
  if bool_decide (data = []) then None else
  let data := reverse data in (* oldest->newest *)
  last data.

(* ===================================================================== *)
(** ** FILTERS *)
(* ===================================================================== *)

(** One row of the ticker snapshot of the exchange. *)
Record Ticker := {
  symbol : string;
  lastPrice : option Q;
  highPrice24h : option Q;
  lowPrice24h : option Q;
  turnover24h : option Q;
  fundingRate : option Q;
  nextFundingTime : option Q
}.

Record Candidate := {
  c_symbol : string;
  c_last : Q;
  c_high24 : Q;
  c_low24 : Q;
  c_turnover : Q;
  c_pump_from_low24_pct : Q;
  c_near_high : Q;
  c_funding_rate : Q;
  c_next_funding_ms : Z
}.

(** A value of [tick_map], and the inline defaults that stand in for one.
    A field is [None] when the dictionary has no such key; every read is a
    [.get(key, d)], passed through [safe_float(_, d)] with the same [d]. *)
Record TickInfo := {
  ti_symbol : option string;
  ti_last : option Q;
  ti_funding_rate : option Q;
  ti_next_funding_ms : option Z
}.

(* ===================================================================== *)
(** ** PAPER TRADES: the data *)
(* ===================================================================== *)

Inductive Status := OPEN | CLOSED.
Inductive Side := SHORT.
Inductive CloseReason := TP | SL | FUNDING_GUARD.

#[global] Instance Status_eq_dec : EqDecision Status.
Proof. solve_decision. Defined.

Record Trade := {
  tr_id : string;
  tr_symbol : string;
  tr_status : Status;
  tr_created_ts : Z;
  tr_open_ts : Z;

  tr_side : Side;
  tr_notional_usdt : Q;
  tr_qty : Q;

  tr_entry : Q;
  tr_tp : Q;
  tr_sl : Q;
  tr_local_high : Q;

  tr_funding_rate_at_open : Q;
  tr_next_funding_ms_at_open : Z;

  tr_close_ts : option Z;
  tr_close_reason : option CloseReason;
  tr_close_price : option Q
}.

(** The four assignments that close a trade in [update_open_trades]:
    [status], [close_ts], [close_reason], [close_price]. *)
Definition close_trade (tr : Trade) (now_ts : Z) (reason : CloseReason) (price : Q) : Trade := {|
  tr_id := tr_id tr;
  tr_symbol := tr_symbol tr;
  tr_status := CLOSED;
  tr_created_ts := tr_created_ts tr;
  tr_open_ts := tr_open_ts tr;
  tr_side := tr_side tr;
  tr_notional_usdt := tr_notional_usdt tr;
  tr_qty := tr_qty tr;
  tr_entry := tr_entry tr;
  tr_tp := tr_tp tr;
  tr_sl := tr_sl tr;
  tr_local_high := tr_local_high tr;
  tr_funding_rate_at_open := tr_funding_rate_at_open tr;
  tr_next_funding_ms_at_open := tr_next_funding_ms_at_open tr;
  tr_close_ts := Some now_ts;
  tr_close_reason := Some reason;
  tr_close_price := Some price
|}.

(** What [print_stats] prints: the profit factor is a float or
    [float("inf")]. *)
Inductive PF := PFin (q : Q) | PFInf.

Record Stats := {
  st_closed : nat;
  st_winrate : Q;
  st_total : Q;
  st_avg : Q;
  st_pf : PF
}.

(** The line [print_stats] prints: ["[STATS] closed=0"], or the figures. *)
Inductive StatsLine := NoClosed | StatsOf (s : Stats).

(* ===================================================================== *)
(** ** The state of the main loop *)
(* ===================================================================== *)

(** A value of [state["watch"]]. *)
Record WatchEntry := {
  w_local_high : Q;
  w_stall : Z;
  w_blocked : bool;
  w_updated_ts : Z;
  w_created_ts : Z
}.

(** An element of [state["last_events"]]. *)
Inductive Event :=
| SKIP_BELOW_TP (ts : Z) (sym : string) (entry tp local_high : Q)
| TRIGGER (ts : Z) (sym : string) (entry tp sl local_high funding_rate : Q).

(** [default_state()] names the keys. *)
Record State := {
  last_bar_close_ms : option Z;
  cooldowns : gmap string Z;
  watch : gmap string WatchEntry;
  last_events : list Event
}.

Definition default_state : State := {|
  last_bar_close_ms := None;
  cooldowns := ∅;
  watch := ∅;
  last_events := []
|}.

(** The two objects the main loop mutates: [state] and [trades]. *)
Record Bot := {
  state : State;
  trades : list Trade
}.

(** How a block of the loop body ends: it falls through, or an exception
    leaves it (and the cycle); the mutations made before stay. *)
Inductive Outcome := Normal | Raised (e : Py.exn).

(** [state["watch"][sym] = w], [state["watch"].pop(sym, None)],
    [state["cooldowns"][sym] = ts] and the assignment of
    [state["last_events"]], on the state inside [Bot]. *)
Definition put_watch (sym : string) (w : WatchEntry) (b : Bot) : Bot := {|
  state := {|
    last_bar_close_ms := last_bar_close_ms (state b);
    cooldowns := cooldowns (state b);
    watch := <[sym := w]> (watch (state b));
    last_events := last_events (state b)
  |};
  trades := trades b
|}.

Definition pop_watch (sym : string) (b : Bot) : Bot := {|
  state := {|
    last_bar_close_ms := last_bar_close_ms (state b);
    cooldowns := cooldowns (state b);
    watch := delete sym (watch (state b));
    last_events := last_events (state b)
  |};
  trades := trades b
|}.

Definition set_cooldown (sym : string) (now_ts : Z) (b : Bot) : Bot := {|
  state := {|
    last_bar_close_ms := last_bar_close_ms (state b);
    cooldowns := <[sym := now_ts]> (cooldowns (state b));
    watch := watch (state b);
    last_events := last_events (state b)
  |};
  trades := trades b
|}.

(** [xs[-n:]]: the last [n] elements. *)
Definition last_n {A} (n : nat) (xs : list A) : list A :=
  drop (length xs - n) xs.

(** [state["last_events"].append(ev)], then
    [state["last_events"] = state["last_events"][-500:]]. *)
Definition push_event (ev : Event) (b : Bot) : Bot := {|
  state := {|
    last_bar_close_ms := last_bar_close_ms (state b);
    cooldowns := cooldowns (state b);
    watch := watch (state b);
    last_events := last_n 500 (last_events (state b) ++ [ev])
  |};
  trades := trades b
|}.

(** [trades.append(tr)]. *)
Definition append_trade (tr : Trade) (b : Bot) : Bot := {|
  state := state b;
  trades := trades b ++ [tr]
|}.

(** The inline default of [update_open_trades] for a symbol that
    [tick_map] lacks: [{"funding_rate": 0.0, "last": c}]. *)
Definition trade_default_ticker (c : Q) : TickInfo := {|
  ti_symbol := None;
  ti_last := Some c;
  ti_funding_rate := Some 0%Q;
  ti_next_funding_ms := None
|}.

(** The inline default of step 4 of [main]:
    [{"last": close, "funding_rate": 0.0, "next_funding_ms": 0}]. *)
Definition entry_default_ticker (close : Q) : TickInfo := {|
  ti_symbol := None;
  ti_last := Some close;
  ti_funding_rate := Some 0%Q;
  ti_next_funding_ms := Some 0
|}.

(** What step 4 of [main] does to a watch entry on a closed candle of high
    [high]: a new high resets [stall] and unblocks, anything else counts one
    more stalled candle; [updated_ts] is set either way. *)
Definition update_watch_entry (w : WatchEntry) (high : Q) (now_ts : Z) : WatchEntry :=
  let local_high := w_local_high w in
  let stall := w_stall w in
  let w :=
    if (high >? local_high)%pyq then
      {| w_local_high := high; w_stall := 0; w_blocked := false;
         w_updated_ts := w_updated_ts w; w_created_ts := w_created_ts w |}
    else
      {| w_local_high := w_local_high w; w_stall := stall + 1;
         w_blocked := w_blocked w;
         w_updated_ts := w_updated_ts w; w_created_ts := w_created_ts w |} in
  {| w_local_high := w_local_high w; w_stall := w_stall w;
     w_blocked := w_blocked w;
     w_updated_ts := now_ts; w_created_ts := w_created_ts w |}.

(** [w["blocked"] = True]. *)
Definition block_watch_entry (w : WatchEntry) : WatchEntry :=
  {| w_local_high := w_local_high w; w_stall := w_stall w;
     w_blocked := true;
     w_updated_ts := w_updated_ts w; w_created_ts := w_created_ts w |}.

Section Configured.

Variable cfg : BotConfig.

Definition candidate_from_ticker (t : Ticker) : Py.res (option Candidate) :=
  let sym := symbol t in
  if negb (endswith sym (quote cfg)) then mret None else

  let last := safe_float (lastPrice t) 0 in
  let high24 := safe_float (highPrice24h t) 0 in
  let low24 := safe_float (lowPrice24h t) 0 in
  let turnover := safe_float (turnover24h t) 0 in

  let funding_rate := safe_float (fundingRate t) 0 in
  let next_funding_ms := Py.int (safe_float (nextFundingTime t) 0) in

  if (last <=? 0)%pyq || (high24 <=? 0)%pyq || (low24 <=? 0)%pyq then mret None else

  r ← Py.div (last - low24) low24;
  let pump_from_low24 := (r * 100)%Q in
  near_high ← Py.div last high24;

  if (turnover <? min_turnover_usdt cfg)%pyq then mret None else
  if (pump_from_low24 <? min_pump_from_low24_pct cfg)%pyq then mret None else
  if (near_high <? near_high_ratio cfg)%pyq then mret None else

  mret (Some {|
    c_symbol := sym;
    c_last := last;
    c_high24 := high24;
    c_low24 := low24;
    c_turnover := turnover;
    c_pump_from_low24_pct := pump_from_low24;
    c_near_high := near_high;
    c_funding_rate := funding_rate;
    c_next_funding_ms := next_funding_ms
  |}).

(* ===================================================================== *)
(** ** PAPER TRADES *)
(* ===================================================================== *)

Definition make_trade (symbol : string) (entry local_high : Q) (now_ts : Z)
    (ticker : TickInfo) : Py.res Trade :=
  let tp := (local_high * (1 - tp_from_high_pct cfg))%Q in (* TP from high *)
  let sl := (entry * sl_mult cfg)%Q in
  qty ← Py.div (notional_usdt cfg) entry;

  mret {|
    tr_id := symbol +:+ ":" +:+ pretty now_ts;
    tr_symbol := symbol;
    tr_status := OPEN;
    tr_created_ts := now_ts;
    tr_open_ts := now_ts;

    tr_side := SHORT;
    tr_notional_usdt := notional_usdt cfg;
    tr_qty := qty;

    tr_entry := entry;
    tr_tp := tp;
    tr_sl := sl;
    tr_local_high := local_high;

    tr_funding_rate_at_open := safe_float (ti_funding_rate ticker) 0;
    tr_next_funding_ms_at_open :=
      Py.int (safe_float (inject_Z <$> ti_next_funding_ms ticker) 0);

    tr_close_ts := None;
    tr_close_reason := None;
    tr_close_price := None
  |}.

Definition trade_pnl (tr : Trade) : option Q :=
  if bool_decide (tr_status tr <> CLOSED) then None else
  match tr_close_price tr with
  | None => None
  | Some close =>
    let entry := tr_entry tr in
    let qty := tr_qty tr in
    Some ((entry - close) * qty)%Q (* short *)
  end.

Definition remaining_profit_to_tp (tr : Trade) (mark : Q) : Q :=
  let tp := tr_tp tr in
  let qty := tr_qty tr in
  if (mark <=? tp)%pyq then 0%Q
  else ((mark - tp) * qty)%Q.

Definition funding_pnl_short (notional rate : Q) : Q :=
  (* short funding pnl = notional * rate (rate<0 => short pays => negative) *)
  (notional * rate)%Q.

Definition funding_guard (tr : Trade) (ticker : TickInfo) (mark : Q) : bool :=
  if negb (enable_funding_guard cfg) then false else
  let rate := safe_float (ti_funding_rate ticker) 0 in
  if (rate >=? 0)%pyq then false (* shorts receive or neutral *) else

  let rem := remaining_profit_to_tp tr mark in
  if (rem <=? 0)%pyq then false else

  let expected := funding_pnl_short (tr_notional_usdt tr) rate in (* negative if rate<0 *)
  (Qabs expected >=? rem * funding_guard_ratio cfg)%pyq.

(** The body of the loop of [update_open_trades], for one trade [tr]. *)
Definition update_trade (pub : HTTP) (tick_map : gmap string TickInfo) (now_ts : Z)
    (tr : Trade) : Trade :=
  if bool_decide (tr_status tr <> OPEN) then tr else
  let sym := tr_symbol tr in

  match get_last_closed_kline pub sym with
  | None => tr
  | Some last_candle =>
    let h := safe_float (k_high last_candle) 0 in
    let l := safe_float (k_low last_candle) 0 in
    let c := safe_float (k_close last_candle) 0 in

    let tp := tr_tp tr in
    let sl := tr_sl tr in

    let ticker := default (trade_default_ticker c) (tick_map !! sym) in
    let mark := safe_float (ti_last ticker) c in

    (* funding early exit *)
    if funding_guard tr ticker mark then close_trade tr now_ts FUNDING_GUARD mark else

    let hit_tp := (l <=? tp)%pyq in
    let hit_sl := (h >=? sl)%pyq in

    if hit_tp && hit_sl then
      (* worst-case *)
      close_trade tr now_ts SL sl
    else if hit_sl then close_trade tr now_ts SL sl
    else if hit_tp then close_trade tr now_ts TP tp
    else tr
  end.

Definition update_open_trades (pub : HTTP) (trades : list Trade)
    (tick_map : gmap string TickInfo) (now_ts : Z) : list Trade :=
  map (update_trade pub tick_map now_ts) trades.

Definition print_stats (trades : list Trade) : Py.res StatsLine :=
  let closed := List.filter (fun t => bool_decide (tr_status t = CLOSED)) trades in
  if bool_decide (closed = []) then mret NoClosed else
  let pnls := map trade_pnl closed in
  let pnls := omap id pnls in
  let wins := List.filter (fun p => (p >? 0)%pyq) pnls in
  let losses := List.filter (fun p => (p <=? 0)%pyq) pnls in
  winrate ← (if bool_decide (pnls <> [])
             then r ← Py.div (inject_Z (Z.of_nat (length wins))) (inject_Z (Z.of_nat (length pnls)));
                  mret (r * 100)%Q
             else mret 0%Q);
  let total := Py.sum pnls in
  avg ← (if bool_decide (pnls <> [])
         then Py.div total (inject_Z (Z.of_nat (length pnls)))
         else mret 0%Q);
  pf ← (if bool_decide (losses <> []) && negb (Py.eq (Py.sum losses) 0)
        then r ← Py.div (Py.sum wins) (Qabs (Py.sum losses)); mret (PFin r)
        else mret PFInf);
  mret (StatsOf {|
    st_closed := length pnls;
    st_winrate := winrate;
    st_total := total;
    st_avg := avg;
    st_pf := pf
  |}).

(* ===================================================================== *)
(** ** MAIN LOOP: step 4, the stall logic *)
(* ===================================================================== *)

(** The body of the loop [for sym in list(watch.keys())] of step 4 of
    [main], for one symbol. *)
Definition stall_step (pub : HTTP) (tick_map : gmap string TickInfo) (now_ts : Z)
    (sym : string) (b : Bot) : Outcome * Bot :=
  match watch (state b) !! sym with
  | None => (Normal, b)
  | Some w =>
    match get_last_closed_kline pub sym with
    | None => (Normal, b)
    | Some last_candle =>
      let high := safe_float (k_high last_candle) 0 in
      let close := safe_float (k_close last_candle) 0 in

      let blocked := w_blocked w in

      (* New high resets stall and unblocks *)
      let w := update_watch_entry w high now_ts in
      let b := put_watch sym w b in

      (* Trigger condition *)
      if bool_decide (w_stall w >= stall_candles cfg) && negb blocked then
        let tinfo := default (entry_default_ticker close) (tick_map !! sym) in
        let entry := safe_float (ti_last tinfo) close in

        let tp_from_high := (w_local_high w * (1 - tp_from_high_pct cfg))%Q in

        (* Rule: do NOT open if market <= TP (already too late). Keep watching. *)
        if (entry <=? tp_from_high)%pyq then
          let w := block_watch_entry w in (* block until new high appears *)
          let b := put_watch sym w b in
          let b := push_event
                     (SKIP_BELOW_TP now_ts sym entry tp_from_high (w_local_high w)) b in
          (Normal, b)
        else

        (* Open paper trade (market entry) *)
        match make_trade sym entry (w_local_high w) now_ts tinfo with
        | Py.Raise e => (Raised e, b)
        | Py.Return tr =>
          let b := append_trade tr b in
          let b := set_cooldown sym now_ts b in
          let b := push_event
                     (TRIGGER now_ts sym (tr_entry tr) (tr_tp tr) (tr_sl tr)
                              (tr_local_high tr) (tr_funding_rate_at_open tr)) b in
          (* Remove from watch after opening *)
          let b := pop_watch sym b in
          (Normal, b)
        end
      else (Normal, b)
    end
  end.

(** The loop itself, over the snapshot [list(watch.keys())]; an exception
    ends it. *)
Fixpoint stall_loop (pub : HTTP) (tick_map : gmap string TickInfo) (now_ts : Z)
    (keys : list string) (b : Bot) : Outcome * Bot :=
  match keys with
  | [] => (Normal, b)
  | sym :: keys' =>
    match stall_step pub tick_map now_ts sym b with
    | (Normal, b') => stall_loop pub tick_map now_ts keys' b'
    | (Raised e, b') => (Raised e, b')
    end
  end.

End Configured.

(** One later cycle as a trade sees it: the session, the ticker map and the
    time; [update_trade_over] runs the loop body of [update_open_trades] on
    one trade, cycle after cycle. *)
Definition Cycle : Type := HTTP * gmap string TickInfo * Z.

Definition update_trade_over (cfg : BotConfig) (cycles : list Cycle) (tr : Trade) : Trade :=
  fold_left (fun tr cy => update_trade cfg cy.1.1 cy.1.2 cy.2 tr) cycles tr.

(** Step 4 of successive cycles, as one symbol sees it. *)
Fixpoint stall_steps (cfg : BotConfig) (sym : string) (cycles : list Cycle) (b : Bot)
    : Outcome * Bot :=
  match cycles with
  | [] => (Normal, b)
  | cy :: cycles' =>
    match stall_step cfg cy.1.1 cy.1.2 cy.2 sym b with
    | (Normal, b') => stall_steps cfg sym cycles' b'
    | (Raised e, b') => (Raised e, b')
    end
  end.

(** The closed candles of [sym] in successive cycles have strictly
    increasing highs, the first one above [from]. *)
Fixpoint rising (sym : string) (from : Q) (cycles : list Cycle) : Prop :=
  match cycles with
  | [] => True
  | cy :: cycles' =>
    exists k, get_last_closed_kline cy.1.1 sym = Some k /\
              (from < safe_float (k_high k) 0)%Q /\
              rising sym (safe_float (k_high k) 0) cycles'
  end.

(* ===================================================================== *)
(** ** Sample data *)
(* ===================================================================== *)

Module Ex.

(** A kline row with the given high, low and close. *)
Definition kline (h l c : Q) : Kline := {|
  k_start := Some 0%Q; k_open := Some c;
  k_high := Some h; k_low := Some l; k_close := Some c;
  k_volume := Some 0%Q; k_turnover := Some 0%Q
|}.

(** A session that answers every symbol with the one row [k]; one that
    answers with an empty list. *)
Definition session (k : Kline) : HTTP :=
  fun _ => {| retCode := 0; result_list := [k] |}.

Definition silent : HTTP :=
  fun _ => {| retCode := 0; result_list := [] |}.

(** A trade on XUSDT opened at time 1. *)
Definition trade (st : Status) (entry tp sl qty : Q) (close : option Q) : Trade := {|
  tr_id := "XUSDT:1"; tr_symbol := "XUSDT"; tr_status := st;
  tr_created_ts := 1; tr_open_ts := 1;
  tr_side := SHORT; tr_notional_usdt := 20; tr_qty := qty;
  tr_entry := entry; tr_tp := tp; tr_sl := sl; tr_local_high := 12;
  tr_funding_rate_at_open := 0; tr_next_funding_ms_at_open := 0;
  tr_close_ts := match close with Some _ => Some 2 | None => None end;
  tr_close_reason := match close with Some _ => Some TP | None => None end;
  tr_close_price := close
|}.

(** A value of [tick_map] with the given last price and funding rate. *)
Definition ticker (last rate : Q) : TickInfo := {|
  ti_symbol := Some "XUSDT"; ti_last := Some last;
  ti_funding_rate := Some rate; ti_next_funding_ms := Some 1700000000000
|}.


(** A ticker row whose numeric fields all parse; one whose last price does
    not. *)
Definition row (sym : string) (last high low turnover : Q) : Ticker := {|
  symbol := sym;
  lastPrice := Some last; highPrice24h := Some high; lowPrice24h := Some low;
  turnover24h := Some turnover;
  fundingRate := Some (-1 # 100)%Q; nextFundingTime := Some 1700000000000%Q
|}.

Definition row_bad_last (sym : string) (high low turnover : Q) : Ticker := {|
  symbol := sym;
  lastPrice := None; highPrice24h := Some high; lowPrice24h := Some low;
  turnover24h := Some turnover;
  fundingRate := Some (-1 # 100)%Q; nextFundingTime := Some 1700000000000%Q
|}.

(** A watch entry created at time 1, and the state of a bot that watches
    XUSDT with it and has no trade yet. *)
Definition entry (local_high : Q) (stall : Z) (blocked : bool) : WatchEntry := {|
  w_local_high := local_high; w_stall := stall; w_blocked := blocked;
  w_updated_ts := 1; w_created_ts := 1
|}.

Definition bot (w : WatchEntry) : Bot := {|
  state := {|
    last_bar_close_ms := None;
    cooldowns := ∅;
    watch := {[ "XUSDT"%string := w ]};
    last_events := []
  |};
  trades := []
|}.

(** The ticker map of a cycle in which XUSDT trades at [last]. *)
Definition tick_map (last : Q) : gmap string TickInfo :=
  {[ "XUSDT"%string := ticker last (-1 # 100) ]}.

End Ex.

(* ===================================================================== *)
(** ** The rest of the main loop *)
(* ===================================================================== *)

(** [current_15m_close_ms()], from the reading [int(time.time())] of the
    clock it takes. *)
Definition current_15m_close_ms (now : Z) : Z :=
  let close := (now / (15 * 60)) * (15 * 60) in
  close * 1000.

Definition in_cooldown (cfg : BotConfig) (state : State) (symbol : string)
    (now_ts : Z) : bool :=
  match cooldowns state !! symbol with
  | None => false
  | Some last =>
    if bool_decide (last = 0) then false (* [not last] *)
    else bool_decide (now_ts - last < symbol_cooldown_minutes cfg * 60)
  end.

(** What can leave a cycle of [main]: the [RuntimeError] of
    [get_all_tickers], the [KeyError] of [watch[sym]], or an exception of
    the functions above. *)
Inductive MainExn :=
| RuntimeError (msg : string)
| KeyError (key : string)
| PyExn (e : Py.exn).

Inductive MainRes (A : Type) : Type :=
| Ok (a : A)
| Fail (e : MainExn).
Arguments Ok {A} a.
Arguments Fail {A} e.

(** The answer of [sess.get_tickers]: [retCode], [retMsg] and
    [r["result"]["list"]]. *)
Record TickersResponse := {
  tk_retCode : Z;
  tk_retMsg : string;
  tk_list : list Ticker
}.

Definition get_all_tickers (r : TickersResponse) : MainRes (list Ticker) :=
  if bool_decide (tk_retCode r <> 0)
  then Fail (RuntimeError ("tickers error: " +:+ tk_retMsg r))
  else Ok (tk_list r).

(** The value [main] stores in [tick_map] for a row. *)
Definition tick_info_of (t : Ticker) : TickInfo := {|
  ti_symbol := Some (symbol t);
  ti_last := Some (safe_float (lastPrice t) 0);
  ti_funding_rate := Some (safe_float (fundingRate t) 0);
  ti_next_funding_ms := Some (Py.int (safe_float (nextFundingTime t) 0))
|}.

(** "Build ticker map + pump candidates": the body of [for t in tickers],
    and the loop. *)
Definition scan_step (cfg : BotConfig)
    (acc : gmap string TickInfo * list Candidate) (t : Ticker)
    : Py.res (gmap string TickInfo * list Candidate) :=
  let sym := symbol t in
  let tick_map := <[sym := tick_info_of t]> acc.1 in
  c ← candidate_from_ticker cfg t;
  mret (tick_map,
        match c with
        | Some c => acc.2 ++ [c]
        | None => acc.2
        end).

Fixpoint scan_tickers (cfg : BotConfig) (tickers : list Ticker)
    (acc : gmap string TickInfo * list Candidate)
    : Py.res (gmap string TickInfo * list Candidate) :=
  match tickers with
  | [] => mret acc
  | t :: tickers' => acc' ← scan_step cfg acc t; scan_tickers cfg tickers' acc'
  end.

(** Step 2, "Clean watchlist by TTL", over the snapshot [list(watch.keys())].
    An entry is a record here, so [created_ts] is always there. *)
Fixpoint ttl_loop (cfg : BotConfig) (now_ts : Z) (keys : list string)
    (watch : gmap string WatchEntry) : MainRes (gmap string WatchEntry) :=
  match keys with
  | [] => Ok watch
  | sym :: keys' =>
    match watch !! sym with
    | None => Fail (KeyError sym)
    | Some w =>
      let created_ts := w_created_ts w in
      if bool_decide (now_ts - created_ts >= watch_ttl_seconds cfg)
      then ttl_loop cfg now_ts keys' (delete sym watch)
      else ttl_loop cfg now_ts keys' watch
    end
  end.

(** Step 3, "Add new pump candidates to watchlist": the body of
    [for c in candidates], and the loop. *)
(** [any(t["symbol"] == sym and t["status"] == "OPEN" for t in trades)]. *)
Definition has_open_trade (sym : string) (trades : list Trade) : bool :=
  existsb (fun t => bool_decide (tr_symbol t = sym)
                    && bool_decide (tr_status t = OPEN)) trades.

(** The entry step 3 stores for a symbol it admits. *)
Definition new_watch_entry (high : Q) (now_ts : Z) : WatchEntry := {|
  w_local_high := high;
  w_stall := 0;
  w_blocked := false; (* if price already below TP when stalled *)
  w_updated_ts := now_ts;
  w_created_ts := now_ts
|}.

Definition admit_step (cfg : BotConfig) (pub : HTTP) (now_ts : Z) (c : Candidate)
    (b : Bot) : Bot :=
  let sym := c_symbol c in
  if bool_decide (is_Some (watch (state b) !! sym)) then b else
  if in_cooldown cfg (state b) sym now_ts then b else
  if has_open_trade sym (trades b) then b else

  match get_last_closed_kline pub sym with
  | None => b
  | Some last_candle =>
    let high := safe_float (k_high last_candle) 0 in

    put_watch sym (new_watch_entry high now_ts) b
  end.

(** What step 3 stores for [sym] if a candidate names it and it is not
    watched: nothing in cooldown, with an OPEN trade or without a candle. *)
Definition admission (cfg : BotConfig) (pub : HTTP) (now_ts : Z) (b : Bot)
    (sym : string) : option WatchEntry :=
  if in_cooldown cfg (state b) sym now_ts then None
  else if has_open_trade sym (trades b) then None
  else (fun k => new_watch_entry (safe_float (k_high k) 0) now_ts)
         <$> get_last_closed_kline pub sym.

Definition admit_candidates (cfg : BotConfig) (pub : HTTP) (now_ts : Z)
    (candidates : list Candidate) (b : Bot) : Bot :=
  fold_left (fun b c => admit_step cfg pub now_ts c b) candidates b.

(** The three readings of the clock in one pass of the loop:
    [int(time.time())] for [now_ts], the one inside
    [current_15m_close_ms()], and [int(time.time() * 1000)]. *)
Record Clock := {
  clock_now : Z;
  clock_bar : Z;
  clock_ms : Z
}.

(** How one pass of [while True] ends: it sleeps on a bar it has seen, it
    runs to its end, or an exception takes it to [except Exception]. *)
Inductive CycleOutcome := Skipped | Completed | Failed (e : MainExn).

(** [state["last_bar_close_ms"] = bar_close]. *)
Definition set_last_bar_close (bar_close : Z) (b : Bot) : Bot := {|
  state := {|
    last_bar_close_ms := Some bar_close;
    cooldowns := cooldowns (state b);
    watch := watch (state b);
    last_events := last_events (state b)
  |};
  trades := trades b
|}.

(** [watch] replaced as a whole (step 2 pops from it). *)
Definition set_watch (watch' : gmap string WatchEntry) (b : Bot) : Bot := {|
  state := {|
    last_bar_close_ms := last_bar_close_ms (state b);
    cooldowns := cooldowns (state b);
    watch := watch';
    last_events := last_events (state b)
  |};
  trades := trades b
|}.

(** One pass of the [try] block of [main], on the objects [state] and
    [trades].  [order] lists the keys of a dictionary in its order;
    [tickers] and [pub] are what the exchange answers in this pass.
    Printing, sleeping and the files are not part of the model. *)
Definition cycle (cfg : BotConfig) (order : gmap string WatchEntry -> list string)
    (clock : Clock) (tickers : TickersResponse) (pub : HTTP) (b : Bot)
    : CycleOutcome * Bot :=
  let now_ts := clock_now clock in

  let bar_close := if only_on_15m_close cfg
                   then current_15m_close_ms (clock_bar clock)
                   else clock_ms clock in
  if only_on_15m_close cfg
     && bool_decide (last_bar_close_ms (state b) = Some bar_close)
  then (Skipped, b) else
  let b := set_last_bar_close bar_close b in

  match get_all_tickers tickers with
  | Fail e => (Failed e, b)
  | Ok tickers =>
    (* Build ticker map + pump candidates *)
    match scan_tickers cfg tickers (∅, []) with
    | Py.Raise e => (Failed (PyExn e), b)
    | Py.Return (tick_map, candidates) =>
      (* 1) Update open trades *)
      let b := {| state := state b;
                  trades := update_open_trades cfg pub (trades b) tick_map now_ts |} in
      match print_stats (trades b) with
      | Py.Raise e => (Failed (PyExn e), b)
      | Py.Return _ =>
        (* 2) Clean watchlist by TTL *)
        match ttl_loop cfg now_ts (order (watch (state b))) (watch (state b)) with
        | Fail e => (Failed e, b)
        | Ok watch' =>
          let b := set_watch watch' b in
          (* 3) Add new pump candidates to watchlist *)
          let b := admit_candidates cfg pub now_ts candidates b in
          (* 4) Update watchlist stall logic *)
          match stall_loop cfg pub tick_map now_ts (order (watch (state b))) b with
          | (Normal, b) => (Completed, b)
          | (Raised e, b) => (Failed (PyExn e), b)
          end
        end
      end
    end
  end.

(** What [candidate_from_ticker] returns for a row, when it returns. *)
Definition candidate_of (cfg : BotConfig) (t : Ticker) : option Candidate :=
  match candidate_from_ticker cfg t with
  | Py.Return c => c
  | Py.Raise _ => None
  end.

(** The last row of a symbol in a list of rows. *)
Definition last_row (sym : string) (tickers : list Ticker) : option Ticker :=
  last (List.filter (fun t => bool_decide (symbol t = sym)) tickers).

(** The test of step 2: the age of the entry has reached the TTL. *)
Definition expired (cfg : BotConfig) (now_ts : Z) (w : WatchEntry) : bool :=
  bool_decide (now_ts - w_created_ts w >= watch_ttl_seconds cfg).


(** The bar a pass of the loop works on: [bar_close] of [main]. *)
Definition bar_of (cfg : BotConfig) (clock : Clock) : Z :=
  if only_on_15m_close cfg then current_15m_close_ms (clock_bar clock)
  else clock_ms clock.

(** The order of a dictionary is outside the model; any listing of the keys
    without repetition is one. *)
Definition lists_keys (order : gmap string WatchEntry -> list string) : Prop :=
  forall m, NoDup (order m) /\ forall sym, sym ∈ order m <-> is_Some (m !! sym).

(** A listing: the keys as [gmap] enumerates them. *)
Definition gmap_order (m : gmap string WatchEntry) : list string :=
  (map_to_list m).*1.

(** ** Sample data of a pass *)

Module Run.

(** A bot that has just started: the default state and no trade. *)
Definition idle : Bot := {| state := default_state; trades := [] |}.

(** The clock at 1700000400, in the bar that began at 1700000100. *)
Definition clock : Clock := {|
  clock_now := 1700000400; clock_bar := 1700000400; clock_ms := 1700000400000
|}.

(** An answer to the ticker request without an error code. *)
Definition tickers (rows : list Ticker) : TickersResponse := {|
  tk_retCode := 0; tk_retMsg := "OK"; tk_list := rows
|}.

(** A candidate for XUSDT at 10, one percent under its 24h high. *)
Definition candidate : Candidate := {|
  c_symbol := "XUSDT"; c_last := 10; c_high24 := 11; c_low24 := 5;
  c_turnover := 6000000; c_pump_from_low24_pct := 100; c_near_high := 10 / 11;
  c_funding_rate := -1 # 100; c_next_funding_ms := 1700000000000
|}.

End Run.

(* ===================================================================== *)
(** ** The binary64 model *)
(* ===================================================================== *)

(** The candidate filter, the ticker scan, the trigger test of step 4 and
    the funding guard decide on the rounded results of float operations, and
    [float(x)] parses ["nan"] and ["inf"].  Module [F64] embeds these functions, and
    the data they work on, over the IEEE 754 binary64 numbers of Python's
    [float]: the primitive [float] with the correctly rounded operations of
    the processor and its comparisons, which answer false on a NaN.  A
    decimal literal of the source is the binary64 number nearest to it, here
    as in Python. *)

Module F64.

(** The exceptions the modelled code can raise. *)
Inductive exn := ZeroDivisionError | ValueError | OverflowError.

(** The outcome of a call: a value, or an exception. *)
Inductive res (A : Type) : Type :=
| Return (a : A)
| Raise (e : exn).
Arguments Return {A} a.
Arguments Raise {A} e.

Definition bind {A B} (m : res A) (k : A -> res B) : res B :=
  match m with
  | Return a => k a
  | Raise e => Raise e
  end.

#[global] Instance res_ret : MRet res := @Return.
#[global] Instance res_bind : MBind res := fun A B k m => bind m k.

(** [a / b] on floats: Python raises on a divisor that is zero, of either
    sign and whatever the dividend. *)
Definition div (a b : float) : res float :=
  if (b =? 0)%float then Raise ZeroDivisionError else Return (a / b)%float.

(** [int(x)] of a float: truncation towards zero; ValueError on a NaN,
    OverflowError on an infinity. *)
Definition int (x : float) : res Z :=
  match Prim2SF x with
  | S754_nan => Raise ValueError
  | S754_infinity _ => Raise OverflowError
  | S754_zero _ => Return 0
  | S754_finite s m e => Return (cond_Zopp s (Z.shiftl (Z.pos m) e))
  end.

(** The outcome of [float(n)] on an int: the nearest float, ties to even;
    [None] for the OverflowError of an int too large for a float. *)
Definition of_int (n : Z) : option float :=
  match binary_normalize prec emax n 0 false with
  | S754_infinity _ => None
  | x => Some (SF2Prim x)
  end.

(** [max(a, b)]: the first argument wins unless the second is larger. *)
Definition max (a b : float) : float := if (a <? b)%float then b else a.

(** The sign of a rounded number is the sign it was given. *)
Inductive signed (s : bool) : spec_float -> Prop :=
| signed_zero : signed s (S754_zero s)
| signed_finite m e : signed s (S754_finite s m e)
| signed_infinity : signed s (S754_infinity s)
| signed_nan : signed s S754_nan.

(** [x] is not a NaN. *)
Definition number (x : float) : Prop := is_nan x = false.

(* ===================================================================== *)
(** ** CONFIG *)
(* ===================================================================== *)

Record BotConfig := {
  category : string;
  tf : string;
  wake_seconds : Z;
  only_on_15m_close : bool;
  (* pump filters (ticker) *)
  quote : string;
  min_pump_from_low24_pct : float;
  near_high_ratio : float;
  min_turnover_usdt : float;
  (* stall logic *)
  stall_candles : Z;
  (* watchlist TTL *)
  watch_ttl_seconds : Z;
  (* paper trade rules *)
  notional_usdt : float;
  tp_from_high_pct : float;
  sl_mult : float;
  (* funding guard *)
  enable_funding_guard : bool;
  funding_guard_ratio : float;
  (* persistence *)
  state_file : string;
  trades_file : string;
  (* avoid spam *)
  symbol_cooldown_minutes : Z
}.

(** [CFG = BotConfig()]: the defaults of the dataclass. *)
Definition CFG : BotConfig := {|
  category := "linear";
  tf := "15";
  wake_seconds := 5;
  only_on_15m_close := true;
  quote := "USDT";
  min_pump_from_low24_pct := 35.0;
  near_high_ratio := 0.88;
  min_turnover_usdt := 5000000.0;
  stall_candles := 2;
  watch_ttl_seconds := 24 * 60 * 60;
  notional_usdt := 20.0;
  tp_from_high_pct := 0.30;
  sl_mult := 2.0;
  enable_funding_guard := true;
  funding_guard_ratio := 1.0;
  state_file := "state.json";
  trades_file := "trades.json";
  symbol_cooldown_minutes := 60
|}.

(* ===================================================================== *)
(** ** UTIL *)
(* ===================================================================== *)

(** [safe_float(x, default)]: [x] is given by the outcome of [float(x)],
    [Some v] for any float [v] (["nan"], ["inf"] and ["1e400"] parse, to a
    NaN and to infinities), [None] when [float(x)] raises. *)
Definition safe_float (x : option float) (default : float) : float :=
  match x with
  | Some v => v
  | None => default
  end.

(* ===================================================================== *)
(** ** BYBIT *)
(* ===================================================================== *)

(** One row of the kline answer, each field by the outcome of [float] on
    it. *)
Record Kline := {
  k_start : option float;
  k_open : option float;
  k_high : option float;
  k_low : option float;
  k_close : option float;
  k_volume : option float;
  k_turnover : option float
}.

Record KlineResponse := {
  retCode : Z;
  result_list : list Kline
}.

Definition HTTP := string -> KlineResponse.

Definition get_last_closed_kline (sess : HTTP) (symbol : string) : option Kline :=
  let r := sess symbol in
  if bool_decide (retCode r <> 0) then None else
  let data := result_list r in
  if bool_decide (data = []) then None else
  let data := reverse data in (* oldest->newest *)
  last data.

(* ===================================================================== *)
(** ** FILTERS *)
(* ===================================================================== *)

(** One row of the ticker snapshot of the exchange. *)
Record Ticker := {
  symbol : string;
  lastPrice : option float;
  highPrice24h : option float;
  lowPrice24h : option float;
  turnover24h : option float;
  fundingRate : option float;
  nextFundingTime : option float
}.

Record Candidate := {
  c_symbol : string;
  c_last : float;
  c_high24 : float;
  c_low24 : float;
  c_turnover : float;
  c_pump_from_low24_pct : float;
  c_near_high : float;
  c_funding_rate : float;
  c_next_funding_ms : Z
}.

(** A value of [tick_map], and the inline defaults that stand in for one; a
    field is [None] when the dictionary has no such key. *)
Record TickInfo := {
  ti_symbol : option string;
  ti_last : option float;
  ti_funding_rate : option float;
  ti_next_funding_ms : option Z
}.

(* ===================================================================== *)
(** ** PAPER TRADES: the data *)
(* ===================================================================== *)

Record Trade := {
  tr_id : string;
  tr_symbol : string;
  tr_status : Status;
  tr_created_ts : Z;
  tr_open_ts : Z;

  tr_side : Side;
  tr_notional_usdt : float;
  tr_qty : float;

  tr_entry : float;
  tr_tp : float;
  tr_sl : float;
  tr_local_high : float;

  tr_funding_rate_at_open : float;
  tr_next_funding_ms_at_open : Z;

  tr_close_ts : option Z;
  tr_close_reason : option CloseReason;
  tr_close_price : option float
}.

(* ===================================================================== *)
(** ** The state of the main loop *)
(* ===================================================================== *)

Record WatchEntry := {
  w_local_high : float;
  w_stall : Z;
  w_blocked : bool;
  w_updated_ts : Z;
  w_created_ts : Z
}.

Inductive Event :=
| SKIP_BELOW_TP (ts : Z) (sym : string) (entry tp local_high : float)
| TRIGGER (ts : Z) (sym : string) (entry tp sl local_high funding_rate : float).

Record State := {
  last_bar_close_ms : option Z;
  cooldowns : gmap string Z;
  watch : gmap string WatchEntry;
  last_events : list Event
}.

Record Bot := {
  state : State;
  trades : list Trade
}.

(** How a block of the loop body ends: it falls through, or an exception
    leaves it (and the cycle); the mutations made before stay. *)
Inductive Outcome := Normal | Raised (e : exn).

Definition put_watch (sym : string) (w : WatchEntry) (b : Bot) : Bot := {|
  state := {|
    last_bar_close_ms := last_bar_close_ms (state b);
    cooldowns := cooldowns (state b);
    watch := <[sym := w]> (watch (state b));
    last_events := last_events (state b)
  |};
  trades := trades b
|}.

Definition pop_watch (sym : string) (b : Bot) : Bot := {|
  state := {|
    last_bar_close_ms := last_bar_close_ms (state b);
    cooldowns := cooldowns (state b);
    watch := delete sym (watch (state b));
    last_events := last_events (state b)
  |};
  trades := trades b
|}.

Definition set_cooldown (sym : string) (now_ts : Z) (b : Bot) : Bot := {|
  state := {|
    last_bar_close_ms := last_bar_close_ms (state b);
    cooldowns := <[sym := now_ts]> (cooldowns (state b));
    watch := watch (state b);
    last_events := last_events (state b)
  |};
  trades := trades b
|}.

Definition push_event (ev : Event) (b : Bot) : Bot := {|
  state := {|
    last_bar_close_ms := last_bar_close_ms (state b);
    cooldowns := cooldowns (state b);
    watch := watch (state b);
    last_events := last_n 500 (last_events (state b) ++ [ev])
  |};
  trades := trades b
|}.

Definition append_trade (tr : Trade) (b : Bot) : Bot := {|
  state := state b;
  trades := trades b ++ [tr]
|}.

(** The inline default of step 4 of [main]:
    [{"last": close, "funding_rate": 0.0, "next_funding_ms": 0}]. *)
Definition entry_default_ticker (close : float) : TickInfo := {|
  ti_symbol := None;
  ti_last := Some close;
  ti_funding_rate := Some 0%float;
  ti_next_funding_ms := Some 0
|}.

Definition update_watch_entry (w : WatchEntry) (high : float) (now_ts : Z) : WatchEntry :=
  let local_high := w_local_high w in
  let stall := w_stall w in
  let w :=
    if (local_high <? high)%float then
      {| w_local_high := high; w_stall := 0; w_blocked := false;
         w_updated_ts := w_updated_ts w; w_created_ts := w_created_ts w |}
    else
      {| w_local_high := w_local_high w; w_stall := stall + 1;
         w_blocked := w_blocked w;
         w_updated_ts := w_updated_ts w; w_created_ts := w_created_ts w |} in
  {| w_local_high := w_local_high w; w_stall := w_stall w;
     w_blocked := w_blocked w;
     w_updated_ts := now_ts; w_created_ts := w_created_ts w |}.

Definition block_watch_entry (w : WatchEntry) : WatchEntry :=
  {| w_local_high := w_local_high w; w_stall := w_stall w;
     w_blocked := true;
     w_updated_ts := w_updated_ts w; w_created_ts := w_created_ts w |}.

Section Configured.

Variable cfg : BotConfig.

Definition candidate_from_ticker (t : Ticker) : res (option Candidate) :=
  let sym := symbol t in
  if negb (endswith sym (quote cfg)) then mret None else

  let last := safe_float (lastPrice t) 0 in
  let high24 := safe_float (highPrice24h t) 0 in
  let low24 := safe_float (lowPrice24h t) 0 in
  let turnover := safe_float (turnover24h t) 0 in

  let funding_rate := safe_float (fundingRate t) 0 in
  next_funding_ms ← int (safe_float (nextFundingTime t) 0);

  if (last <=? 0)%float || (high24 <=? 0)%float || (low24 <=? 0)%float then mret None else

  r ← div (last - low24)%float low24;
  let pump_from_low24 := (r * 100.0)%float in
  near_high ← div last high24;

  if (turnover <? min_turnover_usdt cfg)%float then mret None else
  if (pump_from_low24 <? min_pump_from_low24_pct cfg)%float then mret None else
  if (near_high <? near_high_ratio cfg)%float then mret None else

  mret (Some {|
    c_symbol := sym;
    c_last := last;
    c_high24 := high24;
    c_low24 := low24;
    c_turnover := turnover;
    c_pump_from_low24_pct := pump_from_low24;
    c_near_high := near_high;
    c_funding_rate := funding_rate;
    c_next_funding_ms := next_funding_ms
  |}).

(* ===================================================================== *)
(** ** PAPER TRADES *)
(* ===================================================================== *)

Definition make_trade (symbol : string) (entry local_high : float) (now_ts : Z)
    (ticker : TickInfo) : res Trade :=
  let tp := (local_high * (1.0 - tp_from_high_pct cfg))%float in (* TP from high *)
  let sl := (entry * sl_mult cfg)%float in
  qty ← div (notional_usdt cfg) entry;
  next_funding_ms ← int (safe_float (ti_next_funding_ms ticker ≫= of_int) 0);

  mret {|
    tr_id := symbol +:+ ":" +:+ pretty now_ts;
    tr_symbol := symbol;
    tr_status := OPEN;
    tr_created_ts := now_ts;
    tr_open_ts := now_ts;

    tr_side := SHORT;
    tr_notional_usdt := notional_usdt cfg;
    tr_qty := qty;

    tr_entry := entry;
    tr_tp := tp;
    tr_sl := sl;
    tr_local_high := local_high;

    tr_funding_rate_at_open := safe_float (ti_funding_rate ticker) 0;
    tr_next_funding_ms_at_open := next_funding_ms;

    tr_close_ts := None;
    tr_close_reason := None;
    tr_close_price := None
  |}.

Definition remaining_profit_to_tp (tr : Trade) (mark : float) : float :=
  let tp := tr_tp tr in
  let qty := tr_qty tr in
  if (mark <=? tp)%float then 0%float
  else ((mark - tp) * qty)%float.

Definition funding_pnl_short (notional rate : float) : float :=
  (* short funding pnl = notional * rate (rate<0 => short pays => negative) *)
  (notional * rate)%float.

Definition funding_guard (tr : Trade) (ticker : TickInfo) (mark : float) : bool :=
  if negb (enable_funding_guard cfg) then false else
  let rate := safe_float (ti_funding_rate ticker) 0 in
  if (0 <=? rate)%float then false (* shorts receive or neutral *) else

  let rem := remaining_profit_to_tp tr mark in
  if (rem <=? 0)%float then false else

  let expected := funding_pnl_short (tr_notional_usdt tr) rate in (* negative if rate<0 *)
  (rem * funding_guard_ratio cfg <=? abs expected)%float.

(* ===================================================================== *)
(** ** MAIN LOOP *)
(* ===================================================================== *)

(** [int(safe_float(t.get("nextFundingTime", 0), 0))], which [main] and
    the filter both evaluate for a row. *)
Definition funding_time (t : Ticker) : res Z :=
  int (safe_float (nextFundingTime t) 0).

(** The value [main] stores in [tick_map] for a row. *)
Definition tick_info_of (t : Ticker) (next_funding_ms : Z) : TickInfo := {|
  ti_symbol := Some (symbol t);
  ti_last := Some (safe_float (lastPrice t) 0);
  ti_funding_rate := Some (safe_float (fundingRate t) 0);
  ti_next_funding_ms := Some next_funding_ms
|}.

(** "Build ticker map + pump candidates": the body of [for t in tickers],
    and the loop.  [tick_map] and [candidates] are local to the pass, so
    nothing is left of them when a row raises. *)
Definition scan_step (acc : gmap string TickInfo * list Candidate) (t : Ticker)
    : res (gmap string TickInfo * list Candidate) :=
  let sym := symbol t in
  next_funding_ms ← funding_time t;
  let tick_map := <[sym := tick_info_of t next_funding_ms]> acc.1 in
  c ← candidate_from_ticker t;
  mret (tick_map,
        match c with
        | Some c => acc.2 ++ [c]
        | None => acc.2
        end).

Fixpoint scan_tickers (tickers : list Ticker)
    (acc : gmap string TickInfo * list Candidate)
    : res (gmap string TickInfo * list Candidate) :=
  match tickers with
  | [] => mret acc
  | t :: tickers' => acc' ← scan_step acc t; scan_tickers tickers' acc'
  end.

(** What [candidate_from_ticker] returns for a row, when it returns. *)
Definition candidate_of (t : Ticker) : option Candidate :=
  match candidate_from_ticker t with
  | Return c => c
  | Raise _ => None
  end.

(** The body of the loop [for sym in list(watch.keys())] of step 4 of
    [main], for one symbol. *)
Definition stall_step (pub : HTTP) (tick_map : gmap string TickInfo) (now_ts : Z)
    (sym : string) (b : Bot) : Outcome * Bot :=
  match watch (state b) !! sym with
  | None => (Normal, b)
  | Some w =>
    match get_last_closed_kline pub sym with
    | None => (Normal, b)
    | Some last_candle =>
      let high := safe_float (k_high last_candle) 0 in
      let close := safe_float (k_close last_candle) 0 in

      let blocked := w_blocked w in

      (* New high resets stall and unblocks *)
      let w := update_watch_entry w high now_ts in
      let b := put_watch sym w b in

      (* Trigger condition *)
      if bool_decide (w_stall w >= stall_candles cfg) && negb blocked then
        let tinfo := default (entry_default_ticker close) (tick_map !! sym) in
        let entry := safe_float (ti_last tinfo) close in

        let tp_from_high := (w_local_high w * (1.0 - tp_from_high_pct cfg))%float in

        (* Rule: do NOT open if market <= TP (already too late). Keep watching. *)
        if (entry <=? tp_from_high)%float then
          let w := block_watch_entry w in (* block until new high appears *)
          let b := put_watch sym w b in
          let b := push_event
                     (SKIP_BELOW_TP now_ts sym entry tp_from_high (w_local_high w)) b in
          (Normal, b)
        else

        (* Open paper trade (market entry) *)
        match make_trade sym entry (w_local_high w) now_ts tinfo with
        | Raise e => (Raised e, b)
        | Return tr =>
          let b := append_trade tr b in
          let b := set_cooldown sym now_ts b in
          let b := push_event
                     (TRIGGER now_ts sym (tr_entry tr) (tr_tp tr) (tr_sl tr)
                              (tr_local_high tr) (tr_funding_rate_at_open tr)) b in
          (* Remove from watch after opening *)
          let b := pop_watch sym b in
          (Normal, b)
        end
      else (Normal, b)
    end
  end.

End Configured.

(** The last row of a symbol in a list of rows. *)
Definition last_row (sym : string) (tickers : list Ticker) : option Ticker :=
  last (List.filter (fun t => bool_decide (symbol t = sym)) tickers).

(** The remaining profit to target in the words of the specification:
    [remaining = max(0, (mark - take_profit) * quantity)]. *)
Definition spec_remaining (tr : Trade) (mark : float) : float :=
  max 0 ((mark - tr_tp tr) * tr_qty tr)%float.

(** *** Sample data *)

Module Ex.

Definition kline (h l c : float) : Kline := {|
  k_start := Some 0%float; k_open := Some c;
  k_high := Some h; k_low := Some l; k_close := Some c;
  k_volume := Some 0%float; k_turnover := Some 0%float
|}.

Definition session (k : Kline) : HTTP :=
  fun _ => {| retCode := 0; result_list := [k] |}.

(** A short on XUSDT of notional 20, opened at time 1. *)
Definition trade (entry tp sl qty : float) : Trade := {|
  tr_id := "XUSDT:1"; tr_symbol := "XUSDT"; tr_status := OPEN;
  tr_created_ts := 1; tr_open_ts := 1;
  tr_side := SHORT; tr_notional_usdt := 20.0; tr_qty := qty;
  tr_entry := entry; tr_tp := tp; tr_sl := sl; tr_local_high := 12.0;
  tr_funding_rate_at_open := 0; tr_next_funding_ms_at_open := 0;
  tr_close_ts := None; tr_close_reason := None; tr_close_price := None
|}.

Definition ticker (last rate : float) : TickInfo := {|
  ti_symbol := Some "XUSDT"; ti_last := Some last;
  ti_funding_rate := Some rate; ti_next_funding_ms := Some 1700000000000
|}.

(** A ticker row of XUSDT with a turnover of 6,000,000, by the outcome of
    [float] on its last price and on its next funding time. *)
Definition row (last next_funding : option float) : Ticker := {|
  symbol := "XUSDT";
  lastPrice := last; highPrice24h := Some 11.0%float; lowPrice24h := Some 5.0%float;
  turnover24h := Some 6000000.0%float;
  fundingRate := Some (-0.01)%float; nextFundingTime := next_funding
|}.

Definition entry (local_high : float) (stall : Z) (blocked : bool) : WatchEntry := {|
  w_local_high := local_high; w_stall := stall; w_blocked := blocked;
  w_updated_ts := 1; w_created_ts := 1
|}.

Definition bot (w : WatchEntry) : Bot := {|
  state := {|
    last_bar_close_ms := None;
    cooldowns := ∅;
    watch := {[ "XUSDT"%string := w ]};
    last_events := []
  |};
  trades := []
|}.

Definition tick_map (last : float) : gmap string TickInfo :=
  {[ "XUSDT"%string := ticker last (-0.01) ]}.

End Ex.

End F64.

(* ===================================================================== *)
(** * Properties *)
(* ===================================================================== *)

(** ** Comparisons and division *)

Module PyFacts.

Lemma le_true (a b : Q) : Py.le a b = true <-> (a <= b)%Q.
Proof. apply Qle_bool_iff. Qed.

Lemma le_false (a b : Q) : Py.le a b = false <-> (b < a)%Q.
Proof.
  unfold Py.le. split.
  - intros H. apply Qnot_le_lt. intros Hle.
    apply Qle_bool_iff in Hle. congruence.
  - intros H. destruct (Qle_bool a b) eqn:E; [|reflexivity].
    apply Qle_bool_iff in E. exfalso. exact (Qlt_not_le _ _ H E).
Qed.

Lemma lt_true (a b : Q) : Py.lt a b = true <-> (a < b)%Q.
Proof.
  unfold Py.lt. rewrite negb_true_iff. apply le_false.
Qed.

Lemma lt_false (a b : Q) : Py.lt a b = false <-> (b <= a)%Q.
Proof.
  unfold Py.lt. rewrite negb_false_iff. apply le_true.
Qed.

Lemma eq_true (a b : Q) : Py.eq a b = true <-> (a == b)%Q.
Proof. apply Qeq_bool_iff. Qed.

Lemma eq_false (a b : Q) : Py.eq a b = false <-> ~ (a == b)%Q.
Proof.
  unfold Py.eq. split.
  - intros H E. apply Qeq_bool_iff in E. congruence.
  - intros H. destruct (Qeq_bool a b) eqn:E; [|reflexivity].
    apply Qeq_bool_iff in E. contradiction.
Qed.

(** A division by a non-zero float returns. *)
Lemma div_nonzero (a b : Q) : ~ (b == 0)%Q -> Py.div a b = Py.Return (a / b)%Q.
Proof.
  intros H. unfold Py.div. apply eq_false in H. rewrite H. reflexivity.
Qed.

Lemma div_zero (a b : Q) : (b == 0)%Q -> Py.div a b = Py.Raise Py.ZeroDivisionError.
Proof.
  intros H. unfold Py.div. apply eq_true in H. rewrite H. reflexivity.
Qed.


End PyFacts.

(** Boolean comparisons in the context, as propositions. *)
Ltac py_cmp :=
  repeat match goal with
  | H : Py.le _ _ = true |- _ => apply PyFacts.le_true in H
  | H : Py.le _ _ = false |- _ => apply PyFacts.le_false in H
  | H : Py.lt _ _ = true |- _ => apply PyFacts.lt_true in H
  | H : Py.lt _ _ = false |- _ => apply PyFacts.lt_false in H
  | H : Py.eq _ _ = true |- _ => apply PyFacts.eq_true in H
  | H : Py.eq _ _ = false |- _ => apply PyFacts.eq_false in H
  end.

(** A goal [False] from two order facts of the context that clash. *)
Ltac q_absurd :=
  match goal with
  | H1 : (?a < ?b)%Q, H2 : (?b <= ?a)%Q |- _ => exact (Qlt_not_le _ _ H1 H2)
  | H1 : (?a < ?b)%Q, H2 : ~ (?a <= ?b)%Q |- _ => exact (H2 (Qlt_le_weak _ _ H1))
  | H1 : (?a <= ?b)%Q, H2 : ~ (?a <= ?b)%Q |- _ => exact (H2 H1)
  | H1 : (?a < ?b)%Q, H2 : (?b < ?a)%Q |- _ =>
      exact (Qlt_not_le _ _ H1 (Qlt_le_weak _ _ H2))
  | H : (?a < ?a)%Q |- _ => exact (Qlt_irrefl _ H)
  end.

(** ** Strings and the exchange *)

Module StrFacts.

Lemma list_of_append (p q : string) :
  String.list_ascii_of_string (p +:+ q)
  = String.list_ascii_of_string p ++ String.list_ascii_of_string q.
Proof.
  induction p as [|a p IH]; simpl; [reflexivity|]. rewrite IH. reflexivity.
Qed.

Lemma string_of_app (k l : list Ascii.ascii) :
  String.string_of_list_ascii (k ++ l)
  = String.string_of_list_ascii k +:+ String.string_of_list_ascii l.
Proof.
  induction k as [|a k IH]; simpl; [reflexivity|]. rewrite IH. reflexivity.
Qed.

(** [endswith] is the suffix test of Python. *)
Lemma endswith_iff (s suffix : string) :
  endswith s suffix = true <-> exists p, s = p +:+ suffix.
Proof.
  unfold endswith. rewrite bool_decide_eq_true. split.
  - intros [k Hk]. exists (String.string_of_list_ascii k).
    rewrite <- (String.string_of_list_ascii_of_string s), Hk, string_of_app.
    rewrite String.string_of_list_ascii_of_string. reflexivity.
  - intros [p ->]. exists (String.list_ascii_of_string p). apply list_of_append.
Qed.

End StrFacts.

(** No closed candle: the exchange answered with an error code or with an
    empty list.  Otherwise the candle is the first row of the answer. *)
Lemma get_last_closed_kline_none (sess : HTTP) (sym : string) :
  get_last_closed_kline sess sym = None <->
  retCode (sess sym) <> 0 \/ result_list (sess sym) = [].
Proof.
  unfold get_last_closed_kline.
  case_bool_decide as Hc; [tauto|].
  case_bool_decide as Hd; [tauto|].
  destruct (result_list (sess sym)) as [|k ks]; [congruence|].
  rewrite reverse_cons, last_snoc. split; [discriminate|].
  intros [H|H]; [contradiction|discriminate].
Qed.

Lemma get_last_closed_kline_some (sess : HTTP) (sym : string) (k : Kline) :
  get_last_closed_kline sess sym = Some k <->
  retCode (sess sym) = 0 /\ head (result_list (sess sym)) = Some k.
Proof.
  unfold get_last_closed_kline.
  case_bool_decide as Hc; [split; [discriminate|tauto]|].
  case_bool_decide as Hd.
  { rewrite Hd. simpl. split; [discriminate|intros [_ H]; discriminate]. }
  destruct (result_list (sess sym)) as [|k0 ks]; [congruence|].
  rewrite reverse_cons, last_snoc. simpl.
  split; [intros H; split; [lia|exact H]|tauto].
Qed.

(** ** The paper-trade lifecycle *)

Section Lifecycle.

Variable cfg : BotConfig.
Variable pub : HTTP.
Variable tick_map : gmap string TickInfo.
Variable now_ts : Z.

(** A trade that is not OPEN is skipped. *)
Lemma update_trade_not_open (tr : Trade) :
  tr_status tr <> OPEN -> update_trade cfg pub tick_map now_ts tr = tr.
Proof.
  intros H. unfold update_trade. rewrite bool_decide_eq_true_2; done.
Qed.

(** An OPEN trade with a closed candle: the body of the loop, with the
    guards taken. *)
Lemma update_trade_open (tr : Trade) (k : Kline) :
  tr_status tr = OPEN ->
  get_last_closed_kline pub (tr_symbol tr) = Some k ->
  let h := safe_float (k_high k) 0 in
  let l := safe_float (k_low k) 0 in
  let c := safe_float (k_close k) 0 in
  let ticker := default (trade_default_ticker c) (tick_map !! tr_symbol tr) in
  let mark := safe_float (ti_last ticker) c in
  update_trade cfg pub tick_map now_ts tr =
    if funding_guard cfg tr ticker mark then close_trade tr now_ts FUNDING_GUARD mark
    else if (l <=? tr_tp tr)%pyq && (h >=? tr_sl tr)%pyq then close_trade tr now_ts SL (tr_sl tr)
    else if (h >=? tr_sl tr)%pyq then close_trade tr now_ts SL (tr_sl tr)
    else if (l <=? tr_tp tr)%pyq then close_trade tr now_ts TP (tr_tp tr)
    else tr.
Proof.
  intros Hopen Hk. unfold update_trade.
  rewrite bool_decide_eq_false_2 by (rewrite Hopen; intros H; apply H; reflexivity).
  rewrite Hk. reflexivity.
Qed.

(** [update_open_trades] runs the body on every trade of the list, in
    place. *)
Lemma update_open_trades_lookup (trades : list Trade) (i : nat) (tr : Trade) :
  trades !! i = Some tr ->
  update_open_trades cfg pub trades tick_map now_ts !! i
  = Some (update_trade cfg pub tick_map now_ts tr).
Proof.
  intros Hi. unfold update_open_trades. rewrite list_lookup_fmap, Hi. reflexivity.
Qed.

Lemma update_open_trades_length (trades : list Trade) :
  length (update_open_trades cfg pub trades tick_map now_ts) = length trades.
Proof. apply length_map. Qed.

(** Whatever [update_trade] returns is left alone by a second run: either it
    is the trade itself, or it is CLOSED. *)
Lemma update_trade_cases (tr : Trade) :
  update_trade cfg pub tick_map now_ts tr = tr \/
  tr_status (update_trade cfg pub tick_map now_ts tr) = CLOSED.
Proof.
  unfold update_trade.
  repeat (case_bool_decide || case_match); auto.
Qed.

(** Running the evaluation of one cycle twice is running it once. *)
Lemma update_trade_idempotent (tr : Trade) :
  update_trade cfg pub tick_map now_ts (update_trade cfg pub tick_map now_ts tr)
  = update_trade cfg pub tick_map now_ts tr.
Proof.
  destruct (update_trade_cases tr) as [Hsame|Hclosed].
  - rewrite Hsame. exact Hsame.
  - apply update_trade_not_open. rewrite Hclosed. discriminate.
Qed.

End Lifecycle.

Section LifecycleClaims.

Variable cfg : BotConfig.
Variable pub : HTTP.
Variable tick_map : gmap string TickInfo.
Variable now_ts : Z.

(** C1.  An OPEN trade evaluated with a closed candle [k] (high [h], low
    [l]): the funding guard is asked first, on the ticker of the symbol and
    its mark price, and when it fires the trade becomes CLOSED with reason
    FUNDING_GUARD and close price the mark price, whatever the candle;
    otherwise it becomes CLOSED with reason SL and close price [sl] when
    both [l <= tp] and [h >= sl], with reason SL and price [sl] when only
    [h >= sl], with reason TP and price [tp] when only [l <= tp], and it
    stays OPEN, unchanged, when neither holds.  A trade that is closed gets
    the time of the cycle as [close_ts] and keeps every other field.
    [update_open_trades] leaves that outcome at the place of the trade in
    the list. *)
Theorem update_trade_close_order (tr : Trade) (k : Kline) :
  tr_status tr = OPEN ->
  get_last_closed_kline pub (tr_symbol tr) = Some k ->
  let h := safe_float (k_high k) 0 in
  let l := safe_float (k_low k) 0 in
  let c := safe_float (k_close k) 0 in
  let tp := tr_tp tr in
  let sl := tr_sl tr in
  let ticker := default (trade_default_ticker c) (tick_map !! tr_symbol tr) in
  let mark := safe_float (ti_last ticker) c in
  let tr' := update_trade cfg pub tick_map now_ts tr in
  let closed_as (reason : CloseReason) (price : Q) :=
    tr_status tr' = CLOSED /\
    tr_close_reason tr' = Some reason /\
    tr_close_price tr' = Some price /\
    tr_close_ts tr' = Some now_ts /\
    tr' = close_trade tr now_ts reason price in
  (funding_guard cfg tr ticker mark = true -> closed_as FUNDING_GUARD mark) /\
  (funding_guard cfg tr ticker mark = false ->
     ((l <= tp)%Q /\ (h >= sl)%Q -> closed_as SL sl) /\
     (~ (l <= tp)%Q /\ (h >= sl)%Q -> closed_as SL sl) /\
     ((l <= tp)%Q /\ ~ (h >= sl)%Q -> closed_as TP tp) /\
     (~ (l <= tp)%Q /\ ~ (h >= sl)%Q ->
        tr' = tr /\ tr_status tr' = OPEN /\
        tr_close_reason tr' = tr_close_reason tr /\
        tr_close_price tr' = tr_close_price tr)) /\
  (forall (trades : list Trade) (i : nat),
     trades !! i = Some tr ->
     update_open_trades cfg pub trades tick_map now_ts !! i = Some tr').
Proof.
  intros Hopen Hk h l c tp sl ticker mark tr' closed_as.
  assert (Hlist : forall (trades : list Trade) (i : nat),
             trades !! i = Some tr ->
             update_open_trades cfg pub trades tick_map now_ts !! i = Some tr')
    by (intros trades i Hi;
        exact (update_open_trades_lookup cfg pub tick_map now_ts trades i tr Hi)).
  subst closed_as tr'. revert Hlist.
  rewrite (update_trade_open cfg pub tick_map now_ts tr k Hopen Hk).
  fold h l c ticker mark tp sl. intros Hlist.
  split; [intros ->; repeat split; reflexivity|].
  split; [|exact Hlist]. clear Hlist. intros ->.
  destruct (l <=? tp)%pyq eqn:Etp; destruct (sl <=? h)%pyq eqn:Esl; simpl;
    py_cmp; (split; [|split; [|split]]); intros [H1 H2];
    solve [ repeat split; solve [reflexivity | exact Hopen]
          | exfalso; q_absurd ].
Qed.

(** C9.  An OPEN trade for whose symbol no closed candle is available (the
    exchange answers with an error code or with an empty list) is returned
    as it was, and so is it in the list of trades. *)
Theorem update_trade_no_candle (tr : Trade) :
  tr_status tr = OPEN ->
  get_last_closed_kline pub (tr_symbol tr) = None ->
  update_trade cfg pub tick_map now_ts tr = tr /\
  (forall (trades : list Trade) (i : nat),
     trades !! i = Some tr ->
     update_open_trades cfg pub trades tick_map now_ts !! i = Some tr).
Proof.
  intros Hopen Hk.
  assert (Hu : update_trade cfg pub tick_map now_ts tr = tr).
  { unfold update_trade. rewrite Hk. case_bool_decide; reflexivity. }
  split; [exact Hu|].
  intros trades i Hi. unfold update_open_trades.
  rewrite list_lookup_fmap, Hi. simpl. rewrite Hu. reflexivity.
Qed.

(** C10.  An OPEN trade whose symbol [tick_map] lacks, evaluated with a
    closed candle: the ticker is the inline default, its funding rate is 0
    and the mark price is the close of the candle; the funding guard
    answers false, and the trade is closed as SL at [sl] when [h >= sl], as
    TP at [tp] when only [l <= tp], and is unchanged otherwise. *)
Theorem update_trade_absent_ticker (tr : Trade) (k : Kline) :
  tr_status tr = OPEN ->
  tick_map !! tr_symbol tr = None ->
  get_last_closed_kline pub (tr_symbol tr) = Some k ->
  let h := safe_float (k_high k) 0 in
  let l := safe_float (k_low k) 0 in
  let c := safe_float (k_close k) 0 in
  let tp := tr_tp tr in
  let sl := tr_sl tr in
  let ticker := default (trade_default_ticker c) (tick_map !! tr_symbol tr) in
  let tr' := update_trade cfg pub tick_map now_ts tr in
  safe_float (ti_funding_rate ticker) 0 = 0%Q /\
  safe_float (ti_last ticker) c = c /\
  funding_guard cfg tr ticker c = false /\
  ((h >= sl)%Q -> tr' = close_trade tr now_ts SL sl) /\
  (~ (h >= sl)%Q -> (l <= tp)%Q -> tr' = close_trade tr now_ts TP tp) /\
  (~ (h >= sl)%Q -> ~ (l <= tp)%Q -> tr' = tr).
Proof.
  intros Hopen Hnone Hk h l c tp sl ticker tr'.
  assert (Hg : funding_guard cfg tr ticker c = false).
  { subst ticker. rewrite Hnone. unfold funding_guard. simpl.
    destruct (enable_funding_guard cfg); reflexivity. }
  subst tr'. rewrite (update_trade_open cfg pub tick_map now_ts tr k Hopen Hk).
  fold h l c tp sl ticker.
  assert (Hmark : safe_float (ti_last ticker) c = c)
    by (subst ticker; rewrite Hnone; reflexivity).
  rewrite Hmark, Hg.
  split; [subst ticker; rewrite Hnone; reflexivity|].
  split; [reflexivity|]. split; [reflexivity|].
  destruct (l <=? tp)%pyq eqn:Etp; destruct (sl <=? h)%pyq eqn:Esl; simpl;
    py_cmp; (split; [|split]); intros;
    solve [ reflexivity | exfalso; q_absurd ].
Qed.

End LifecycleClaims.

(** C8.  A CLOSED trade is returned as it is by the evaluation of any cycle,
    alone or in the list of trades, and by any number of later cycles: no
    field changes, it is never OPEN again, and the close fields are written
    once. *)
Theorem closed_trade_immutable (cfg : BotConfig) (tr : Trade) :
  tr_status tr = CLOSED ->
  (forall pub tick_map now_ts, update_trade cfg pub tick_map now_ts tr = tr) /\
  (forall pub tick_map now_ts (trades : list Trade) (i : nat),
     trades !! i = Some tr ->
     update_open_trades cfg pub trades tick_map now_ts !! i = Some tr) /\
  (forall cycles, update_trade_over cfg cycles tr = tr).
Proof.
  intros Hclosed.
  assert (Hu : forall pub tick_map now_ts,
             update_trade cfg pub tick_map now_ts tr = tr).
  { intros. apply update_trade_not_open. rewrite Hclosed. discriminate. }
  split; [exact Hu|]. split.
  - intros pub tick_map now_ts trades i Hi. unfold update_open_trades.
    rewrite list_lookup_fmap, Hi. simpl. rewrite Hu. reflexivity.
  - intros cycles. unfold update_trade_over.
    induction cycles as [|cy cycles IH]; simpl; [reflexivity|].
    rewrite Hu. exact IH.
Qed.

(** The candle (low 8, high 12) against tp = 9 and sl = 11: both are hit
    and the trade is CLOSED with reason SL at 11, at the time 5 of the
    cycle. *)
Lemma update_trade_close_order_witness :
  let tr' := update_trade CFG (Ex.session (Ex.kline 12 8 10)) ∅ 5
               (Ex.trade OPEN 10 9 11 2 None) in
  tr_status tr' = CLOSED /\
  tr_close_reason tr' = Some SL /\
  tr_close_price tr' = Some 11%Q /\
  tr_close_ts tr' = Some 5.
Proof.
  destruct (update_trade_close_order CFG (Ex.session (Ex.kline 12 8 10)) ∅ 5
              (Ex.trade OPEN 10 9 11 2 None) (Ex.kline 12 8 10) eq_refl eq_refl)
    as (_ & H & _).
  destruct (H eq_refl) as [Hboth _].
  destruct Hboth as (Hs & Hr & Hp & Ht & _).
  { split; apply Qle_bool_imp_le; reflexivity. }
  repeat split; assumption.
Defined.

(** The exchange answers with an empty list: the OPEN trade stays as it is. *)
Lemma update_trade_no_candle_witness :
  update_trade CFG Ex.silent {[ "XUSDT"%string := Ex.ticker 10 (-1 # 100) ]} 5
    (Ex.trade OPEN 10 9 11 2 None)
  = Ex.trade OPEN 10 9 11 2 None.
Proof.
  exact (proj1 (update_trade_no_candle CFG Ex.silent
                  {[ "XUSDT"%string := Ex.ticker 10 (-1 # 100) ]} 5
                  (Ex.trade OPEN 10 9 11 2 None) eq_refl eq_refl)).
Defined.

(** XUSDT is not in the ticker map and the candle (low 8, high 10, close
    19/2) reaches tp = 9 only: the trade closes as TP at 9. *)
Lemma update_trade_absent_ticker_witness :
  update_trade CFG (Ex.session (Ex.kline 10 8 (19 # 2))) ∅ 5 (Ex.trade OPEN 10 9 11 2 None)
  = close_trade (Ex.trade OPEN 10 9 11 2 None) 5 TP 9.
Proof.
  destruct (update_trade_absent_ticker CFG (Ex.session (Ex.kline 10 8 (19 # 2))) ∅ 5
              (Ex.trade OPEN 10 9 11 2 None) (Ex.kline 10 8 (19 # 2))
              eq_refl (lookup_empty _) eq_refl)
    as (_ & _ & _ & _ & H & _).
  apply H.
  - intros Hle. apply Qle_bool_iff in Hle. discriminate Hle.
  - apply Qle_bool_imp_le. reflexivity.
Defined.

(** A trade closed at 9 goes through a cycle whose candle would hit its
    stop-loss: nothing changes. *)
Lemma closed_trade_immutable_witness :
  update_trade CFG (Ex.session (Ex.kline 12 8 10)) ∅ 5 (Ex.trade CLOSED 10 9 11 2 (Some 9%Q))
  = Ex.trade CLOSED 10 9 11 2 (Some 9%Q).
Proof.
  exact (proj1 (closed_trade_immutable CFG (Ex.trade CLOSED 10 9 11 2 (Some 9%Q)) eq_refl)
           (Ex.session (Ex.kline 12 8 10)) ∅ 5).
Defined.

(** ** The funding guard *)

Section FundingGuard.

Variable cfg : BotConfig.

Lemma remaining_at_or_past_tp (tr : Trade) (mark : Q) :
  (mark <= tr_tp tr)%Q -> remaining_profit_to_tp tr mark = 0%Q.
Proof.
  intros H. unfold remaining_profit_to_tp.
  apply PyFacts.le_true in H. rewrite H. reflexivity.
Qed.

Lemma remaining_before_tp (tr : Trade) (mark : Q) :
  (tr_tp tr < mark)%Q ->
  remaining_profit_to_tp tr mark = ((mark - tr_tp tr) * tr_qty tr)%Q.
Proof.
  intros H. unfold remaining_profit_to_tp.
  apply PyFacts.le_false in H. rewrite H. reflexivity.
Qed.

(** The guard, decision by decision. *)
Lemma funding_guard_true_iff (tr : Trade) (ticker : TickInfo) (mark : Q) :
  funding_guard cfg tr ticker mark = true <->
  enable_funding_guard cfg = true /\
  (safe_float (ti_funding_rate ticker) 0 < 0)%Q /\
  (0 < remaining_profit_to_tp tr mark)%Q /\
  (Qabs (tr_notional_usdt tr * safe_float (ti_funding_rate ticker) 0)
     >= remaining_profit_to_tp tr mark * funding_guard_ratio cfg)%Q.
Proof.
  unfold funding_guard, funding_pnl_short.
  destruct (enable_funding_guard cfg); simpl; [|intuition discriminate].
  destruct (0 <=? safe_float (ti_funding_rate ticker) 0)%pyq eqn:Er; py_cmp.
  { split; [discriminate|]. intros (_ & H & _). exfalso. q_absurd. }
  destruct (remaining_profit_to_tp tr mark <=? 0)%pyq eqn:Em; py_cmp.
  { split; [discriminate|]. intros (_ & _ & H & _). exfalso. q_absurd. }
  rewrite PyFacts.le_true. intuition.
Qed.

End FundingGuard.

(** ** The statistics *)

Module SumFacts.

Lemma fold_left_Qplus (xs : list Q) (a : Q) :
  (fold_left Qplus xs a == a + Py.sum xs)%Q.
Proof.
  unfold Py.sum. revert a.
  induction xs as [|x xs IH]; intros a; simpl.
  - rewrite Qplus_0_r. reflexivity.
  - rewrite (IH (a + x)%Q), (IH (0 + x)%Q). ring.
Qed.

Lemma sum_cons (x : Q) (xs : list Q) : (Py.sum (x :: xs) == x + Py.sum xs)%Q.
Proof.
  unfold Py.sum at 1. simpl. rewrite fold_left_Qplus. ring.
Qed.

(** Floats that are all [<= 0] sum to a float [<= 0]. *)
Lemma sum_nonpos (xs : list Q) :
  Forall (fun p => (p <= 0)%Q) xs -> (Py.sum xs <= 0)%Q.
Proof.
  induction 1 as [|x xs Hx Hxs IH].
  - apply Qle_refl.
  - rewrite sum_cons. rewrite <- (Qplus_0_r 0). apply Qplus_le_compat; assumption.
Qed.

(** ... and to 0 only when none of them is negative. *)
Lemma sum_nonpos_zero (xs : list Q) :
  Forall (fun p => (p <= 0)%Q) xs ->
  ((Py.sum xs == 0)%Q <-> forall p, In p xs -> ~ (p < 0)%Q).
Proof.
  induction 1 as [|x xs Hx Hxs IH].
  - split; [intros _ p []|reflexivity].
  - rewrite sum_cons. pose proof (sum_nonpos xs Hxs) as Hs. split.
    + intros Hz p [->|Hin] Hneg.
      * assert (Hlt : (p + Py.sum xs < 0)%Q).
        { rewrite <- (Qplus_0_r 0). apply Qplus_lt_le_compat; assumption. }
        rewrite Hz in Hlt. q_absurd.
      * assert (Hx0 : (x == 0)%Q).
        { apply Qle_antisym; [exact Hx|].
          apply Qnot_lt_le. intros Hxneg.
          assert (Hlt : (x + Py.sum xs < 0)%Q).
          { rewrite <- (Qplus_0_r 0). apply Qplus_lt_le_compat; assumption. }
          rewrite Hz in Hlt. q_absurd. }
        rewrite Hx0, Qplus_0_l in Hz.
        exact (proj1 IH Hz p Hin Hneg).
    + intros Hall.
      assert (Hx0 : (x == 0)%Q).
      { apply Qle_antisym; [exact Hx|]. apply Qnot_lt_le.
        apply Hall. left. reflexivity. }
      rewrite Hx0, Qplus_0_l. apply IH.
      intros p Hin. apply Hall. right. exact Hin.
Qed.

Lemma Qabs_zero (x : Q) : (Qabs x == 0)%Q -> (x == 0)%Q.
Proof.
  intros H. destruct (Qlt_le_dec x 0) as [Hneg|Hpos].
  - rewrite Qabs_neg in H by (apply Qlt_le_weak; exact Hneg).
    rewrite <- (Qopp_involutive x), H. reflexivity.
  - rewrite Qabs_pos in H by exact Hpos. exact H.
Qed.

Lemma length_nonzero {A} (xs : list A) :
  xs <> [] -> ~ (inject_Z (Z.of_nat (length xs)) == 0)%Q.
Proof.
  intros Hne Hz. destruct xs as [|x xs]; [congruence|].
  unfold Qeq in Hz. simpl in Hz. lia.
Qed.

End SumFacts.

Section Stats.

Variable trades : list Trade.

Let closed := List.filter (fun t => bool_decide (tr_status t = CLOSED)) trades.
Let pnls := omap id (map trade_pnl closed).
Let wins := List.filter (fun p => (p >? 0)%pyq) pnls.
Let losses := List.filter (fun p => (p <=? 0)%pyq) pnls.

Lemma losses_nonpos : Forall (fun p => (p <= 0)%Q) losses.
Proof.
  apply List.Forall_forall. intros p Hin.
  apply filter_In in Hin. destruct Hin as [_ Hle]. py_cmp. exact Hle.
Qed.

Lemma negative_in_losses (p : Q) : In p pnls -> (p < 0)%Q -> In p losses.
Proof.
  intros Hin Hneg. apply filter_In. split; [exact Hin|].
  apply PyFacts.le_true, Qlt_le_weak, Hneg.
Qed.

(** The profit factor [print_stats] reports, by the test it makes. *)
Lemma print_stats_closed :
  closed <> [] ->
  exists winrate avg,
    print_stats trades = Py.Return (StatsOf {|
      st_closed := length pnls;
      st_winrate := winrate;
      st_total := Py.sum pnls;
      st_avg := avg;
      st_pf := if bool_decide (losses <> []) && negb (Py.eq (Py.sum losses) 0)
               then PFin (Py.sum wins / Qabs (Py.sum losses))%Q
               else PFInf
    |}).
Proof.
  intros Hne. unfold print_stats. fold closed.
  rewrite bool_decide_eq_false_2 by exact Hne.
  fold pnls. fold wins. fold losses.
  unfold mbind, res_bind, mret, res_ret.
  destruct (bool_decide (pnls <> [])) eqn:Ep.
  - apply bool_decide_eq_true_1 in Ep.
    rewrite !(PyFacts.div_nonzero _ _ (SumFacts.length_nonzero pnls Ep)). simpl.
    destruct (bool_decide (losses <> []) && negb (Py.eq (Py.sum losses) 0)) eqn:El.
    + apply andb_true_iff in El. destruct El as [_ El].
      apply negb_true_iff in El. py_cmp.
      rewrite PyFacts.div_nonzero
        by (intros Hz; apply El, SumFacts.Qabs_zero, Hz).
      simpl. eauto.
    + simpl. eauto.
  - simpl.
    destruct (bool_decide (losses <> []) && negb (Py.eq (Py.sum losses) 0)) eqn:El.
    + apply andb_true_iff in El. destruct El as [_ El].
      apply negb_true_iff in El. py_cmp.
      rewrite PyFacts.div_nonzero
        by (intros Hz; apply El, SumFacts.Qabs_zero, Hz).
      simpl. eauto.
    + simpl. eauto.
Qed.

(** The test of [print_stats] for the infinite profit factor fails exactly
    when some PnL is negative. *)
Lemma pf_test_iff :
  bool_decide (losses <> []) && negb (Py.eq (Py.sum losses) 0) = false <->
  (forall p, In p pnls -> ~ (p < 0)%Q).
Proof.
  pose proof (SumFacts.sum_nonpos_zero losses losses_nonpos) as Hsum.
  rewrite andb_false_iff, negb_false_iff, PyFacts.eq_true. split.
  - intros [Hempty|Hz] p Hin Hneg.
    + apply bool_decide_eq_false_1 in Hempty.
      pose proof (negative_in_losses p Hin Hneg) as Hl.
      destruct losses; [exact Hl|]. apply Hempty. discriminate.
    + exact (proj1 Hsum Hz p (negative_in_losses p Hin Hneg) Hneg).
  - intros Hall. right. apply Hsum. intros p Hin.
    apply Hall. apply filter_In in Hin. tauto.
Qed.

End Stats.

(** C7, as amended.  With no closed trade the report is closed=0, and no
    exception is raised.  With closed trades the figures are reported, no
    exception is raised, and the profit factor is infinite exactly when no
    computable PnL is negative, whether or not a trade wins (so it is when
    there is no losing trade and one that wins); otherwise it is the sum of
    the positive PnLs divided by the absolute value of the sum of the
    non-positive ones. *)
Theorem print_stats_profit_factor (trades : list Trade) :
  let closed := List.filter (fun t => bool_decide (tr_status t = CLOSED)) trades in
  let pnls := omap id (map trade_pnl closed) in
  let wins := List.filter (fun p => (p >? 0)%pyq) pnls in
  let losses := List.filter (fun p => (p <=? 0)%pyq) pnls in
  (closed = [] -> print_stats trades = Py.Return NoClosed) /\
  (closed <> [] ->
   exists s,
     print_stats trades = Py.Return (StatsOf s) /\
     st_closed s = length pnls /\
     (st_pf s = PFInf <-> forall p, In p pnls -> ~ (p < 0)%Q) /\
     ((exists p, In p pnls /\ (p < 0)%Q) ->
        st_pf s = PFin (Py.sum wins / Qabs (Py.sum losses))%Q) /\
     (losses = [] -> st_pf s = PFInf)).
Proof.
  intros closed pnls wins losses. split.
  - intros Hempty. unfold print_stats. fold closed. rewrite Hempty. reflexivity.
  - intros Hne.
    destruct (print_stats_closed trades Hne) as (winrate & avg & Hprint).
    pose proof (pf_test_iff trades) as Htest.
    fold closed pnls wins losses in Hprint, Htest.
    eexists. split; [exact Hprint|]. simpl. split; [reflexivity|].
    destruct (bool_decide (losses <> []) && negb (Py.eq (Py.sum losses) 0)) eqn:El.
    + split; [|split].
      * split; [discriminate|]. intros Hall. apply Htest in Hall. discriminate.
      * reflexivity.
      * intros Hnil. rewrite Hnil in El. discriminate.
    + split; [|split].
      * split; [intros _; apply Htest; reflexivity|reflexivity].
      * intros (p & Hin & Hneg). exfalso.
        exact (proj1 Htest eq_refl p Hin Hneg).
      * reflexivity.
Qed.

(** Two closed shorts from 10, one closed at 9 and one at 12, quantity 2:
    the PnLs are 2 and -4 and the profit factor is 2 / 4. *)
Lemma print_stats_profit_factor_witness :
  exists s,
    print_stats [Ex.trade CLOSED 10 9 11 2 (Some 9%Q);
                 Ex.trade CLOSED 10 9 11 2 (Some 12%Q)] = Py.Return (StatsOf s) /\
    (st_pf s = PFin (Py.sum [(10 - 9) * 2] / Qabs (Py.sum [(10 - 12) * 2]))%Q).
Proof.
  destruct (print_stats_profit_factor
              [Ex.trade CLOSED 10 9 11 2 (Some 9%Q);
               Ex.trade CLOSED 10 9 11 2 (Some 12%Q)]) as [_ H].
  destruct H as (s & Hs & _ & _ & Hpf & _); [discriminate|].
  exists s. split; [exact Hs|].
  apply Hpf. exists ((10 - 12) * 2)%Q. split.
  - right. left. reflexivity.
  - apply PyFacts.lt_true. reflexivity.
Defined.

(** C7 as stated fails on a single trade closed at its entry price: its PnL
    is 0, no trade wins, and the profit factor reported is infinite. *)
Lemma print_stats_counterexample :
  print_stats [Ex.trade CLOSED 10 9 11 2 (Some 10%Q)]
  = Py.Return (StatsOf {| st_closed := 1; st_winrate := (0 / 1 * 100)%Q;
                          st_total := (0 + (10 - 10) * 2)%Q;
                          st_avg := ((0 + (10 - 10) * 2) / 1)%Q;
                          st_pf := PFInf |}) /\
  trade_pnl (Ex.trade CLOSED 10 9 11 2 (Some 10%Q)) = Some ((10 - 10) * 2)%Q /\
  ~ (0 < (10 - 10) * 2)%Q.
Proof.
  split; [reflexivity|]. split; [reflexivity|].
  intros H. apply PyFacts.lt_true in H. discriminate H.
Qed.

(** ** The candidate filter *)

Section Filter.

Variable cfg : BotConfig.
Variable t : Ticker.

Let last := safe_float (lastPrice t) 0.
Let high24 := safe_float (highPrice24h t) 0.
Let low24 := safe_float (lowPrice24h t) 0.
Let turnover := safe_float (turnover24h t) 0.
Let pump := ((last - low24) / low24 * 100)%Q.
Let near := (last / high24)%Q.

(** The candidate the filter returns when it returns one. *)
Let candidate : Candidate := {|
  c_symbol := symbol t;
  c_last := last;
  c_high24 := high24;
  c_low24 := low24;
  c_turnover := turnover;
  c_pump_from_low24_pct := pump;
  c_near_high := near;
  c_funding_rate := safe_float (fundingRate t) 0;
  c_next_funding_ms := Py.int (safe_float (nextFundingTime t) 0)
|}.


End Filter.

(** ** The watchlist *)

Section Watchlist.

Variable cfg : BotConfig.

(** Step 4 for a watched symbol with a closed candle: the entry is updated
    in place, then the trigger is decided. *)
Lemma stall_step_watched pub tick_map now_ts (sym : string) (b : Bot)
    (w : WatchEntry) (k : Kline) :
  watch (state b) !! sym = Some w ->
  get_last_closed_kline pub sym = Some k ->
  let high := safe_float (k_high k) 0 in
  let close := safe_float (k_close k) 0 in
  let w1 := update_watch_entry w high now_ts in
  let b1 := put_watch sym w1 b in
  let tinfo := default (entry_default_ticker close) (tick_map !! sym) in
  let entry := safe_float (ti_last tinfo) close in
  let tp_from_high := (w_local_high w1 * (1 - tp_from_high_pct cfg))%Q in
  stall_step cfg pub tick_map now_ts sym b =
    if bool_decide (w_stall w1 >= stall_candles cfg) && negb (w_blocked w) then
      if (entry <=? tp_from_high)%pyq then
        (Normal,
         push_event (SKIP_BELOW_TP now_ts sym entry tp_from_high (w_local_high w1))
           (put_watch sym (block_watch_entry w1) b1))
      else
        match make_trade cfg sym entry (w_local_high w1) now_ts tinfo with
        | Py.Raise e => (Raised e, b1)
        | Py.Return tr =>
          (Normal,
           pop_watch sym
             (push_event (TRIGGER now_ts sym (tr_entry tr) (tr_tp tr) (tr_sl tr)
                                  (tr_local_high tr) (tr_funding_rate_at_open tr))
                (set_cooldown sym now_ts (append_trade tr b1))))
        end
    else (Normal, b1).
Proof.
  intros Hw Hk. unfold stall_step. rewrite Hw, Hk. reflexivity.
Qed.

(** The candle update of an entry, case by case. *)
Lemma update_watch_entry_new_high (w : WatchEntry) (high : Q) (now_ts : Z) :
  (w_local_high w < high)%Q ->
  update_watch_entry w high now_ts =
    {| w_local_high := high; w_stall := 0; w_blocked := false;
       w_updated_ts := now_ts; w_created_ts := w_created_ts w |}.
Proof.
  intros H. unfold update_watch_entry.
  apply PyFacts.lt_true in H. rewrite H. reflexivity.
Qed.

Lemma update_watch_entry_stalled (w : WatchEntry) (high : Q) (now_ts : Z) :
  ~ (w_local_high w < high)%Q ->
  update_watch_entry w high now_ts =
    {| w_local_high := w_local_high w; w_stall := w_stall w + 1;
       w_blocked := w_blocked w;
       w_updated_ts := now_ts; w_created_ts := w_created_ts w |}.
Proof.
  intros H. unfold update_watch_entry.
  destruct (high >? w_local_high w)%pyq eqn:E; [py_cmp; contradiction|].
  reflexivity.
Qed.

Lemma update_watch_entry_local_high (w : WatchEntry) (high : Q) (now_ts : Z) :
  (w_local_high w <= w_local_high (update_watch_entry w high now_ts))%Q.
Proof.
  destruct (Qlt_le_dec (w_local_high w) high) as [Hlt|Hle].
  - rewrite (update_watch_entry_new_high _ _ _ Hlt). simpl.
    apply Qlt_le_weak, Hlt.
  - rewrite update_watch_entry_stalled by (intros H; q_absurd). simpl.
    apply Qle_refl.
Qed.

(** [xs[-n:]] of a list that ends with [x] ends with [x], for [n > 0]. *)
Lemma last_last_n {A} (n : nat) (xs : list A) (x : A) :
  (0 < n)%nat -> last (last_n n (xs ++ [x])) = Some x.
Proof.
  intros Hn. unfold last_n.
  rewrite last_lookup, length_drop, lookup_drop, length_app. simpl.
  replace (length xs + 1 - n + Nat.pred (length xs + 1 - (length xs + 1 - n)))%nat
    with (length xs + 0)%nat by lia.
  rewrite lookup_app_r by lia.
  replace (length xs + 0 - length xs)%nat with 0%nat by lia. reflexivity.
Qed.


End Watchlist.

Section WatchlistSteps.

Variable cfg : BotConfig.

(** Step 4 for [sym'] leaves the entries of the other symbols alone. *)
Lemma stall_step_watch_other pub tick_map now_ts (sym' sym : string) (b : Bot) :
  sym' <> sym ->
  watch (state (stall_step cfg pub tick_map now_ts sym' b).2) !! sym
  = watch (state b) !! sym.
Proof.
  intros Hne. unfold stall_step.
  repeat (case_match; simpl; try reflexivity);
    rewrite ?lookup_delete_ne, ?lookup_insert_ne by exact Hne; reflexivity.
Qed.

(** What step 4 for [sym] leaves in the watch map for [sym]: nothing, or an
    entry whose local high is not below the one before. *)
Lemma stall_step_local_high pub tick_map now_ts (sym' sym : string) (b : Bot)
    (w w2 : WatchEntry) :
  watch (state b) !! sym = Some w ->
  watch (state (stall_step cfg pub tick_map now_ts sym' b).2) !! sym = Some w2 ->
  (w_local_high w <= w_local_high w2)%Q.
Proof.
  intros Hw Hw2. destruct (decide (sym' = sym)) as [->|Hne].
  - destruct (get_last_closed_kline pub sym) as [k|] eqn:Hk.
    + rewrite (stall_step_watched cfg pub tick_map now_ts sym b w k Hw Hk) in Hw2.
      cbv zeta in Hw2.
      pose proof (update_watch_entry_local_high w (safe_float (k_high k) 0) now_ts) as Hm.
      repeat (case_match; simpl in Hw2);
        rewrite ?lookup_delete_eq, ?lookup_insert_eq in Hw2;
        try discriminate Hw2; injection Hw2 as <-; exact Hm.
    + unfold stall_step in Hw2. rewrite Hw, Hk in Hw2. simpl in Hw2.
      rewrite Hw in Hw2. injection Hw2 as <-. apply Qle_refl.
  - rewrite (stall_step_watch_other _ _ _ _ _ _ Hne), Hw in Hw2.
    injection Hw2 as <-. apply Qle_refl.
Qed.

(** A symbol that is not watched is passed over, and step 4 adds no entry. *)
Lemma stall_step_unwatched pub tick_map now_ts (sym : string) (b : Bot) :
  watch (state b) !! sym = None ->
  stall_step cfg pub tick_map now_ts sym b = (Normal, b).
Proof.
  intros H. unfold stall_step. rewrite H. reflexivity.
Qed.

Lemma stall_step_absent pub tick_map now_ts (sym' sym : string) (b : Bot) :
  watch (state b) !! sym = None ->
  watch (state (stall_step cfg pub tick_map now_ts sym' b).2) !! sym = None.
Proof.
  intros H. destruct (decide (sym' = sym)) as [->|Hne].
  - rewrite stall_step_unwatched by exact H. exact H.
  - rewrite stall_step_watch_other by exact Hne. exact H.
Qed.

Lemma stall_loop_absent pub tick_map now_ts (keys : list string) (sym : string)
    (b : Bot) :
  watch (state b) !! sym = None ->
  watch (state (stall_loop cfg pub tick_map now_ts keys b).2) !! sym = None.
Proof.
  revert b. induction keys as [|sym' keys IH]; intros b H; simpl; [exact H|].
  pose proof (stall_step_absent pub tick_map now_ts sym' sym b H) as Hs.
  destruct (stall_step cfg pub tick_map now_ts sym' b) as [[|e] b'];
    simpl in *; [apply IH|]; exact Hs.
Qed.

(** The local high of an entry does not decrease through the whole loop of
    step 4 either. *)
Lemma stall_loop_local_high pub tick_map now_ts (keys : list string) (sym : string)
    (b : Bot) (w w2 : WatchEntry) :
  watch (state b) !! sym = Some w ->
  watch (state (stall_loop cfg pub tick_map now_ts keys b).2) !! sym = Some w2 ->
  (w_local_high w <= w_local_high w2)%Q.
Proof.
  revert b w. induction keys as [|sym' keys IH]; intros b w Hw Hw2; simpl in Hw2.
  - rewrite Hw in Hw2. injection Hw2 as <-. apply Qle_refl.
  - pose proof (stall_step_local_high pub tick_map now_ts sym' sym b w) as Hstep.
    destruct (stall_step cfg pub tick_map now_ts sym' b) as [[|e] b']; simpl in *.
    + destruct (watch (state b') !! sym) as [w1|] eqn:Hw1.
      * apply Qle_trans with (w_local_high w1);
          [exact (Hstep w1 Hw eq_refl)|exact (IH b' w1 Hw1 Hw2)].
      * rewrite (stall_loop_absent _ _ _ _ _ _ Hw1) in Hw2. discriminate Hw2.
    + exact (Hstep w2 Hw Hw2).
Qed.

End WatchlistSteps.

Section Rising.

Variable cfg : BotConfig.

(** A new high on an entry that cannot trigger (the threshold is positive,
    or the entry was blocked): step 4 only updates the entry. *)
Lemma stall_step_new_high pub tick_map now_ts (sym : string) (b : Bot)
    (w : WatchEntry) (k : Kline) :
  watch (state b) !! sym = Some w ->
  get_last_closed_kline pub sym = Some k ->
  (w_local_high w < safe_float (k_high k) 0)%Q ->
  0 < stall_candles cfg \/ w_blocked w = true ->
  stall_step cfg pub tick_map now_ts sym b =
    (Normal, put_watch sym (update_watch_entry w (safe_float (k_high k) 0) now_ts) b).
Proof.
  intros Hw Hk Hhigh Hno.
  rewrite (stall_step_watched cfg pub tick_map now_ts sym b w k Hw Hk). cbv zeta.
  rewrite (update_watch_entry_new_high _ _ _ Hhigh). simpl.
  destruct Hno as [Hpos| ->].
  - rewrite bool_decide_eq_false_2 by lia. reflexivity.
  - rewrite andb_false_r. reflexivity.
Qed.

(** Candles with strictly increasing highs never let the entry trigger. *)
Lemma stall_steps_rising (sym : string) (cycles : list Cycle) (b : Bot) (w : WatchEntry) :
  0 < stall_candles cfg ->
  watch (state b) !! sym = Some w ->
  rising sym (w_local_high w) cycles ->
  exists b' w',
    stall_steps cfg sym cycles b = (Normal, b') /\
    trades b' = trades b /\
    last_events (state b') = last_events (state b) /\
    cooldowns (state b') = cooldowns (state b) /\
    watch (state b') !! sym = Some w' /\
    (cycles <> [] -> w_stall w' = 0 /\ w_blocked w' = false).
Proof.
  intros Hpos. revert b w.
  induction cycles as [|cy cycles IH]; intros b w Hw Hrise; simpl.
  - exists b, w. repeat split; try reflexivity; try assumption; congruence.
  - destruct Hrise as (k & Hk & Hhigh & Hrest).
    rewrite (stall_step_new_high _ _ _ sym b w k Hw Hk Hhigh (or_introl Hpos)).
    set (w1 := update_watch_entry w (safe_float (k_high k) 0) cy.2).
    assert (Hw1 : w1 = {| w_local_high := safe_float (k_high k) 0; w_stall := 0;
                          w_blocked := false; w_updated_ts := cy.2;
                          w_created_ts := w_created_ts w |})
      by (apply update_watch_entry_new_high; exact Hhigh).
    destruct (IH (put_watch sym w1 b) w1) as (b' & w' & Hrun & Htr & Hev & Hcd & Hw' & Hz).
    { simpl. apply lookup_insert_eq. }
    { rewrite Hw1. simpl. exact Hrest. }
    exists b', w'. rewrite Hrun.
    repeat split; try assumption.
    + destruct cycles; [|apply Hz; discriminate].
      simpl in Hrun. injection Hrun as <-. simpl in Hw'.
      rewrite lookup_insert_eq in Hw'. injection Hw' as <-. rewrite Hw1. reflexivity.
    + destruct cycles; [|apply Hz; discriminate].
      simpl in Hrun. injection Hrun as <-. simpl in Hw'.
      rewrite lookup_insert_eq in Hw'. injection Hw' as <-. rewrite Hw1. reflexivity.
Qed.

End Rising.

(** C5.  A watch entry processed with a closed candle of high [high]: when
    [high] is strictly above its local high, the local high becomes [high],
    the stall count 0 and blocked false; otherwise the stall count grows by
    exactly 1 and local high and blocked stay.  So the local high never
    decreases, in one update and through every pass of step 4 as long as
    the entry is watched; and candles with strictly increasing highs keep
    the stall count at 0 and open or skip nothing (for a positive stall
    threshold; the default is 2). *)
Theorem watch_entry_update (w : WatchEntry) (high : Q) (now_ts : Z) :
  let w' := update_watch_entry w high now_ts in
  ((w_local_high w < high)%Q ->
     w_local_high w' = high /\ w_stall w' = 0 /\ w_blocked w' = false) /\
  (~ (w_local_high w < high)%Q ->
     w_stall w' = w_stall w + 1 /\ w_local_high w' = w_local_high w /\
     w_blocked w' = w_blocked w) /\
  (w_local_high w <= w_local_high w')%Q /\
  (forall cfg pub tick_map now keys (sym : string) (b : Bot) (w2 : WatchEntry),
     watch (state b) !! sym = Some w ->
     watch (state (stall_loop cfg pub tick_map now keys b).2) !! sym = Some w2 ->
     (w_local_high w <= w_local_high w2)%Q) /\
  (forall cfg (sym : string) (cycles : list Cycle) (b : Bot),
     0 < stall_candles cfg ->
     watch (state b) !! sym = Some w ->
     rising sym (w_local_high w) cycles ->
     exists b' w2,
       stall_steps cfg sym cycles b = (Normal, b') /\
       trades b' = trades b /\
       last_events (state b') = last_events (state b) /\
       cooldowns (state b') = cooldowns (state b) /\
       watch (state b') !! sym = Some w2 /\
       (cycles <> [] -> w_stall w2 = 0 /\ w_blocked w2 = false)).
Proof.
  intros w'. subst w'. repeat apply conj.
  - intros H. rewrite (update_watch_entry_new_high _ _ _ H). auto.
  - intros H. rewrite (update_watch_entry_stalled _ _ _ H). auto.
  - apply update_watch_entry_local_high.
  - intros cfg pub tick_map now keys sym b w2.
    apply stall_loop_local_high.
  - intros cfg sym cycles b. apply stall_steps_rising.
Qed.

Section Trigger.

Variable cfg : BotConfig.
Variable pub : HTTP.
Variable tick_map : gmap string TickInfo.
Variable now_ts : Z.


(** [make_trade] returns for an entry price that is not 0. *)
Lemma make_trade_returns (sym : string) (entry local_high : Q) (ticker : TickInfo) :
  ~ (entry == 0)%Q ->
  make_trade cfg sym entry local_high now_ts ticker = Py.Return {|
    tr_id := sym +:+ ":" +:+ pretty now_ts;
    tr_symbol := sym;
    tr_status := OPEN;
    tr_created_ts := now_ts;
    tr_open_ts := now_ts;
    tr_side := SHORT;
    tr_notional_usdt := notional_usdt cfg;
    tr_qty := (notional_usdt cfg / entry)%Q;
    tr_entry := entry;
    tr_tp := (local_high * (1 - tp_from_high_pct cfg))%Q;
    tr_sl := (entry * sl_mult cfg)%Q;
    tr_local_high := local_high;
    tr_funding_rate_at_open := safe_float (ti_funding_rate ticker) 0;
    tr_next_funding_ms_at_open :=
      Py.int (safe_float (inject_Z <$> ti_next_funding_ms ticker) 0);
    tr_close_ts := None;
    tr_close_reason := None;
    tr_close_price := None
  |}.
Proof.
  intros H. unfold make_trade, mbind, res_bind.
  rewrite (PyFacts.div_nonzero _ _ H). reflexivity.
Qed.

(** ... and raises for the entry price 0. *)
Lemma make_trade_raises (sym : string) (entry local_high : Q) (ticker : TickInfo) :
  (entry == 0)%Q ->
  make_trade cfg sym entry local_high now_ts ticker = Py.Raise Py.ZeroDivisionError.
Proof.
  intros H. unfold make_trade, mbind, res_bind.
  rewrite (PyFacts.div_zero _ _ H). reflexivity.
Qed.


End Trigger.


(** An entry stalled twice at 12 sees a candle that tops at 13. *)
Lemma watch_entry_update_witness :
  w_local_high (update_watch_entry (Ex.entry 12 2 true) 13 5) = 13%Q /\
  w_stall (update_watch_entry (Ex.entry 12 2 true) 13 5) = 0 /\
  w_blocked (update_watch_entry (Ex.entry 12 2 true) 13 5) = false.
Proof.
  apply (proj1 (watch_entry_update (Ex.entry 12 2 true) 13 5)).
  reflexivity.
Defined.


(** ** The code on sample inputs *)

(** A short from 100 closed at 90 with quantity 1 earns 10; closed at 110 it
    loses 10. *)
Example trade_pnl_win :
  trade_pnl (Ex.trade CLOSED 100 70 200 1 (Some 90%Q)) = Some ((100 - 90) * 1)%Q.
Proof. reflexivity. Qed.

Example trade_pnl_loss :
  trade_pnl (Ex.trade CLOSED 100 70 200 1 (Some 110%Q)) = Some ((100 - 110) * 1)%Q.
Proof. reflexivity. Qed.

Example trade_pnl_open : trade_pnl (Ex.trade OPEN 100 70 200 1 None) = None.
Proof. reflexivity. Qed.

(** With the funding rate -0.01 on a notional of 20, the guard does not fire
    at mark 9.5 (remaining profit 0.5), and fires at 9.1 (0.1). *)
Example funding_guard_far_from_tp :
  funding_guard CFG (Ex.trade OPEN 10 9 11 1 None) (Ex.ticker (95 # 10) (-1 # 100)) (95 # 10)
  = false.
Proof. reflexivity. Qed.

(** The funding guard goes first: at mark 9.1 the trade is closed at the mark
    price although the candle reaches the stop-loss. *)
Example funding_guard_before_sl :
  update_trade CFG (Ex.session (Ex.kline 12 8 10)) (Ex.tick_map (91 # 10)) 5
    (Ex.trade OPEN 10 9 11 1 None)
  = close_trade (Ex.trade OPEN 10 9 11 1 None) 5 FUNDING_GUARD (91 # 10).
Proof. reflexivity. Qed.

(** A row whose last price does not parse is dropped; so is one that is
    not quoted in USDT. *)
Example unparsable_last_price :
  candidate_from_ticker CFG (Ex.row_bad_last "XUSDT" 11 5 6000000) = Py.Return None.
Proof. reflexivity. Qed.

Example other_quote :
  candidate_from_ticker CFG (Ex.row "XUSDC" 10 11 5 6000000) = Py.Return None.
Proof. reflexivity. Qed.

(** A trade cannot be made at the price 0. *)
Example make_trade_at_zero :
  make_trade CFG "XUSDT" 0 (-1) 5 (Ex.ticker 0 0) = Py.Raise Py.ZeroDivisionError.
Proof. reflexivity. Qed.

(** An entry at 12 that sees the highs 13, 14 and 15 ends with stall count 0
    and local high 15, and nothing was opened. *)
Example three_rising_candles :
  stall_steps CFG "XUSDT"
    [(Ex.session (Ex.kline 13 8 10), Ex.tick_map 10, 5);
     (Ex.session (Ex.kline 14 8 10), Ex.tick_map 10, 6);
     (Ex.session (Ex.kline 15 8 10), Ex.tick_map 10, 7)]
    (Ex.bot (Ex.entry 12 1 false))
  = (Normal,
     put_watch "XUSDT"
       {| w_local_high := 15; w_stall := 0; w_blocked := false;
          w_updated_ts := 7; w_created_ts := 1 |}
       (Ex.bot (Ex.entry 12 1 false))).
Proof. vm_compute. reflexivity. Qed.

(* ===================================================================== *)
(** * Properties of the binary64 model *)
(* ===================================================================== *)

(** ** Binary64 numbers *)

Module SFFacts.

(** Rounding keeps the sign it is given. *)
Lemma binary_round_aux_signed (s : bool) (m e : Z) (l : location) :
  F64.signed s (binary_round_aux prec emax s m e l).
Proof.
  unfold binary_round_aux.
  destruct (shr_fexp prec emax m e l) as [mrs' e'].
  destruct (shr_fexp prec emax _ e' loc_Exact) as [mrs'' e''].
  destruct (shr_m mrs''); [constructor| |constructor].
  destruct (Z.leb _ _); constructor.
Qed.

Lemma binary_round_signed (s : bool) (m : positive) (e : Z) :
  F64.signed s (binary_round prec emax s m e).
Proof.
  unfold binary_round. destruct (shl_align _ _ _). apply binary_round_aux_signed.
Qed.

(** Nothing of negative sign, and no NaN, is above zero. *)
Lemma signed_not_pos (x : spec_float) :
  F64.signed true x -> SFltb (S754_zero false) x = false.
Proof. intros []; reflexivity. Qed.

Lemma signed_not_neg (x : spec_float) :
  F64.signed false x -> SFltb x (S754_zero false) = false.
Proof. intros []; reflexivity. Qed.

(** A sum or difference of mantissas that is not positive rounds to nothing
    positive. *)
Lemma binary_normalize_not_pos (m e : Z) :
  m <= 0 -> SFltb (S754_zero false) (binary_normalize prec emax m e false) = false.
Proof.
  intros Hm. destruct m as [|p|p]; simpl; [reflexivity|lia|].
  apply signed_not_pos, binary_round_signed.
Qed.

(** [digits2_pos] counts the binary digits. *)
Lemma digits2_pos_bounds (m : positive) :
  2 ^ (Z.pos (digits2_pos m) - 1) <= Z.pos m < 2 ^ Z.pos (digits2_pos m).
Proof.
  assert (Hstep : forall d : Z, 0 < d ->
            2 ^ Z.succ d = 2 * 2 ^ d /\ 2 ^ (Z.succ d - 1) = 2 * 2 ^ (d - 1)).
  { intros d Hd. split; [apply Z.pow_succ_r; lia|].
    rewrite <- Z.pow_succ_r by lia. f_equal. lia. }
  induction m as [m IH|m IH|]; simpl digits2_pos.
  - rewrite Pos2Z.inj_succ, (Pos2Z.inj_xI m).
    destruct (Hstep (Z.pos (digits2_pos m)) ltac:(lia)) as [E1 E2].
    rewrite E2, E1. lia.
  - rewrite Pos2Z.inj_succ, (Pos2Z.inj_xO m).
    destruct (Hstep (Z.pos (digits2_pos m)) ltac:(lia)) as [E1 E2].
    rewrite E2, E1. lia.
  - simpl. lia.
Qed.

(** The mantissa of a binary64 number has at most 53 digits, and exactly 53
    above the least exponent. *)
Lemma bounded_digits (m : positive) (e : Z) :
  bounded prec emax m e = true ->
  emin <= e /\ Z.pos m < 2 ^ 53 /\ (emin < e -> 2 ^ 52 <= Z.pos m).
Proof.
  unfold bounded, canonical_mantissa, fexp, emin, SpecFloat.emin, prec, emax.
  intros H. apply andb_true_iff in H. destruct H as [H _].
  apply Z.eqb_eq in H.
  pose proof (digits2_pos_bounds m) as [Hlo Hhi].
  split; [lia|]. split.
  - eapply Z.lt_le_trans; [exact Hhi|]. apply Z.pow_le_mono_r; lia.
  - intros He.
    assert (Hd : Z.pos (digits2_pos m) = 53) by lia.
    rewrite Hd in Hlo. exact Hlo.
Qed.

(** A mantissa aligned to a lower exponent. *)
Lemma shl_align_value (m : positive) (e e' : Z) :
  e' <= e -> Z.pos (fst (shl_align m e e')) = Z.pos m * 2 ^ (e - e').
Proof.
  intros Hle. unfold shl_align.
  destruct (e' - e) as [|d|d] eqn:Hd; simpl.
  - replace (e - e') with 0 by lia. lia.
  - lia.
  - replace (e - e') with (Z.pos d) by lia.
    change (Pos.iter xO m d) with (shift_pos d m).
    rewrite shift_pos_correct.
    change (Zpower_pos 2 d) with (2 ^ Z.pos d). lia.
Qed.

(** Of two binary64 numbers of the same sign, the one of lower exponent has
    the smaller magnitude. *)
Lemma lower_exponent (m1 m2 : positive) (e1 e2 : Z) :
  bounded prec emax m1 e1 = true -> bounded prec emax m2 e2 = true ->
  e1 < e2 ->
  Z.pos m1 * 2 ^ (e1 - Z.min e1 e2) < Z.pos m2 * 2 ^ (e2 - Z.min e1 e2).
Proof.
  intros H1 H2 Hlt.
  destruct (bounded_digits m1 e1 H1) as (Hmin1 & Hhi1 & _).
  destruct (bounded_digits m2 e2 H2) as (_ & _ & Hlo2).
  specialize (Hlo2 ltac:(lia)).
  rewrite Z.min_l by lia. replace (e1 - e1) with 0 by lia.
  rewrite Z.pow_0_r, Z.mul_1_r.
  assert (Hpow : 2 ^ 1 <= 2 ^ (e2 - e1)) by (apply Z.pow_le_mono_r; lia).
  change (2 ^ 1) with 2 in Hpow.
  assert (H53 : (2 ^ 53 = 2 ^ 52 * 2)%Z) by reflexivity.
  nia.
Qed.

(** The order of two binary64 numbers is the order of their difference with
    zero. *)
Lemma SFsub_not_pos (x y : spec_float) :
  valid_binary x = true -> valid_binary y = true ->
  SFleb x y = true ->
  SFltb (S754_zero false) (SF64sub x y) = false.
Proof.
  intros Hx Hy Hle.
  destruct x as [sx|sx| |sx mx ex], y as [sy|sy| |sy my ey];
    try discriminate Hle;
    try (destruct sx, sy; try discriminate Hle; reflexivity);
    try (destruct sx; try discriminate Hle; reflexivity);
    try (destruct sy; try discriminate Hle; reflexivity).
  unfold SF64sub, SFsub.
  apply binary_normalize_not_pos.
  simpl in Hx, Hy.
  rewrite !shl_align_value by lia.
  unfold SFleb, SFcompare in Hle.
  assert (Hp1 : 0 < Z.pos mx * 2 ^ (ex - Z.min ex ey))
    by (apply Z.mul_pos_pos; [lia|apply Z.pow_pos_nonneg; lia]).
  assert (Hp2 : 0 < Z.pos my * 2 ^ (ey - Z.min ex ey))
    by (apply Z.mul_pos_pos; [lia|apply Z.pow_pos_nonneg; lia]).
  destruct sx, sy; simpl cond_Zopp; try discriminate Hle; try lia.
  - (* both negative *)
    destruct (Z.compare_spec ex ey) as [Heq|Hlt|Hgt]; try discriminate Hle.
    + subst ey. rewrite Z.min_id, Z.sub_diag, Z.pow_0_r, !Z.mul_1_r.
      change (Pos.compare_cont Eq mx my) with (Pos.compare mx my) in Hle.
      destruct (Pos.compare_spec mx my); simpl in Hle; try discriminate Hle; lia.
    + pose proof (lower_exponent my mx ey ex Hy Hx ltac:(lia)) as Hlow.
      rewrite (Z.min_comm ey ex) in Hlow. lia.
  - (* both positive *)
    destruct (Z.compare_spec ex ey) as [Heq|Hlt|Hgt]; try discriminate Hle.
    + subst ey. rewrite Z.min_id, Z.sub_diag, Z.pow_0_r, !Z.mul_1_r.
      change (Pos.compare_cont Eq mx my) with (Pos.compare mx my) in Hle.
      destruct (Pos.compare_spec mx my); simpl in Hle; try discriminate Hle; lia.
    + pose proof (lower_exponent mx my ex ey Hx Hy Hlt) as Hlow. lia.
Qed.

(** The product of a number that is not positive and one that is not
    negative is not positive. *)
Lemma SFmul_not_pos (d q : spec_float) :
  SFltb (S754_zero false) d = false ->
  SFleb (S754_zero false) q = true ->
  SFltb (S754_zero false) (SF64mul d q) = false.
Proof.
  intros Hd Hq.
  destruct d as [sd|sd| |sd md ed], q as [sq|sq| |sq mq eq];
    try discriminate Hq; try reflexivity;
    try (destruct sd, sq; try discriminate Hd; try discriminate Hq; reflexivity).
  destruct sd, sq; try discriminate Hd; try discriminate Hq.
  unfold SF64mul, SFmul. apply signed_not_pos. apply binary_round_aux_signed.
Qed.

(** Comparing the other way round. *)
Lemma SFcompare_swap (x y : spec_float) :
  SFcompare y x = option_map CompOpp (SFcompare x y).
Proof.
  destruct x as [sx|sx| |sx mx ex], y as [sy|sy| |sy my ey]; simpl;
    try reflexivity;
    try (destruct sx, sy; reflexivity);
    try (destruct sx; reflexivity);
    try (destruct sy; reflexivity).
  destruct sx, sy; try reflexivity;
    rewrite (Z.compare_antisym ex ey);
    destruct (ex ?= ey) eqn:E; simpl; try reflexivity;
    change (Pos.compare_cont Eq my mx) with (Pos.compare my mx);
    change (Pos.compare_cont Eq mx my) with (Pos.compare mx my);
    rewrite (Pos.compare_antisym mx my); destruct (Pos.compare mx my); reflexivity.
Qed.

(** Only a NaN is not comparable. *)
Lemma SFcompare_none (x y : spec_float) :
  SFcompare x y = None -> x = S754_nan \/ y = S754_nan.
Proof.
  destruct x as [sx|sx| |sx mx ex], y as [sy|sy| |sy my ey]; simpl; auto;
    try discriminate;
    try (destruct sx; discriminate); try (destruct sy; discriminate).
Qed.

End SFFacts.

(** ** Python floats *)

Module F64Facts.

Import F64.

(** A comparison of floats is the comparison of the binary64 numbers they
    stand for. *)
Ltac to_spec :=
  unfold number, is_nan in *;
  rewrite ?FloatAxioms.leb_spec, ?FloatAxioms.ltb_spec, ?FloatAxioms.eqb_spec in *;
  unfold SFleb, SFltb, SFeqb in *.

Lemma SFcompare_refl (x : spec_float) :
  SFcompare x x = if SFeqb x x then Some Eq else None.
Proof.
  unfold SFeqb.
  destruct x as [s|s| |s m e]; simpl; try reflexivity; try (destruct s; reflexivity).
  destruct s; rewrite Z.compare_refl;
    change (Pos.compare_cont Eq m m) with (Pos.compare m m);
    rewrite Pos.compare_refl; reflexivity.
Qed.

Lemma is_nan_spec (x : float) : is_nan x = true <-> Prim2SF x = S754_nan.
Proof.
  unfold is_nan. rewrite FloatAxioms.eqb_spec. unfold SFeqb.
  rewrite SFcompare_refl. unfold SFeqb.
  destruct (Prim2SF x) as [s|s| |s m e]; simpl;
    try (split; [discriminate|discriminate]);
    try (destruct s; split; discriminate); try tauto.
  destruct s; rewrite Z.compare_refl;
    change (Pos.compare_cont Eq m m) with (Pos.compare m m);
    rewrite Pos.compare_refl; split; discriminate.
Qed.

Lemma number_spec (x : float) : number x <-> Prim2SF x <> S754_nan.
Proof.
  unfold number. rewrite <- is_nan_spec. destruct (is_nan x); split; congruence.
Qed.

(** A comparison with a NaN answers false. *)
Lemma nan_compare (x y : float) :
  is_nan x = true \/ is_nan y = true ->
  (x <=? y)%float = false /\ (x <? y)%float = false /\ (x =? y)%float = false.
Proof.
  rewrite !is_nan_spec. to_spec.
  intros [H|H]; rewrite H; [|destruct (Prim2SF x)]; simpl; auto.
Qed.

(** A comparison that answers true is between numbers. *)
Lemma leb_true (x y : float) :
  (x <=? y)%float = true -> (y <? x)%float = false /\ number x /\ number y.
Proof.
  rewrite !number_spec. to_spec. rewrite (SFFacts.SFcompare_swap (Prim2SF x)).
  destruct (SFcompare (Prim2SF x) (Prim2SF y)) as [[]|] eqn:E; try discriminate;
    intros _; (split; [reflexivity|]);
    split; intros Hn; rewrite Hn in E;
    destruct (Prim2SF _) as [s|s| |s m e]; discriminate E.
Qed.

Lemma ltb_true (x y : float) :
  (x <? y)%float = true ->
  (x <=? y)%float = true /\ (y <=? x)%float = false /\ (y <? x)%float = false /\
  (x =? y)%float = false /\ number x /\ number y.
Proof.
  rewrite !number_spec. to_spec. rewrite (SFFacts.SFcompare_swap (Prim2SF x)).
  destruct (SFcompare (Prim2SF x) (Prim2SF y)) as [[]|] eqn:E; try discriminate;
    intros _; repeat (split; [reflexivity|]);
    split; intros Hn; rewrite Hn in E;
    destruct (Prim2SF _) as [s|s| |s m e]; discriminate E.
Qed.

(** A comparison of numbers that answers false: the other one is true. *)
Lemma leb_false (x y : float) :
  (x <=? y)%float = false ->
  (y <? x)%float = true \/ is_nan x = true \/ is_nan y = true.
Proof.
  rewrite !is_nan_spec. to_spec. rewrite (SFFacts.SFcompare_swap (Prim2SF x)).
  destruct (SFcompare (Prim2SF x) (Prim2SF y)) as [[]|] eqn:E; try discriminate;
    intros _; [left; reflexivity|right].
  apply SFFacts.SFcompare_none, E.
Qed.

Lemma ltb_false (x y : float) :
  (x <? y)%float = false ->
  (y <=? x)%float = true \/ is_nan x = true \/ is_nan y = true.
Proof.
  rewrite !is_nan_spec. to_spec. rewrite (SFFacts.SFcompare_swap (Prim2SF x)).
  destruct (SFcompare (Prim2SF x) (Prim2SF y)) as [[]|] eqn:E; try discriminate;
    intros _; try (left; reflexivity). right.
  apply SFFacts.SFcompare_none, E.
Qed.

Lemma eqb_true (x y : float) :
  (x =? y)%float = true ->
  (x <=? y)%float = true /\ (y <=? x)%float = true /\
  (x <? y)%float = false /\ (y <? x)%float = false.
Proof.
  to_spec. rewrite (SFFacts.SFcompare_swap (Prim2SF x)).
  destruct (SFcompare (Prim2SF x) (Prim2SF y)) as [[]|]; try discriminate; auto.
Qed.

(** A NaN goes through the arithmetic. *)
Lemma mul_nan (x y : float) :
  is_nan x = true \/ is_nan y = true -> is_nan (x * y)%float = true.
Proof.
  rewrite !is_nan_spec, FloatAxioms.mul_spec. intros [H|H]; rewrite H;
    [reflexivity|]. destruct (Prim2SF x); reflexivity.
Qed.

Lemma abs_nan (x : float) : is_nan x = true -> is_nan (abs x) = true.
Proof.
  rewrite !is_nan_spec, FloatAxioms.abs_spec. intros ->. reflexivity.
Qed.

(** [x <= y] leaves nothing positive for [x - y]. *)
Lemma sub_not_pos (x y : float) :
  (x <=? y)%float = true -> (0 <? x - y)%float = false.
Proof.
  rewrite FloatAxioms.leb_spec, FloatAxioms.ltb_spec, FloatAxioms.sub_spec.
  apply SFFacts.SFsub_not_pos; apply FloatAxioms.Prim2SF_valid.
Qed.

(** Nothing positive times something that is not negative is not
    positive. *)
Lemma mul_not_pos (d q : float) :
  (0 <? d)%float = false -> (0 <=? q)%float = true -> (0 <? d * q)%float = false.
Proof.
  rewrite FloatAxioms.leb_spec, !FloatAxioms.ltb_spec, FloatAxioms.mul_spec.
  apply SFFacts.SFmul_not_pos.
Qed.

End F64Facts.

(** ** The funding guard on floats *)

Section Binary64Guard.

Import F64.

Variable cfg : BotConfig.

(** The guard, decision by decision, on the remaining profit the code
    computes. *)
Lemma f64_funding_guard_true_iff (tr : Trade) (ticker : TickInfo) (mark : float) :
  funding_guard cfg tr ticker mark = true <->
  enable_funding_guard cfg = true /\
  (0 <=? safe_float (ti_funding_rate ticker) 0)%float = false /\
  (remaining_profit_to_tp tr mark <=? 0)%float = false /\
  (remaining_profit_to_tp tr mark * funding_guard_ratio cfg
   <=? abs (tr_notional_usdt tr * safe_float (ti_funding_rate ticker) 0))%float = true.
Proof.
  unfold funding_guard, funding_pnl_short.
  destruct (enable_funding_guard cfg); simpl; [|intuition discriminate].
  destruct (0 <=? safe_float (ti_funding_rate ticker) 0)%float;
    [intuition discriminate|].
  destruct (remaining_profit_to_tp tr mark <=? 0)%float;
    [intuition discriminate|].
  intuition.
Qed.

(** With a quantity that is not negative, [max(0, (mark - tp) * qty)] is
    positive exactly when the remaining profit of the code is, and is then
    the same float. *)
Lemma f64_remaining_spec_agree (tr : Trade) (mark : float) :
  (0 <=? tr_qty tr)%float = true ->
  (0 <? spec_remaining tr mark)%float = (0 <? remaining_profit_to_tp tr mark)%float /\
  ((0 <? remaining_profit_to_tp tr mark)%float = true ->
     spec_remaining tr mark = remaining_profit_to_tp tr mark).
Proof.
  intros Hq. unfold spec_remaining, remaining_profit_to_tp, max.
  destruct (mark <=? tr_tp tr)%float eqn:Hle.
  - assert (Hp : (0 <? (mark - tr_tp tr) * tr_qty tr)%float = false)
      by (apply F64Facts.mul_not_pos; [apply F64Facts.sub_not_pos; exact Hle|exact Hq]).
    rewrite Hp. split; [reflexivity|]. intros H. discriminate H.
  - destruct (0 <? (mark - tr_tp tr) * tr_qty tr)%float eqn:Hp.
    + rewrite Hp. auto.
    + split; [reflexivity|]. intros H. discriminate H.
Qed.

(** C2.  For a trade whose quantity is not negative, the guard answers true
    exactly when it is enabled, the funding rate of the ticker is strictly
    negative, the remaining profit to target
    [remaining = max(0, (mark - tp) * qty)] is strictly positive and
    [abs(notional * rate) >= remaining * funding_guard_ratio], every
    operation being the one of Python's floats.  So it answers false when
    the guard is disabled, when [rate >= 0] and when [remaining] is 0; and
    with rate = -0.01, notional = 20 and ratio = 1.0 it answers true for
    remaining = 0.1 and false for remaining = 0.5. *)
Theorem funding_guard_decision (tr : Trade) (ticker : TickInfo) (mark : float) :
  (0 <=? tr_qty tr)%float = true ->
  let rate := safe_float (ti_funding_rate ticker) 0 in
  let remaining := max 0 ((mark - tr_tp tr) * tr_qty tr)%float in
  let guard := funding_guard cfg tr ticker mark in
  (guard = true <->
     enable_funding_guard cfg = true /\
     (rate <? 0)%float = true /\
     (0 <? remaining)%float = true /\
     (remaining * funding_guard_ratio cfg
      <=? abs (tr_notional_usdt tr * rate))%float = true) /\
  (enable_funding_guard cfg = false -> guard = false) /\
  ((0 <=? rate)%float = true -> guard = false) /\
  ((remaining =? 0)%float = true -> guard = false) /\
  (enable_funding_guard cfg = true ->
   rate = (-0.01)%float -> tr_notional_usdt tr = 20.0%float ->
   funding_guard_ratio cfg = 1.0%float ->
     (remaining = 0.1%float -> guard = true) /\
     (remaining = 0.5%float -> guard = false)).
Proof.
  intros Hq rate remaining guard.
  pose proof (f64_funding_guard_true_iff tr ticker mark) as Hcode.
  destruct (f64_remaining_spec_agree tr mark Hq) as [Hpos Hsame].
  fold rate guard in Hcode. change (spec_remaining tr mark) with remaining in Hpos, Hsame.
  set (rem := remaining_profit_to_tp tr mark) in *.
  assert (Hiff : guard = true <->
            enable_funding_guard cfg = true /\
            (rate <? 0)%float = true /\
            (0 <? remaining)%float = true /\
            (remaining * funding_guard_ratio cfg
             <=? abs (tr_notional_usdt tr * rate))%float = true).
  { rewrite Hcode. split.
    - intros (Hon & Hrate & Hrem & Hge). split; [exact Hon|].
      destruct (F64Facts.leb_true _ _ Hge) as (_ & Hn1 & Hn2).
      assert (Hr : (rate <? 0)%float = true).
      { destruct (F64Facts.leb_false _ _ Hrate) as [H|[H|H]];
          [exact H|discriminate H|].
        exfalso. unfold number in Hn2.
        rewrite F64Facts.abs_nan in Hn2; [discriminate Hn2|].
        apply F64Facts.mul_nan. right. exact H. }
      assert (Hp : (0 <? rem)%float = true).
      { destruct (F64Facts.leb_false _ _ Hrem) as [H|[H|H]];
          [exact H| |discriminate H].
        exfalso. unfold number in Hn1.
        rewrite F64Facts.mul_nan in Hn1; [discriminate Hn1|]. left. exact H. }
      split; [exact Hr|]. rewrite Hpos, (Hsame Hp). auto.
    - intros (Hon & Hrate & Hrem & Hge). split; [exact Hon|].
      rewrite Hpos in Hrem. rewrite (Hsame Hrem) in Hge.
      destruct (F64Facts.ltb_true _ _ Hrate) as (_ & H1 & _).
      destruct (F64Facts.ltb_true _ _ Hrem) as (_ & H2 & _).
      auto. }
  assert (Hfalse : forall P : Prop, (guard = true -> P) -> ~ P -> guard = false).
  { intros P HP Hno. destruct guard; [|reflexivity]. exfalso. apply Hno, HP. reflexivity. }
  split; [exact Hiff|]. split.
  { intros Hoff. apply (Hfalse _ (proj1 Hiff)). intros (Hon & _). congruence. }
  split.
  { intros Hr. apply (Hfalse _ (proj1 Hiff)). intros (_ & Hneg & _).
    destruct (F64Facts.ltb_true _ _ Hneg) as (_ & H & _). congruence. }
  split.
  { intros Hz. apply (Hfalse _ (proj1 Hiff)). intros (_ & _ & Hp & _).
    destruct (F64Facts.eqb_true _ _ Hz) as (_ & _ & _ & H). congruence. }
  intros Hon Hrate Hnot Hratio. split.
  - intros Hrem. apply Hiff. rewrite Hrate, Hnot, Hratio, Hrem.
    split; [exact Hon|]. repeat split.
  - intros Hrem. apply (Hfalse _ (proj1 Hiff)). intros (_ & _ & _ & Hge).
    rewrite Hrate, Hnot, Hratio, Hrem in Hge. discriminate Hge.
Qed.

End Binary64Guard.

(** A short of quantity 2 with tp = 9 and notional 20, funding rate -0.01:
    at mark 9.05 the remaining profit is covered by the funding cost of 0.2
    and the guard fires. *)
Lemma funding_guard_decision_witness :
  F64.funding_guard F64.CFG (F64.Ex.trade 10 9 11 2) (F64.Ex.ticker 9.05 (-0.01)) 9.05
  = true.
Proof.
  destruct (funding_guard_decision F64.CFG (F64.Ex.trade 10 9 11 2)
              (F64.Ex.ticker 9.05 (-0.01)) 9.05 eq_refl) as [Hiff _].
  apply Hiff. repeat split; vm_compute; reflexivity.
Defined.

(** The remaining profit is a rounded float: for tp = 2 and mark = 2.2 and a
    quantity of 1 it is a little more than 0.2, which the funding cost of
    0.2 does not cover. *)
Example funding_guard_rounded :
  F64.remaining_profit_to_tp (F64.Ex.trade 10 2 11 1) 2.2 = 0.20000000000000018%float /\
  F64.funding_guard F64.CFG (F64.Ex.trade 10 2 11 1) (F64.Ex.ticker 2.2 (-0.01)) 2.2
  = false.
Proof. split; reflexivity. Qed.

(** ** The trigger test of step 4 on floats *)

Section Binary64Stall.

Import F64.

Variable cfg : BotConfig.

(** Step 4 for a watched symbol with a closed candle: the entry is updated
    in place, then the trigger is decided. *)
Lemma f64_stall_step_watched pub tick_map now_ts (sym : string) (b : Bot)
    (w : WatchEntry) (k : Kline) :
  watch (state b) !! sym = Some w ->
  get_last_closed_kline pub sym = Some k ->
  let high := safe_float (k_high k) 0 in
  let close := safe_float (k_close k) 0 in
  let w1 := update_watch_entry w high now_ts in
  let b1 := put_watch sym w1 b in
  let tinfo := default (entry_default_ticker close) (tick_map !! sym) in
  let entry := safe_float (ti_last tinfo) close in
  let tp_from_high := (w_local_high w1 * (1.0 - tp_from_high_pct cfg))%float in
  stall_step cfg pub tick_map now_ts sym b =
    if bool_decide (w_stall w1 >= stall_candles cfg) && negb (w_blocked w) then
      if (entry <=? tp_from_high)%float then
        (Normal,
         push_event (SKIP_BELOW_TP now_ts sym entry tp_from_high (w_local_high w1))
           (put_watch sym (block_watch_entry w1) b1))
      else
        match make_trade cfg sym entry (w_local_high w1) now_ts tinfo with
        | Raise e => (Raised e, b1)
        | Return tr =>
          (Normal,
           pop_watch sym
             (push_event (TRIGGER now_ts sym (tr_entry tr) (tr_tp tr) (tr_sl tr)
                                  (tr_local_high tr) (tr_funding_rate_at_open tr))
                (set_cooldown sym now_ts (append_trade tr b1))))
        end
    else (Normal, b1).
Proof.
  intros Hw Hk. unfold stall_step. rewrite Hw, Hk. reflexivity.
Qed.

(** The candle update of an entry on a new high. *)
Lemma f64_update_watch_entry_new_high (w : WatchEntry) (high : float) (now_ts : Z) :
  (w_local_high w <? high)%float = true ->
  update_watch_entry w high now_ts =
    {| w_local_high := high; w_stall := 0; w_blocked := false;
       w_updated_ts := now_ts; w_created_ts := w_created_ts w |}.
Proof.
  intros H. unfold update_watch_entry. rewrite H. reflexivity.
Qed.

(** C4.  A watched symbol whose stall count has reached the threshold, which
    is not blocked, and whose prospective entry price is at or below the
    take-profit level [local_high * (1 - tp_from_high_pct)], the float the
    code computes and compares with: no trade is opened, the entry stays in
    the watchlist with blocked set, and a SKIP_BELOW_TP event is the last of
    the recorded events.  In any later cycle, a candle whose high exceeds
    the local high of the blocked entry resets it to unblocked with stall
    count 0 (and opens nothing). *)
Theorem stall_step_skip_below_tp (pub : HTTP) (tick_map : gmap string TickInfo)
    (now_ts : Z) (sym : string) (b : Bot) (w : WatchEntry) (k : Kline) :
  watch (state b) !! sym = Some w ->
  get_last_closed_kline pub sym = Some k ->
  let high := safe_float (k_high k) 0 in
  let close := safe_float (k_close k) 0 in
  let w1 := update_watch_entry w high now_ts in
  let tinfo := default (entry_default_ticker close) (tick_map !! sym) in
  let entry := safe_float (ti_last tinfo) close in
  let tp_from_high := (w_local_high w1 * (1.0 - tp_from_high_pct cfg))%float in
  w_stall w1 >= stall_candles cfg ->
  w_blocked w = false ->
  (entry <=? tp_from_high)%float = true ->
  let r := stall_step cfg pub tick_map now_ts sym b in
  let ev := SKIP_BELOW_TP now_ts sym entry tp_from_high (w_local_high w1) in
  r.1 = Normal /\
  trades r.2 = trades b /\
  cooldowns (state r.2) = cooldowns (state b) /\
  (exists w', watch (state r.2) !! sym = Some w' /\
              w_blocked w' = true /\
              w_local_high w' = w_local_high w1 /\
              w_stall w' = w_stall w1 /\
              w_created_ts w' = w_created_ts w /\
              w_updated_ts w' = now_ts) /\
  last_events (state r.2) = last_n 500 (last_events (state b) ++ [ev]) /\
  last (last_events (state r.2)) = Some ev /\
  (forall pub2 tick_map2 now2 (b2 : Bot) (w2 : WatchEntry) (k2 : Kline),
     watch (state b2) !! sym = Some w2 ->
     w_blocked w2 = true ->
     get_last_closed_kline pub2 sym = Some k2 ->
     (w_local_high w2 <? safe_float (k_high k2) 0)%float = true ->
     let r2 := stall_step cfg pub2 tick_map2 now2 sym b2 in
     r2.1 = Normal /\
     trades r2.2 = trades b2 /\
     last_events (state r2.2) = last_events (state b2) /\
     exists w3, watch (state r2.2) !! sym = Some w3 /\
                w_blocked w3 = false /\ w_stall w3 = 0 /\
                w_local_high w3 = safe_float (k_high k2) 0).
Proof.
  intros Hw Hk high close w1 tinfo entry tp_from_high Hstall Hfree Hle r ev.
  subst r. rewrite (f64_stall_step_watched pub tick_map now_ts sym b w k Hw Hk).
  cbv zeta. fold high close w1 tinfo entry tp_from_high.
  rewrite bool_decide_eq_true_2 by exact Hstall. rewrite Hfree. simpl.
  rewrite Hle. simpl.
  repeat apply conj; try reflexivity.
  - eexists. split; [apply lookup_insert_eq|]. simpl.
    repeat split. subst w1. unfold update_watch_entry.
    destruct (_ <? _)%float; reflexivity.
  - apply last_last_n. lia.
  - intros pub2 tick_map2 now2 b2 w2 k2 Hw2 Hb2 Hk2 Hhigh2.
    rewrite (f64_stall_step_watched pub2 tick_map2 now2 sym b2 w2 k2 Hw2 Hk2).
    cbv zeta. rewrite Hb2, andb_false_r. simpl.
    repeat apply conj; try reflexivity.
    eexists. split; [apply lookup_insert_eq|].
    rewrite (f64_update_watch_entry_new_high _ _ _ Hhigh2). auto.
Qed.

End Binary64Stall.

(** XUSDT has stalled once at its local high 12; the next candle tops at 11
    and the market is at 8, below the level 12 * (1 - 0.30): nothing is
    opened and the entry stays, blocked. *)
Lemma stall_step_skip_below_tp_witness :
  let r := F64.stall_step F64.CFG (F64.Ex.session (F64.Ex.kline 11 8 8))
             (F64.Ex.tick_map 8) 5 "XUSDT" (F64.Ex.bot (F64.Ex.entry 12 1 false)) in
  F64.trades r.2 = [] /\
  exists w', F64.watch (F64.state r.2) !! "XUSDT"%string = Some w' /\
             F64.w_blocked w' = true /\ F64.w_stall w' = 2.
Proof.
  destruct (stall_step_skip_below_tp F64.CFG (F64.Ex.session (F64.Ex.kline 11 8 8))
              (F64.Ex.tick_map 8) 5 "XUSDT" (F64.Ex.bot (F64.Ex.entry 12 1 false))
              (F64.Ex.entry 12 1 false) (F64.Ex.kline 11 8 8))
    as (_ & H1 & _ & (w' & Hw' & Hb & _ & Hs & _) & _).
  - apply lookup_singleton_eq.
  - reflexivity.
  - vm_compute. discriminate.
  - reflexivity.
  - reflexivity.
  - split; [exact H1|]. exists w'. repeat split; assumption.
Defined.

(** The level is the rounded product: for a local high of 12 and the
    default 0.30 it is 8.399999999999999, so a market at 8.4 is above it and
    the entry triggers; likewise a market at 0.007 under a local high of
    0.01. *)
Example stall_step_rounded_level :
  (12.0 * (1.0 - 0.30))%float = 8.3999999999999986%float /\
  (8.4 <=? 12.0 * (1.0 - 0.30))%float = false /\
  (0.007 <=? 0.01 * (1.0 - 0.30))%float = false /\
  exists tr,
    F64.trades (F64.stall_step F64.CFG (F64.Ex.session (F64.Ex.kline 11 8 8.4))
                  (F64.Ex.tick_map 8.4) 5 "XUSDT"
                  (F64.Ex.bot (F64.Ex.entry 12 1 false))).2 = [tr] /\
    F64.tr_entry tr = 8.4%float /\ F64.tr_tp tr = 8.3999999999999986%float.
Proof.
  split; [reflexivity|]. split; [reflexivity|]. split; [reflexivity|].
  eexists. split; [vm_compute; reflexivity|]. split; reflexivity.
Qed.

(** ** The candidate filter on floats *)

Section Binary64Filter.

Import F64.

Variable cfg : BotConfig.

(** A price that passed the positivity test is not zero. *)
Lemma f64_not_leb_zero (x : float) :
  (x <=? 0)%float = false -> (x =? 0)%float = false.
Proof.
  intros H. destruct (x =? 0)%float eqn:E; [|reflexivity].
  destruct (F64Facts.eqb_true _ _ E) as (Hle & _). congruence.
Qed.

(** [int] raises ValueError or OverflowError only. *)
Lemma f64_int_raises (x : float) (e : exn) :
  int x = Raise e -> e <> ZeroDivisionError.
Proof.
  unfold int. destruct (Prim2SF x); intros H; try discriminate H;
    injection H as <-; discriminate.
Qed.

Section Row.

Variable t : Ticker.

Let last := safe_float (lastPrice t) 0.
Let high24 := safe_float (highPrice24h t) 0.
Let low24 := safe_float (lowPrice24h t) 0.
Let turnover := safe_float (turnover24h t) 0.
Let pump := ((last - low24) / low24 * 100.0)%float.
Let near := (last / high24)%float.

(** What the filter answers: the chain of its tests, once the funding time
    has been converted; neither division raises, coming after the test of
    its divisor. *)
Lemma f64_candidate_from_ticker_returns :
  candidate_from_ticker cfg t =
    if negb (endswith (symbol t) (quote cfg)) then Return None
    else match int (safe_float (nextFundingTime t) 0) with
         | Raise e => Raise e
         | Return next_funding_ms =>
           Return
             (if (last <=? 0)%float || (high24 <=? 0)%float || (low24 <=? 0)%float
              then None
              else if (turnover <? min_turnover_usdt cfg)%float then None
              else if (pump <? min_pump_from_low24_pct cfg)%float then None
              else if (near <? near_high_ratio cfg)%float then None
              else Some {|
                c_symbol := symbol t;
                c_last := last;
                c_high24 := high24;
                c_low24 := low24;
                c_turnover := turnover;
                c_pump_from_low24_pct := pump;
                c_near_high := near;
                c_funding_rate := safe_float (fundingRate t) 0;
                c_next_funding_ms := next_funding_ms
              |})
         end.
Proof.
  unfold candidate_from_ticker.
  destruct (negb (endswith (symbol t) (quote cfg))); [reflexivity|].
  unfold mbind, res_bind, mret, res_ret.
  destruct (int (safe_float (nextFundingTime t) 0)) as [n|e]; simpl; [|reflexivity].
  fold last high24 low24 turnover.
  destruct (last <=? 0)%float eqn:E1; [reflexivity|].
  destruct (high24 <=? 0)%float eqn:E2; [reflexivity|].
  destruct (low24 <=? 0)%float eqn:E3; [reflexivity|].
  simpl. unfold div.
  rewrite (f64_not_leb_zero _ E3), (f64_not_leb_zero _ E2). simpl.
  fold pump near.
  repeat (match goal with |- context [if ?c then _ else _] => destruct c end;
          try reflexivity).
Qed.

End Row.

(** C6, as amended.  For a row whose symbol ends with the quote suffix the
    funding time [int(nextFundingTime)] is converted first, and the filter
    raises what that conversion raises: ValueError on a NaN, OverflowError
    on an infinity, and nothing else ever; a funding time on which [float]
    raises counts as 0.  Apart from that, the filter
    returns none for a row whose symbol does not end with the suffix, whose
    last price, 24h high or 24h low is [<= 0] (which is, for a number, not
    to be strictly positive; a NaN passes the test), whose turnover is below
    the minimum, whose pump from the low [(last - low24) / low24 * 100.0] is
    below the minimum, or whose proximity [last / high24] is below the
    minimum, these being the floats the code computes; otherwise it returns
    a candidate with that pump and that proximity.  A numeric field on which
    [float] raises counts as 0.0: the row is then rejected by the positivity
    test (prices) or by the turnover test (for a positive minimum; the
    default is 5,000,000). *)
Theorem candidate_from_ticker_filter (t : Ticker) :
  let last := safe_float (lastPrice t) 0 in
  let high24 := safe_float (highPrice24h t) 0 in
  let low24 := safe_float (lowPrice24h t) 0 in
  let turnover := safe_float (turnover24h t) 0 in
  let pump := ((last - low24) / low24 * 100.0)%float in
  let near := (last / high24)%float in
  let next := int (safe_float (nextFundingTime t) 0) in
  let result := candidate_from_ticker cfg t in
  (endswith (symbol t) (quote cfg) = false -> result = Return None) /\
  (endswith (symbol t) (quote cfg) = true ->
     forall e, next = Raise e -> result = Raise e) /\
  (forall e, result = Raise e ->
     next = Raise e /\ (e = ValueError \/ e = OverflowError) /\
     (e = ValueError <-> is_nan (safe_float (nextFundingTime t) 0) = true)) /\
  (nextFundingTime t = None -> next = Return 0) /\
  (forall n, next = Return n ->
     ((last <=? 0)%float = true \/ (high24 <=? 0)%float = true \/
      (low24 <=? 0)%float = true -> result = Return None) /\
     (number last -> number high24 -> number low24 ->
      (0 <? last)%float = false \/ (0 <? high24)%float = false \/
      (0 <? low24)%float = false -> result = Return None) /\
     ((turnover <? min_turnover_usdt cfg)%float = true -> result = Return None) /\
     ((pump <? min_pump_from_low24_pct cfg)%float = true -> result = Return None) /\
     ((near <? near_high_ratio cfg)%float = true -> result = Return None) /\
     (endswith (symbol t) (quote cfg) = true ->
      (last <=? 0)%float = false -> (high24 <=? 0)%float = false ->
      (low24 <=? 0)%float = false ->
      (turnover <? min_turnover_usdt cfg)%float = false ->
      (pump <? min_pump_from_low24_pct cfg)%float = false ->
      (near <? near_high_ratio cfg)%float = false ->
      exists c, result = Return (Some c) /\
                c_symbol c = symbol t /\
                c_last c = last /\ c_high24 c = high24 /\ c_low24 c = low24 /\
                c_turnover c = turnover /\
                c_pump_from_low24_pct c = pump /\
                c_near_high c = near /\
                c_funding_rate c = safe_float (fundingRate t) 0 /\
                c_next_funding_ms c = n) /\
     (lastPrice t = None -> last = 0%float /\ result = Return None) /\
     (highPrice24h t = None -> high24 = 0%float /\ result = Return None) /\
     (lowPrice24h t = None -> low24 = 0%float /\ result = Return None) /\
     (turnover24h t = None ->
        turnover = 0%float /\
        ((0 <? min_turnover_usdt cfg)%float = true -> result = Return None))).
Proof.
  intros last high24 low24 turnover pump near next result.
  pose proof (f64_candidate_from_ticker_returns t) as Hr.
  cbv zeta in Hr. fold last high24 low24 turnover pump near next result in Hr.
  split; [intros E; rewrite Hr, E; reflexivity|].
  split; [intros E e He; rewrite Hr, E, He; reflexivity|].
  split.
  { intros e He. rewrite Hr in He.
    destruct (negb _); [discriminate He|].
    destruct next as [n|e'] eqn:Hn; [discriminate He|].
    injection He as ->. split; [reflexivity|].
    subst next. unfold int in Hn. rewrite F64Facts.is_nan_spec.
    destruct (Prim2SF (safe_float (nextFundingTime t) 0)) eqn:Hs;
      try discriminate Hn; injection Hn as <-;
      (split; [auto|]); split; congruence. }
  split; [intros E; subst next; rewrite E; reflexivity|].
  intros n Hn. rewrite Hn in Hr.
  assert (Hpos : (last <=? 0)%float = true \/ (high24 <=? 0)%float = true \/
                 (low24 <=? 0)%float = true -> result = Return None).
  { intros H. rewrite Hr. destruct (negb _); [reflexivity|].
    destruct H as [-> |[-> | ->]]; rewrite ?orb_true_r; reflexivity. }
  assert (Hturn : (turnover <? min_turnover_usdt cfg)%float = true ->
                  result = Return None).
  { intros H. rewrite Hr, H.
    repeat (match goal with |- context [if ?c then _ else _] => destruct c end;
            try reflexivity). }
  assert (Hzero : (0 <=? 0)%float = true) by reflexivity.
  repeat apply conj.
  - exact Hpos.
  - intros N1 N2 N3 H. apply Hpos.
    destruct H as [H|[H|H]]; [left|right; left|right; right];
      (destruct (F64Facts.ltb_false _ _ H) as [Hle|[Hnan|Hnan]];
       [exact Hle|discriminate Hnan|unfold number in *; congruence]).
  - exact Hturn.
  - intros H. rewrite Hr, H.
    repeat (match goal with |- context [if ?c then _ else _] => destruct c end;
            try reflexivity).
  - intros H. rewrite Hr, H.
    repeat (match goal with |- context [if ?c then _ else _] => destruct c end;
            try reflexivity).
  - intros Hs H1 H2 H3 H4 H5 H6. rewrite Hr, Hs, H1, H2, H3, H4, H5, H6. simpl.
    eexists. split; [reflexivity|]. simpl. repeat split; reflexivity.
  - intros E. assert (last = 0%float) as H0 by (subst last; rewrite E; reflexivity).
    split; [exact H0|]. apply Hpos. left. rewrite H0. exact Hzero.
  - intros E. assert (high24 = 0%float) as H0 by (subst high24; rewrite E; reflexivity).
    split; [exact H0|]. apply Hpos. right. left. rewrite H0. exact Hzero.
  - intros E. assert (low24 = 0%float) as H0 by (subst low24; rewrite E; reflexivity).
    split; [exact H0|]. apply Hpos. right. right. rewrite H0. exact Hzero.
  - intros E. assert (turnover = 0%float) as H0 by (subst turnover; rewrite E; reflexivity).
    split; [exact H0|]. intros Hmin. apply Hturn. rewrite H0. exact Hmin.
Qed.

End Binary64Filter.

(** XUSDT at 10 with a 24h range from 5 to 11 and a turnover of 6,000,000:
    the pump is 100 percent, the proximity 10/11 as a float, and the row is
    kept. *)
Lemma candidate_from_ticker_filter_witness :
  exists c,
    F64.candidate_from_ticker F64.CFG (F64.Ex.row (Some 10.0%float) (Some 1700000000000.0%float))
    = F64.Return (Some c) /\
    F64.c_symbol c = "XUSDT"%string /\
    F64.c_pump_from_low24_pct c = 100.0%float /\
    F64.c_near_high c = 0.90909090909090906%float /\
    F64.c_next_funding_ms c = 1700000000000.
Proof.
  destruct (candidate_from_ticker_filter F64.CFG
              (F64.Ex.row (Some 10.0%float) (Some 1700000000000.0%float)))
    as (_ & _ & _ & _ & H).
  destruct (H 1700000000000 eq_refl) as (_ & _ & _ & _ & _ & Hkeep & _).
  destruct Hkeep as (c & Hc & Hsym & _ & _ & _ & _ & Hpump & Hnear & _ & Hnext);
    try reflexivity.
  exists c. repeat split; assumption.
Defined.

(** C6 as stated fails on two rows of XUSDT.  The one has a last price that
    parses to a NaN, which is not strictly positive: it passes the
    positivity test and every threshold test, and the filter returns a
    candidate.  The other has a next funding time that parses to a NaN: the
    filter raises ValueError. *)
Lemma candidate_from_ticker_counterexample :
  let t1 := F64.Ex.row (Some nan) (Some 1700000000000.0%float) in
  let t2 := F64.Ex.row (Some 10.0%float) (Some nan) in
  (0 <? F64.safe_float (F64.lastPrice t1) 0)%float = false /\
  (exists c, F64.candidate_from_ticker F64.CFG t1 = F64.Return (Some c)) /\
  F64.candidate_from_ticker F64.CFG t2 = F64.Raise F64.ValueError.
Proof.
  split; [reflexivity|]. split; [|reflexivity].
  eexists. vm_compute. reflexivity.
Qed.

(** The thresholds are compared with rounded floats: a last price of 0.088
    under a high of 0.1 has the proximity 0.8799999999999999, below 0.88. *)
Example near_high_rounded :
  (0.088 / 0.1)%float = 0.87999999999999989%float /\
  (0.088 / 0.1 <? F64.near_high_ratio F64.CFG)%float = true.
Proof. split; reflexivity. Qed.

(* ===================================================================== *)
(** * More of the code *)
(* ===================================================================== *)

(** ** The clock and the cooldowns *)

(** X1.  [current_15m_close_ms] is the start of the quarter of an hour the
    clock reading lies in, in milliseconds: a multiple of 900,000 that is at
    most the reading and less than 900 seconds before it; two readings in
    the same quarter give the same value, and only those. *)
Theorem current_15m_close_ms_bar (now : Z) :
  let bar := current_15m_close_ms now in
  bar mod 900000 = 0 /\
  bar <= now * 1000 < bar + 900000 /\
  (forall now' : Z,
     current_15m_close_ms now' = bar <-> bar <= now' * 1000 < bar + 900000).
Proof.
  unfold current_15m_close_ms. cbv zeta.
  change (15 * 60) with 900.
  split; [|split].
  - rewrite <- Z.mul_assoc. change (900 * 1000) with 900000.
    apply Z.mod_mul. lia.
  - pose proof (Z.mul_div_le now 900 ltac:(lia)).
    pose proof (Z.mul_succ_div_gt now 900 ltac:(lia)). lia.
  - intros now'.
    pose proof (Z.mul_div_le now' 900 ltac:(lia)).
    pose proof (Z.mul_succ_div_gt now' 900 ltac:(lia)).
    split.
    + intros <-. lia.
    + intros Hin.
      assert (now' / 900 = now / 900); [|congruence].
      symmetry. apply (Z.div_unique now' 900 (now / 900) (now' - 900 * (now / 900))); lia.
Qed.

Section Cooldown.

Variable cfg : BotConfig.

Lemma in_cooldown_lookup (st : State) (sym : string) (now_ts : Z) :
  in_cooldown cfg st sym now_ts = true <->
  exists last, cooldowns st !! sym = Some last /\ last <> 0 /\
               now_ts - last < symbol_cooldown_minutes cfg * 60.
Proof.
  unfold in_cooldown. destruct (cooldowns st !! sym) as [last|].
  - case_bool_decide as H0.
    + split; [discriminate|]. intros (l & Hl & Hne & _). congruence.
    + rewrite bool_decide_eq_true. split.
      * intros Hlt. exists last. auto.
      * intros (l & Hl & _ & Hlt). congruence.
  - split; [discriminate|]. intros (l & Hl & _). discriminate.
Qed.

End Cooldown.

(** X2.  After [set_cooldown] at time [t0] the symbol is in cooldown at
    [now_ts] exactly when [t0] is not 0 and fewer than
    [symbol_cooldown_minutes * 60] seconds have passed; a cooldown set at
    the timestamp 0 never holds.  The other symbols are as before, and a
    symbol that never had a cooldown set is not in cooldown. *)
Theorem cooldown_after_set (cfg : BotConfig) (sym : string) (t0 now_ts : Z) (b : Bot) :
  (in_cooldown cfg (state (set_cooldown sym t0 b)) sym now_ts = true <->
     t0 <> 0 /\ now_ts - t0 < symbol_cooldown_minutes cfg * 60) /\
  (forall other : string,
     other <> sym ->
     in_cooldown cfg (state (set_cooldown sym t0 b)) other now_ts
     = in_cooldown cfg (state b) other now_ts) /\
  (forall other : string,
     cooldowns (state b) !! other = None ->
     in_cooldown cfg (state b) other now_ts = false).
Proof.
  split; [|split].
  - rewrite in_cooldown_lookup. simpl. rewrite lookup_insert_eq. split.
    + intros (last & Hl & Hne & Hlt). injection Hl as <-. auto.
    + intros [Hne Hlt]. exists t0. auto.
  - intros other Hne. unfold in_cooldown. simpl.
    rewrite lookup_insert_ne by congruence. reflexivity.
  - intros other Hnone. unfold in_cooldown. rewrite Hnone. reflexivity.
Qed.

(** ** The exchange *)

(** X3.  The candle [get_last_closed_kline] returns is the first row of the
    list the exchange answers with (the last one after the reversal), and
    there is none when the answer carries an error code or an empty list. *)
Theorem get_last_closed_kline_first_row (sess : HTTP) (sym : string) :
  get_last_closed_kline sess sym
  = if bool_decide (retCode (sess sym) = 0) then head (result_list (sess sym))
    else None.
Proof.
  unfold get_last_closed_kline.
  case_bool_decide as Hc.
  - rewrite bool_decide_eq_false_2 by tauto. reflexivity.
  - assert (Hz : retCode (sess sym) = 0) by lia.
    rewrite (bool_decide_eq_true_2 _ Hz).
    destruct (result_list (sess sym)) as [|k ks]; [reflexivity|].
    rewrite bool_decide_eq_false_2 by discriminate.
    rewrite reverse_cons, last_snoc. reflexivity.
Qed.

(** ** Opening and closing a paper trade *)

Module PnlFacts.



Lemma difference_pos (a b : Q) : (a < b)%Q -> (0 < b - a)%Q.
Proof.
  intros H. rewrite <- (Qplus_opp_r a). apply Qplus_lt_l. exact H.
Qed.






End PnlFacts.



(** ** Evaluating open trades *)

Section Evaluation.

Variable cfg : BotConfig.
Variable pub : HTTP.
Variable tick_map : gmap string TickInfo.
Variable now_ts : Z.

(** When the guard fires the mark price is above the take-profit and the
    quantity is positive. *)
Lemma funding_guard_true_above (tr : Trade) (ticker : TickInfo) (mark : Q) :
  funding_guard cfg tr ticker mark = true ->
  (tr_tp tr < mark)%Q /\ (0 < tr_qty tr)%Q.
Proof.
  intros Hg. apply funding_guard_true_iff in Hg.
  destruct Hg as (_ & _ & Hrem & _).
  destruct (Qlt_le_dec (tr_tp tr) mark) as [Hlt|Hle].
  - split; [exact Hlt|].
    rewrite (remaining_before_tp _ _ Hlt) in Hrem.
    apply Qnot_le_lt. intros Hq.
    assert (Hneg : ((mark - tr_tp tr) * tr_qty tr <= 0)%Q).
    { rewrite <- (Qmult_0_r (mark - tr_tp tr)).
      apply Qmult_le_l; [apply PnlFacts.difference_pos; exact Hlt|exact Hq]. }
    q_absurd.
  - rewrite (remaining_at_or_past_tp _ _ Hle) in Hrem.
    exfalso. exact (Qlt_irrefl _ Hrem).
Qed.

(** The three ways an evaluation changes a trade. *)
Lemma update_trade_outcome (tr : Trade) :
  update_trade cfg pub tick_map now_ts tr = tr \/
  tr_status tr = OPEN /\
  ((exists mark, update_trade cfg pub tick_map now_ts tr
                 = close_trade tr now_ts FUNDING_GUARD mark /\
                 (tr_tp tr < mark)%Q /\ (0 < tr_qty tr)%Q) \/
   update_trade cfg pub tick_map now_ts tr = close_trade tr now_ts SL (tr_sl tr) \/
   update_trade cfg pub tick_map now_ts tr = close_trade tr now_ts TP (tr_tp tr)).
Proof.
  destruct (tr_status tr) eqn:Hst.
  - destruct (get_last_closed_kline pub (tr_symbol tr)) as [k|] eqn:Hk.
    + rewrite (update_trade_open cfg pub tick_map now_ts tr k Hst Hk). cbv zeta.
      match goal with |- context [funding_guard cfg tr ?t ?m] =>
        destruct (funding_guard cfg tr t m) eqn:Hg end.
      * right. split; [reflexivity|]. left. eexists. split; [reflexivity|].
        exact (funding_guard_true_above _ _ _ Hg).
      * repeat match goal with |- context [if ?c then _ else _] => destruct c end;
          auto.
    + left. unfold update_trade. rewrite Hk. case_bool_decide; reflexivity.
  - left. apply update_trade_not_open. rewrite Hst. discriminate.
Qed.

End Evaluation.

(** X6.  Evaluating a trade never touches its terms: id, symbol, side,
    times of creation and opening, notional, quantity, entry, take-profit,
    stop-loss, local high and the funding data taken at the opening are the
    same afterwards; and a trade that is still OPEN afterwards has not
    changed at all. *)
Theorem update_trade_keeps_terms (cfg : BotConfig) (pub : HTTP)
    (tick_map : gmap string TickInfo) (now_ts : Z) (tr : Trade) :
  let tr' := update_trade cfg pub tick_map now_ts tr in
  tr_id tr' = tr_id tr /\ tr_symbol tr' = tr_symbol tr /\
  tr_side tr' = tr_side tr /\
  tr_created_ts tr' = tr_created_ts tr /\ tr_open_ts tr' = tr_open_ts tr /\
  tr_notional_usdt tr' = tr_notional_usdt tr /\ tr_qty tr' = tr_qty tr /\
  tr_entry tr' = tr_entry tr /\ tr_tp tr' = tr_tp tr /\ tr_sl tr' = tr_sl tr /\
  tr_local_high tr' = tr_local_high tr /\
  tr_funding_rate_at_open tr' = tr_funding_rate_at_open tr /\
  tr_next_funding_ms_at_open tr' = tr_next_funding_ms_at_open tr /\
  (tr_status tr' = OPEN -> tr' = tr).
Proof.
  cbv zeta.
  destruct (update_trade_outcome cfg pub tick_map now_ts tr)
    as [->|(_ & [(mark & -> & _)|[->| ->]])];
    repeat split; try reflexivity; simpl; discriminate.
Qed.

(** X7.  A trade that an evaluation closes gets all of its close fields:
    the time of the cycle, a reason and a price, so that its PnL is defined
    and is [(entry - price) * qty].  The price is the stop-loss for SL, the
    take-profit for TP, and for FUNDING_GUARD a mark price strictly above
    the take-profit (on a trade of positive quantity). *)
Theorem update_trade_close_fields (cfg : BotConfig) (pub : HTTP)
    (tick_map : gmap string TickInfo) (now_ts : Z) (tr : Trade) :
  tr_status tr = OPEN ->
  tr_status (update_trade cfg pub tick_map now_ts tr) = CLOSED ->
  let tr' := update_trade cfg pub tick_map now_ts tr in
  tr_close_ts tr' = Some now_ts /\
  exists reason price,
    tr_close_reason tr' = Some reason /\
    tr_close_price tr' = Some price /\
    trade_pnl tr' = Some ((tr_entry tr - price) * tr_qty tr)%Q /\
    match reason with
    | SL => price = tr_sl tr
    | TP => price = tr_tp tr
    | FUNDING_GUARD => (tr_tp tr < price)%Q /\ (0 < tr_qty tr)%Q
    end.
Proof.
  intros Hopen Hclosed. cbv zeta. revert Hclosed.
  destruct (update_trade_outcome cfg pub tick_map now_ts tr)
    as [->|(_ & [(mark & -> & Habove)|[->| ->]])]; intros Hclosed.
  - congruence.
  - split; [reflexivity|]. exists FUNDING_GUARD, mark. auto.
  - split; [reflexivity|]. exists SL, (tr_sl tr). auto.
  - split; [reflexivity|]. exists TP, (tr_tp tr). auto.
Qed.

(** X8.  [update_open_trades] keeps the length of the list and the place
    and id of every trade, and the number of OPEN trades never grows. *)
Theorem update_open_trades_counts (cfg : BotConfig) (pub : HTTP)
    (tick_map : gmap string TickInfo) (now_ts : Z) (trades : list Trade) :
  let is_open := fun t : Trade => bool_decide (tr_status t = OPEN) in
  let trades' := update_open_trades cfg pub trades tick_map now_ts in
  length trades' = length trades /\
  map tr_id trades' = map tr_id trades /\
  (length (List.filter is_open trades') <= length (List.filter is_open trades))%nat /\
  (forall (i : nat) (tr' : Trade),
     trades' !! i = Some tr' -> tr_status tr' = OPEN -> trades !! i = Some tr').
Proof.
  cbv zeta. unfold update_open_trades.
  split; [apply length_map|]. split; [|split].
  - induction trades as [|tr trades IH]; simpl; [reflexivity|].
    rewrite IH. f_equal.
    destruct (update_trade_outcome cfg pub tick_map now_ts tr)
      as [->|(_ & [(mark & -> & _)|[->| ->]])]; reflexivity.
  - induction trades as [|tr trades IH]; simpl; [lia|].
    destruct (update_trade_outcome cfg pub tick_map now_ts tr)
      as [->|(_ & [(mark & -> & _)|[->| ->]])]; simpl;
      destruct (bool_decide (tr_status tr = OPEN)); simpl; lia.
  - intros i tr' Hi Hopen. rewrite list_lookup_fmap in Hi.
    destruct (trades !! i) as [tr|]; [|discriminate]. simpl in Hi.
    injection Hi as <-. f_equal.
    destruct (update_trade_outcome cfg pub tick_map now_ts tr)
      as [Hs|(_ & [(mark & Hs & _)|[Hs|Hs]])]; rewrite Hs in *;
      try reflexivity; simpl in Hopen; discriminate.
Qed.


(** ** The statistics, in full *)

Module StatFacts.

Lemma sum_nonneg (xs : list Q) :
  Forall (fun p => (0 <= p)%Q) xs -> (0 <= Py.sum xs)%Q.
Proof.
  induction 1 as [|x xs Hx Hxs IH].
  - apply Qle_refl.
  - rewrite SumFacts.sum_cons. rewrite <- (Qplus_0_r 0).
    apply Qplus_le_compat; assumption.
Qed.

Lemma filter_twice {A} (f : A -> bool) (xs : list A) :
  List.filter f (List.filter f xs) = List.filter f xs.
Proof.
  induction xs as [|x xs IH]; [reflexivity|]. simpl.
  destruct (f x) eqn:E; simpl; rewrite ?E, IH; reflexivity.
Qed.

Lemma filter_shorter {A} (f : A -> bool) (xs : list A) :
  (length (List.filter f xs) <= length xs)%nat.
Proof.
  induction xs as [|x xs IH]; simpl; [lia|]. destruct (f x); simpl; lia.
Qed.

Lemma omap_shorter {A B} (f : A -> option B) (xs : list A) :
  (length (omap f xs) <= length xs)%nat.
Proof.
  induction xs as [|x xs IH]; csimpl; [lia|]. destruct (f x); csimpl; lia.
Qed.

(** A share [w / n * 100] of [n > 0] lies between 0 and 100. *)
Lemma percentage (w n : nat) :
  (w <= n)%nat -> (0 < n)%nat ->
  (0 <= inject_Z (Z.of_nat w) / inject_Z (Z.of_nat n) * 100 <= 100)%Q.
Proof.
  intros Hw Hn.
  assert (Hnq : (0 < inject_Z (Z.of_nat n))%Q)
    by (rewrite <- (Zlt_Qlt 0); lia).
  assert (Hwq : (0 <= inject_Z (Z.of_nat w))%Q)
    by (rewrite <- (Zle_Qle 0); lia).
  assert (Hle : (inject_Z (Z.of_nat w) <= inject_Z (Z.of_nat n))%Q)
    by (rewrite <- Zle_Qle; lia).
  split.
  - apply Qmult_le_0_compat; [|discriminate].
    apply Qle_shift_div_l; [exact Hnq|]. rewrite Qmult_0_l. exact Hwq.
  - apply Qle_trans with (1 * 100)%Q; [|exact (Qle_refl 100)].
    apply Qmult_le_compat_r; [|discriminate].
    apply Qle_shift_div_r; [exact Hnq|]. rewrite Qmult_1_l. exact Hle.
Qed.

End StatFacts.

Section StatsFigures.

Variable trades : list Trade.

Let closed := List.filter (fun t => bool_decide (tr_status t = CLOSED)) trades.
Let pnls := omap id (map trade_pnl closed).
Let wins := List.filter (fun p => (p >? 0)%pyq) pnls.
Let losses := List.filter (fun p => (p <=? 0)%pyq) pnls.

(** Every figure [print_stats] reports for a list with closed trades. *)
Lemma print_stats_figures :
  closed <> [] ->
  print_stats trades = Py.Return (StatsOf {|
    st_closed := length pnls;
    st_winrate := if bool_decide (pnls <> [])
                  then (inject_Z (Z.of_nat (length wins))
                        / inject_Z (Z.of_nat (length pnls)) * 100)%Q
                  else 0%Q;
    st_total := Py.sum pnls;
    st_avg := if bool_decide (pnls <> [])
              then (Py.sum pnls / inject_Z (Z.of_nat (length pnls)))%Q
              else 0%Q;
    st_pf := if bool_decide (losses <> []) && negb (Py.eq (Py.sum losses) 0)
             then PFin (Py.sum wins / Qabs (Py.sum losses))%Q
             else PFInf
  |}).
Proof.
  intros Hne. unfold print_stats. fold closed.
  rewrite bool_decide_eq_false_2 by exact Hne.
  fold pnls. fold wins. fold losses.
  unfold mbind, res_bind, mret, res_ret.
  assert (Hpf : forall (P : Py.res PF -> Prop),
            P (Py.Return (if bool_decide (losses <> [])
                             && negb (Py.eq (Py.sum losses) 0)
                          then PFin (Py.sum wins / Qabs (Py.sum losses))%Q
                          else PFInf)) ->
            P (if bool_decide (losses <> []) && negb (Py.eq (Py.sum losses) 0)
               then Py.bind (Py.div (Py.sum wins) (Qabs (Py.sum losses)))
                            (fun r => Py.Return (PFin r))
               else Py.Return PFInf)).
  { intros P HP.
    destruct (bool_decide (losses <> []) && negb (Py.eq (Py.sum losses) 0)) eqn:El;
      [|exact HP].
    apply andb_true_iff in El. destruct El as [_ El].
    apply negb_true_iff in El. py_cmp.
    rewrite PyFacts.div_nonzero by (intros Hz; apply El, SumFacts.Qabs_zero, Hz).
    exact HP. }
  destruct (bool_decide (pnls <> [])) eqn:Ep.
  - apply bool_decide_eq_true_1 in Ep.
    rewrite !(PyFacts.div_nonzero _ _ (SumFacts.length_nonzero pnls Ep)). simpl.
    apply Hpf. reflexivity.
  - simpl. apply Hpf. reflexivity.
Qed.

End StatsFigures.

(** X10.  [print_stats] never divides by zero.  It prints the short line
    ["[STATS] closed=0"] exactly when no trade of the list is CLOSED;
    otherwise it prints the figures, and in them the count is the number of
    CLOSED trades that have a PnL (at most the number of CLOSED trades; it
    is 0 when none of them has a close price, and then the win rate and the
    average are 0 and the profit factor is infinite), the win rate lies
    between 0 and 100, the total is [sum(pnls)], and a finite profit factor
    is not negative. *)
Theorem print_stats_figures_sound (trades : list Trade) :
  let closed := List.filter (fun t => bool_decide (tr_status t = CLOSED)) trades in
  let pnls := omap id (map trade_pnl closed) in
  exists line,
    print_stats trades = Py.Return line /\
    (line = NoClosed <-> closed = []) /\
    forall s, line = StatsOf s ->
      st_closed s = length pnls /\
      (length pnls <= length closed <= length trades)%nat /\
      (0 <= st_winrate s <= 100)%Q /\
      st_total s = Py.sum pnls /\
      (pnls = [] ->
         st_closed s = 0%nat /\ st_winrate s = 0%Q /\ st_avg s = 0%Q /\
         st_pf s = PFInf) /\
      (forall q, st_pf s = PFin q -> (0 <= q)%Q).
Proof.
  intros closed pnls.
  assert (Hcase : forall l : list Trade, l = [] \/ l <> [])
    by (intros [|t l]; [left; reflexivity|right; discriminate]).
  destruct (Hcase closed) as [Hnil|Hne]; clear Hcase.
  { exists NoClosed. split.
    - unfold print_stats. fold closed. rewrite Hnil. reflexivity.
    - split; [tauto|]. intros s Hs. discriminate Hs. }
  pose proof (print_stats_figures trades Hne) as Hprint.
  fold closed pnls in Hprint.
  eexists. split; [exact Hprint|]. split.
  { split; [discriminate|]. intros Hnil. contradiction. }
  intros s Hs. injection Hs as <-. simpl.
  split; [reflexivity|]. split; [|split; [|split; [|split]]].
  - split.
    + subst pnls. etransitivity; [apply StatFacts.omap_shorter|].
      rewrite length_map. reflexivity.
    + apply StatFacts.filter_shorter.
  - case_bool_decide as Hp.
    + apply StatFacts.percentage; [apply StatFacts.filter_shorter|].
      destruct pnls; [congruence|]. simpl. lia.
    + split; discriminate.
  - reflexivity.
  - intros Hp. rewrite Hp. auto.
  - intros q.
    match goal with |- (if ?c then _ else _) = _ -> _ =>
      destruct c eqn:El; [|discriminate] end.
    intros Hq. injection Hq as <-.
    apply andb_true_iff in El. destruct El as [_ El].
    apply negb_true_iff in El. py_cmp.
    apply Qle_shift_div_l.
    + match goal with |- (0 < Qabs ?x)%Q =>
        destruct (Qle_lt_or_eq _ _ (Qabs_nonneg x)) as [Hlt|Heq]; [exact Hlt|] end.
      exfalso. apply El, SumFacts.Qabs_zero. symmetry. exact Heq.
    + rewrite Qmult_0_l. apply StatFacts.sum_nonneg.
      apply List.Forall_forall. intros p Hin.
      apply filter_In in Hin. destruct Hin as [_ Hlt]. py_cmp.
      apply Qlt_le_weak, Hlt.
Qed.

(** X11.  The report depends on the closed trades only: the OPEN trades of
    the list can be left out without changing it, and a trade that has just
    been opened and appended does not change it. *)
Theorem print_stats_closed_only (trades : list Trade) :
  print_stats trades
  = print_stats (List.filter (fun t => bool_decide (tr_status t = CLOSED)) trades) /\
  (forall tr : Trade,
     tr_status tr = OPEN -> print_stats (trades ++ [tr]) = print_stats trades).
Proof.
  split.
  - unfold print_stats. rewrite StatFacts.filter_twice. reflexivity.
  - intros tr Hopen. unfold print_stats. rewrite List.filter_app. simpl.
    rewrite Hopen. simpl. rewrite app_nil_r. reflexivity.
Qed.

(** ** Scanning the tickers *)

Section Scan.

Variable cfg : BotConfig.





End Scan.

(** ** The ticker scan on floats *)

Section Binary64Scan.

Import F64.

Variable cfg : BotConfig.

(** The filter raises only on the funding time. *)
Lemma f64_candidate_from_ticker_total (t : Ticker) (n : Z) :
  funding_time t = Return n ->
  candidate_from_ticker cfg t = Return (candidate_of cfg t).
Proof.
  intros Hn. unfold candidate_of.
  rewrite (f64_candidate_from_ticker_returns cfg t). unfold funding_time in Hn.
  rewrite Hn. destruct (negb _); reflexivity.
Qed.

(** A row that is kept passed the tests: its symbol is the one of the row
    and its last price was not [<= 0]. *)
Lemma f64_candidate_of_some (t : Ticker) (c : Candidate) :
  candidate_of cfg t = Some c ->
  c_symbol c = symbol t /\
  c_last c = safe_float (lastPrice t) 0 /\
  (c_last c <=? 0)%float = false.
Proof.
  unfold candidate_of. rewrite (f64_candidate_from_ticker_returns cfg t).
  destruct (negb _); [discriminate|].
  destruct (int _); [|discriminate].
  destruct (safe_float (lastPrice t) 0 <=? 0)%float eqn:E1; [discriminate|].
  simpl.
  repeat (match goal with |- context [if ?b then _ else _] => destruct b end;
          try discriminate).
  intros H. injection H as <-. simpl. auto.
Qed.

Lemma f64_scan_step_run (acc : gmap string TickInfo * list Candidate) (t : Ticker) :
  scan_step cfg acc t
  = match funding_time t with
    | Raise e => Raise e
    | Return n =>
      Return (<[symbol t := tick_info_of t n]> acc.1,
              acc.2 ++ option_list (candidate_of cfg t))
    end.
Proof.
  unfold scan_step, mbind, res_bind, mret, res_ret.
  destruct (funding_time t) as [n|e] eqn:Hn; simpl; [|reflexivity].
  rewrite (f64_candidate_from_ticker_total t n Hn). simpl.
  destruct (candidate_of cfg t); simpl; [reflexivity|].
  rewrite app_nil_r. reflexivity.
Qed.

Lemma f64_last_row_cons (sym : string) (t : Ticker) (tickers : list Ticker) :
  last_row sym (t :: tickers)
  = match last_row sym tickers with
    | Some t' => Some t'
    | None => if bool_decide (symbol t = sym) then Some t else None
    end.
Proof.
  unfold last_row. simpl. case_bool_decide.
  - destruct (List.filter _ tickers) as [|t1 l]; [reflexivity|].
    rewrite last_cons_cons.
    destruct (last (t1 :: l)) eqn:E; [reflexivity|].
    apply last_None in E. discriminate E.
  - destruct (last _); reflexivity.
Qed.

Lemma f64_last_row_some (sym : string) (tickers : list Ticker) :
  is_Some (last_row sym tickers) <-> exists t, t ∈ tickers /\ symbol t = sym.
Proof.
  unfold last_row. rewrite last_is_Some. split.
  - intros Hne.
    destruct (List.filter _ tickers) as [|t l] eqn:E; [congruence|].
    assert (Hin : In t (List.filter (fun t => bool_decide (symbol t = sym)) tickers))
      by (rewrite E; left; reflexivity).
    apply filter_In in Hin. destruct Hin as [Hin Hs].
    apply bool_decide_eq_true_1 in Hs. apply list_elem_of_In in Hin. eauto.
  - intros (t & Hin & Hs) Hnil. apply list_elem_of_In in Hin.
    assert (Hf : In t (List.filter (fun t => bool_decide (symbol t = sym)) tickers))
      by (apply filter_In; split; [exact Hin|apply bool_decide_eq_true_2; exact Hs]).
    rewrite Hnil in Hf. exact Hf.
Qed.

Lemma f64_last_row_symbol (sym : string) (tickers : list Ticker) (t : Ticker) :
  last_row sym tickers = Some t -> t ∈ tickers /\ symbol t = sym.
Proof.
  unfold last_row. intros Hl. apply last_Some_elem_of, list_elem_of_In in Hl.
  apply filter_In in Hl. destruct Hl as [Hin Hs].
  apply bool_decide_eq_true_1 in Hs. apply list_elem_of_In in Hin. auto.
Qed.

(** The scan, row by row: it stops at the first row whose funding time does
    not convert, with the exception of that conversion. *)
Lemma f64_scan_tickers_run (tickers : list Ticker)
    (acc : gmap string TickInfo * list Candidate) :
  match scan_tickers cfg tickers acc with
  | Raise e =>
    exists l1 t l2,
      tickers = l1 ++ t :: l2 /\ funding_time t = Raise e /\
      Forall (fun t' => exists n, funding_time t' = Return n) l1
  | Return (tick_map, candidates) =>
    Forall (fun t => exists n, funding_time t = Return n) tickers /\
    candidates = acc.2 ++ omap (candidate_of cfg) tickers /\
    forall sym,
      tick_map !! sym
      = match last_row sym tickers with
        | Some t =>
          match funding_time t with
          | Return n => Some (tick_info_of t n)
          | Raise _ => None
          end
        | None => acc.1 !! sym
        end
  end.
Proof.
  revert acc. induction tickers as [|t tickers IH]; intros acc.
  - simpl. destruct acc as [tm cs]. simpl. rewrite app_nil_r. auto.
  - simpl. unfold mbind at 1, res_bind at 1. rewrite f64_scan_step_run.
    destruct (funding_time t) as [n|e] eqn:Hn; simpl.
    + specialize (IH (<[symbol t := tick_info_of t n]> acc.1,
                      acc.2 ++ option_list (candidate_of cfg t))).
      destruct (scan_tickers cfg tickers _) as [[tm cs]|e].
      * destruct IH as (Hall & Hcs & Hlook). split; [constructor; eauto|]. split.
        { rewrite Hcs. simpl. rewrite <- app_assoc. f_equal.
          destruct (candidate_of cfg t); reflexivity. }
        intros sym. rewrite Hlook, f64_last_row_cons. simpl.
        destruct (last_row sym tickers); [reflexivity|].
        case_bool_decide as Hs.
        { rewrite Hn, Hs. apply lookup_insert_eq. }
        apply lookup_insert_ne. exact Hs.
      * destruct IH as (l1 & t' & l2 & -> & Ht' & Hall).
        exists (t :: l1), t', l2. split; [reflexivity|]. split; [exact Ht'|].
        constructor; eauto.
    + exists [], t, tickers. split; [reflexivity|]. split; [exact Hn|constructor].
Qed.

(** X12.  Building the ticker map and the candidates raises exactly when
    the next funding time of some row does not convert to an int, being a
    NaN or an infinity: the scan then stops at the first such row, with the
    ValueError or OverflowError of the conversion, and never with a division
    by zero.  Otherwise the map has an entry for exactly the symbols of the
    rows, taken from the last row of the symbol, and the candidates are the
    rows the filter keeps, in the order of the rows, each with a last price
    that is not [<= 0] and with an entry in the map. *)
Theorem scan_tickers_result (tickers : list Ticker) :
  let result := scan_tickers cfg tickers (∅, []) in
  (forall e, result = Raise e ->
     (e = ValueError \/ e = OverflowError) /\
     exists l1 t l2,
       tickers = l1 ++ t :: l2 /\ funding_time t = Raise e /\
       Forall (fun t' => exists n, funding_time t' = Return n) l1) /\
  ((exists t e, t ∈ tickers /\ funding_time t = Raise e) <->
   exists e, result = Raise e) /\
  (forall tick_map candidates, result = Return (tick_map, candidates) ->
     candidates = omap (candidate_of cfg) tickers /\
     (forall sym ti,
        tick_map !! sym = Some ti <->
        exists t n, last_row sym tickers = Some t /\ funding_time t = Return n /\
                    ti = tick_info_of t n) /\
     (forall sym,
        is_Some (tick_map !! sym) <-> exists t, t ∈ tickers /\ symbol t = sym) /\
     (forall sym ti,
        tick_map !! sym = Some ti ->
        ti_symbol ti = Some sym /\ is_Some (ti_last ti) /\
        is_Some (ti_funding_rate ti) /\ is_Some (ti_next_funding_ms ti)) /\
     (forall c, c ∈ candidates ->
        (c_last c <=? 0)%float = false /\ is_Some (tick_map !! c_symbol c))).
Proof.
  intros result. pose proof (f64_scan_tickers_run tickers (∅, [])) as Hrun.
  fold result in Hrun. simpl in Hrun.
  split; [|split].
  - intros e He. rewrite He in Hrun. split; [|exact Hrun].
    destruct Hrun as (_ & t & _ & _ & Ht & _).
    unfold funding_time, int in Ht.
    destruct (Prim2SF _); try discriminate Ht; injection Ht as <-; auto.
  - split.
    + intros (t & e & Hin & Ht).
      destruct result as [[tm cs]|e']; [|eauto].
      destruct Hrun as (Hall & _). rewrite Forall_forall in Hall.
      destruct (Hall t Hin) as [n Hn]. congruence.
    + intros [e He]. rewrite He in Hrun.
      destruct Hrun as (l1 & t & l2 & -> & Ht & _).
      exists t, e. split; [|exact Ht].
      apply elem_of_app. right. left.
  - intros tm cs He. rewrite He in Hrun. destruct Hrun as (Hall & Hcs & Hlook).
    rewrite Forall_forall in Hall.
    assert (Hlook' : forall sym ti,
              tm !! sym = Some ti <->
              exists t n, last_row sym tickers = Some t /\
                          funding_time t = Return n /\ ti = tick_info_of t n).
    { intros sym ti. rewrite Hlook.
      destruct (last_row sym tickers) as [t|] eqn:Hl.
      - assert (Hin : t ∈ tickers).
        { unfold last_row in Hl. apply last_Some_elem_of in Hl.
          apply list_elem_of_In, filter_In in Hl. apply list_elem_of_In, Hl. }
        destruct (Hall t Hin) as [n Hn]. rewrite Hn. split.
        + intros H. injection H as <-. eauto.
        + intros (t' & n' & Ht' & Hn' & ->). injection Ht' as <-.
          rewrite Hn in Hn'. injection Hn' as <-. reflexivity.
      - rewrite lookup_empty. split; [discriminate|].
        intros (t' & n' & Ht' & _). discriminate Ht'. }
    assert (Hdom : forall sym,
              is_Some (tm !! sym) <-> exists t, t ∈ tickers /\ symbol t = sym).
    { intros sym. rewrite <- f64_last_row_some. split.
      - intros [ti Hti]. apply Hlook' in Hti. destruct Hti as (t & _ & Ht & _). eauto.
      - intros [t Ht].
        assert (Hin : t ∈ tickers).
        { unfold last_row in Ht. apply last_Some_elem_of in Ht.
          apply list_elem_of_In, filter_In in Ht. apply list_elem_of_In, Ht. }
        destruct (Hall t Hin) as [n Hn].
        exists (tick_info_of t n). apply Hlook'. eauto. }
    split; [exact Hcs|]. split; [exact Hlook'|]. split; [exact Hdom|]. split.
    { intros sym ti Hti. apply Hlook' in Hti. destruct Hti as (t & n & Hl & _ & ->).
      apply f64_last_row_symbol in Hl. destruct Hl as [_ Hs].
      simpl. rewrite Hs. eauto. }
    intros c Hc. rewrite Hcs in Hc.
    apply list_elem_of_omap in Hc. destruct Hc as (t & Hin & Hsome).
    apply f64_candidate_of_some in Hsome. destruct Hsome as (Hsym & _ & Hpos).
    split; [exact Hpos|]. apply Hdom. exists t. split; [exact Hin|congruence].
Qed.

End Binary64Scan.

(** The scan stops at a row whose next funding time is ["nan"], and keeps a
    row whose last price is. *)
Example scan_tickers_nan :
  F64.scan_tickers F64.CFG
    [F64.Ex.row (Some 10.0%float) (Some 1700000000000.0%float);
     F64.Ex.row (Some 10.0%float) (Some nan)] (∅, [])
  = F64.Raise F64.ValueError /\
  exists tick_map c,
    F64.scan_tickers F64.CFG [F64.Ex.row (Some nan) (Some 1700000000000.0%float)] (∅, [])
    = F64.Return (tick_map, [c]) /\
    is_nan (F64.c_last c) = true.
Proof.
  split; [reflexivity|]. eexists _, _. split; vm_compute; reflexivity.
Qed.

(** ** The watchlist: expiry and admission *)

Section Expiry.

Variable cfg : BotConfig.
Variable now_ts : Z.

(** Over keys without repetition that are all in the map, step 2 raises no
    KeyError and removes exactly the expired entries among the keys. *)
Lemma ttl_loop_keys (keys : list string) (watch : gmap string WatchEntry) :
  NoDup keys ->
  (forall sym, sym ∈ keys -> is_Some (watch !! sym)) ->
  exists watch',
    ttl_loop cfg now_ts keys watch = Ok watch' /\
    forall sym,
      watch' !! sym = match watch !! sym with
                      | Some w => if bool_decide (sym ∈ keys) && expired cfg now_ts w
                                  then None else Some w
                      | None => None
                      end.
Proof.
  revert watch. induction keys as [|key keys IH]; intros watch Hnd Hin.
  - exists watch. split; [reflexivity|]. intros sym.
    destruct (watch !! sym); [|reflexivity].
    rewrite bool_decide_eq_false_2 by apply not_elem_of_nil. reflexivity.
  - apply NoDup_cons in Hnd. destruct Hnd as [Hfresh Hnd].
    destruct (Hin key ltac:(left)) as [w Hw]. simpl. rewrite Hw.
    fold (expired cfg now_ts w). destruct (expired cfg now_ts w) eqn:Hexp.
    + destruct (IH (delete key watch) Hnd) as (watch' & Hrun & Hlook).
      { intros sym Hs. rewrite lookup_delete_ne by (intros ->; contradiction).
        apply Hin. right. exact Hs. }
      exists watch'. split; [exact Hrun|]. intros sym. rewrite Hlook.
      destruct (decide (key = sym)) as [->|Hne].
      * rewrite lookup_delete_eq, Hw.
        rewrite bool_decide_eq_true_2 by left. rewrite Hexp. reflexivity.
      * rewrite lookup_delete_ne by exact Hne.
        destruct (watch !! sym); [|reflexivity].
        rewrite (bool_decide_ext (sym ∈ key :: keys) (sym ∈ keys)); [reflexivity|].
        rewrite elem_of_cons. intuition congruence.
    + destruct (IH watch Hnd) as (watch' & Hrun & Hlook).
      { intros sym Hs. apply Hin. right. exact Hs. }
      exists watch'. split; [exact Hrun|]. intros sym. rewrite Hlook.
      destruct (decide (key = sym)) as [->|Hne].
      * rewrite Hw, Hexp, !andb_false_r. reflexivity.
      * destruct (watch !! sym); [|reflexivity].
        rewrite (bool_decide_ext (sym ∈ key :: keys) (sym ∈ keys)); [reflexivity|].
        rewrite elem_of_cons. intuition congruence.
Qed.

End Expiry.

(** The keys as [gmap] enumerates them are a listing of the keys. *)
Lemma gmap_order_lists_keys : lists_keys gmap_order.
Proof.
  intros m. unfold gmap_order. split.
  - apply NoDup_fst_map_to_list.
  - intros sym. rewrite list_elem_of_fmap. split.
    + intros ([s w] & -> & Hin). apply elem_of_map_to_list in Hin. eauto.
    + intros [w Hw]. exists (sym, w). split; [reflexivity|].
      apply elem_of_map_to_list. exact Hw.
Qed.

(** X13.  Step 2 of a cycle, over the keys of the watchlist: no KeyError is
    raised, every entry whose age [now_ts - created_ts] has reached
    [watch_ttl_seconds] is gone, whatever its state, and every younger entry
    is there unchanged. *)
Theorem ttl_loop_expires (cfg : BotConfig) (order : gmap string WatchEntry -> list string)
    (now_ts : Z) (watch : gmap string WatchEntry) :
  lists_keys order ->
  exists watch',
    ttl_loop cfg now_ts (order watch) watch = Ok watch' /\
    forall sym,
      watch' !! sym = match watch !! sym with
                      | Some w =>
                        if bool_decide (now_ts - w_created_ts w >= watch_ttl_seconds cfg)
                        then None else Some w
                      | None => None
                      end.
Proof.
  intros Horder. destruct (Horder watch) as [Hnd Hkeys].
  destruct (ttl_loop_keys cfg now_ts (order watch) watch Hnd) as (watch' & Hrun & Hlook).
  { intros sym Hs. apply Hkeys. exact Hs. }
  exists watch'. split; [exact Hrun|]. intros sym. rewrite Hlook.
  destruct (watch !! sym) as [w|] eqn:Hw; [|reflexivity].
  rewrite bool_decide_eq_true_2 by (apply Hkeys; eauto). reflexivity.
Qed.

Section Admission.

Variable cfg : BotConfig.
Variable pub : HTTP.
Variable now_ts : Z.

(** One candidate: the bot is as before, or the symbol enters the
    watchlist. *)
Lemma admit_step_watch (c : Candidate) (b : Bot) :
  admit_step cfg pub now_ts c b
  = match watch (state b) !! c_symbol c, admission cfg pub now_ts b (c_symbol c) with
    | None, Some w => put_watch (c_symbol c) w b
    | _, _ => b
    end.
Proof.
  unfold admit_step, admission.
  destruct (watch (state b) !! c_symbol c) as [w|] eqn:Hw.
  - rewrite bool_decide_eq_true_2 by eauto. reflexivity.
  - rewrite bool_decide_eq_false_2 by (intros [w Hs]; discriminate).
    destruct (in_cooldown _ _ _ _); [reflexivity|].
    destruct (has_open_trade _ _); [reflexivity|].
    destruct (get_last_closed_kline pub (c_symbol c)); reflexivity.
Qed.

Lemma admit_step_frame (c : Candidate) (b : Bot) :
  trades (admit_step cfg pub now_ts c b) = trades b /\
  cooldowns (state (admit_step cfg pub now_ts c b)) = cooldowns (state b) /\
  last_events (state (admit_step cfg pub now_ts c b)) = last_events (state b) /\
  last_bar_close_ms (state (admit_step cfg pub now_ts c b))
  = last_bar_close_ms (state b).
Proof.
  rewrite admit_step_watch.
  destruct (watch (state b) !! c_symbol c);
    destruct (admission cfg pub now_ts b (c_symbol c)); auto.
Qed.

Lemma admission_frame (b b' : Bot) (sym : string) :
  trades b' = trades b -> cooldowns (state b') = cooldowns (state b) ->
  admission cfg pub now_ts b' sym = admission cfg pub now_ts b sym.
Proof.
  intros Ht Hc. unfold admission, in_cooldown. rewrite Ht, Hc. reflexivity.
Qed.

(** The whole of step 3. *)
Lemma admit_watch (candidates : list Candidate) (b : Bot) :
  trades (admit_candidates cfg pub now_ts candidates b) = trades b /\
  cooldowns (state (admit_candidates cfg pub now_ts candidates b)) = cooldowns (state b) /\
  last_events (state (admit_candidates cfg pub now_ts candidates b)) = last_events (state b) /\
  last_bar_close_ms (state (admit_candidates cfg pub now_ts candidates b))
  = last_bar_close_ms (state b) /\
  forall sym,
    watch (state (admit_candidates cfg pub now_ts candidates b)) !! sym
    = match watch (state b) !! sym with
      | Some w => Some w
      | None => if bool_decide (sym ∈ map c_symbol candidates)
                then admission cfg pub now_ts b sym else None
      end.
Proof.
  unfold admit_candidates. revert b.
  induction candidates as [|c candidates IH]; intros b; simpl.
  - repeat split. intros sym. destruct (watch (state b) !! sym); reflexivity.
  - destruct (admit_step_frame c b) as (Ht & Hc & He & Hb).
    destruct (IH (admit_step cfg pub now_ts c b)) as (Ht' & Hc' & He' & Hb' & Hw').
    split; [congruence|]. split; [congruence|]. split; [congruence|].
    split; [congruence|].
    intros sym. rewrite Hw'.
    rewrite (admission_frame b _ sym Ht Hc).
    rewrite admit_step_watch.
    destruct (decide (c_symbol c = sym)) as [Hs|Hs].
    + subst sym. destruct (watch (state b) !! c_symbol c) as [w|] eqn:Hw.
      * rewrite Hw. reflexivity.
      * rewrite (bool_decide_eq_true_2 (c_symbol c ∈ c_symbol c :: _)) by left.
        destruct (admission cfg pub now_ts b (c_symbol c)) as [w|] eqn:Ha.
        -- simpl. rewrite lookup_insert_eq. reflexivity.
        -- rewrite Hw. destruct (bool_decide _); reflexivity.
    + assert (Hsame : watch (state
                (match watch (state b) !! c_symbol c,
                       admission cfg pub now_ts b (c_symbol c) with
                 | None, Some w => put_watch (c_symbol c) w b
                 | _, _ => b
                 end)) !! sym = watch (state b) !! sym).
      { destruct (watch (state b) !! c_symbol c);
          destruct (admission cfg pub now_ts b (c_symbol c)); try reflexivity.
        simpl. apply lookup_insert_ne. exact Hs. }
      rewrite Hsame. destruct (watch (state b) !! sym); [reflexivity|].
      rewrite (bool_decide_ext (sym ∈ c_symbol c :: map c_symbol candidates)
                               (sym ∈ map c_symbol candidates)); [reflexivity|].
      rewrite elem_of_cons. intuition congruence.
Qed.

End Admission.

(** X14.  Step 3 of a cycle changes the watchlist only: trades, cooldowns
    and events are as before.  An entry that is watched is never replaced.
    A symbol enters the watchlist exactly when a candidate names it, it is
    not watched, not in cooldown, has no OPEN trade and has a closed candle;
    its entry then starts with the high of that candle as local high, stall
    count 0, not blocked, created at the time of the cycle. *)
Theorem admit_admits (cfg : BotConfig) (pub : HTTP) (now_ts : Z)
    (candidates : list Candidate) (b : Bot) :
  let b' := admit_candidates cfg pub now_ts candidates b in
  trades b' = trades b /\
  cooldowns (state b') = cooldowns (state b) /\
  last_events (state b') = last_events (state b) /\
  (forall sym w,
     watch (state b) !! sym = Some w -> watch (state b') !! sym = Some w) /\
  (forall sym w',
     watch (state b) !! sym = None ->
     (watch (state b') !! sym = Some w' <->
      sym ∈ map c_symbol candidates /\
      in_cooldown cfg (state b) sym now_ts = false /\
      has_open_trade sym (trades b) = false /\
      exists k, get_last_closed_kline pub sym = Some k /\
                w' = new_watch_entry (safe_float (k_high k) 0) now_ts)).
Proof.
  cbv zeta.
  destruct (admit_watch cfg pub now_ts candidates b) as (Ht & Hc & He & _ & Hw).
  split; [exact Ht|]. split; [exact Hc|]. split; [exact He|]. split.
  - intros sym w Hs. rewrite Hw, Hs. reflexivity.
  - intros sym w' Hs. rewrite Hw, Hs. unfold admission.
    case_bool_decide as Hin.
    + destruct (in_cooldown cfg (state b) sym now_ts).
      { split; [discriminate|]. intros (_ & Hf & _). discriminate. }
      destruct (has_open_trade sym (trades b)).
      { split; [discriminate|]. intros (_ & _ & Hf & _). discriminate. }
      destruct (get_last_closed_kline pub sym) as [k|]; simpl.
      * split.
        -- intros Heq. injection Heq as <-. eauto 10.
        -- intros (_ & _ & _ & k' & Hk & ->). congruence.
      * split; [discriminate|]. intros (_ & _ & _ & k' & Hk & _). discriminate.
    + split; [discriminate|]. intros (Hin' & _). contradiction.
Qed.

(** X15.  An entry admitted by step 3 goes through step 4 in the same
    cycle, which asks the exchange again.  Whatever that second request
    answers, nothing is opened or skipped for the entry in its first cycle
    when the stall threshold is above 1 (the default is 2): with no candle
    the entry stays as it was made, with a candle it is updated once, and
    when the high of that candle is not above the high the entry was made
    from (as for the same candle) it ends the cycle with stall count 1. *)
Theorem admitted_entry_first_cycle (cfg : BotConfig) (pub pub' : HTTP)
    (tick_map : gmap string TickInfo) (now_ts : Z) (c : Candidate) (b : Bot)
    (k : Kline) :
  watch (state b) !! c_symbol c = None ->
  in_cooldown cfg (state b) (c_symbol c) now_ts = false ->
  has_open_trade (c_symbol c) (trades b) = false ->
  get_last_closed_kline pub (c_symbol c) = Some k ->
  1 < stall_candles cfg ->
  let sym := c_symbol c in
  let w0 := new_watch_entry (safe_float (k_high k) 0) now_ts in
  let b1 := admit_step cfg pub now_ts c b in
  let r := stall_step cfg pub' tick_map now_ts sym b1 in
  watch (state b1) !! sym = Some w0 /\
  r.1 = Normal /\
  trades r.2 = trades b /\
  cooldowns (state r.2) = cooldowns (state b) /\
  last_events (state r.2) = last_events (state b) /\
  watch (state r.2) !! sym
  = Some (match get_last_closed_kline pub' sym with
          | Some k' => update_watch_entry w0 (safe_float (k_high k') 0) now_ts
          | None => w0
          end) /\
  (forall k',
     get_last_closed_kline pub' sym = Some k' ->
     ~ (safe_float (k_high k) 0 < safe_float (k_high k') 0)%Q ->
     watch (state r.2) !! sym
     = Some {| w_local_high := safe_float (k_high k) 0; w_stall := 1;
               w_blocked := false; w_updated_ts := now_ts;
               w_created_ts := now_ts |}).
Proof.
  intros Hw Hcool Hopen Hk Hthreshold sym w0 b1 r.
  assert (Hb1 : b1 = put_watch sym w0 b).
  { subst b1. rewrite admit_step_watch, Hw. unfold admission.
    rewrite Hcool, Hopen, Hk. reflexivity. }
  assert (Hw1 : watch (state b1) !! sym = Some w0)
    by (rewrite Hb1; apply lookup_insert_eq).
  split; [exact Hw1|].
  assert (Hrun : r = match get_last_closed_kline pub' sym with
                     | Some k' =>
                       (Normal,
                        put_watch sym
                          (update_watch_entry w0 (safe_float (k_high k') 0) now_ts) b1)
                     | None => (Normal, b1)
                     end).
  { subst r. destruct (get_last_closed_kline pub' sym) as [k'|] eqn:Hk'.
    - rewrite (stall_step_watched cfg pub' tick_map now_ts sym b1 w0 k' Hw1 Hk').
      cbv zeta. rewrite bool_decide_eq_false_2; [reflexivity|].
      unfold update_watch_entry. destruct (_ >? _)%pyq; simpl; lia.
    - unfold stall_step. rewrite Hw1, Hk'. reflexivity. }
  assert (Hlook : watch (state r.2) !! sym
                  = Some (match get_last_closed_kline pub' sym with
                          | Some k' =>
                            update_watch_entry w0 (safe_float (k_high k') 0) now_ts
                          | None => w0
                          end)).
  { rewrite Hrun. destruct (get_last_closed_kline pub' sym) as [k'|]; simpl.
    - apply lookup_insert_eq.
    - exact Hw1. }
  rewrite Hrun at 1 2 3 4.
  repeat apply conj.
  - destruct (get_last_closed_kline pub' sym); reflexivity.
  - destruct (get_last_closed_kline pub' sym); rewrite Hb1; reflexivity.
  - destruct (get_last_closed_kline pub' sym); rewrite Hb1; reflexivity.
  - destruct (get_last_closed_kline pub' sym); rewrite Hb1; reflexivity.
  - exact Hlook.
  - intros k' Hk' Hhigh. rewrite Hlook, Hk'.
    rewrite update_watch_entry_stalled by exact Hhigh. reflexivity.
Qed.

(** ** Step 4 as a whole *)

Section StallStep.

Variable cfg : BotConfig.
Variable pub : HTTP.
Variable tick_map : gmap string TickInfo.
Variable now_ts : Z.

(** A trade that [make_trade] returns, field by field. *)
Lemma make_trade_return_inv (sym : string) (entry local_high : Q) (ticker : TickInfo)
    (tr : Trade) :
  make_trade cfg sym entry local_high now_ts ticker = Py.Return tr ->
  ~ (entry == 0)%Q /\
  tr_symbol tr = sym /\ tr_status tr = OPEN /\ tr_open_ts tr = now_ts /\
  tr_entry tr = entry /\
  tr_tp tr = (local_high * (1 - tp_from_high_pct cfg))%Q /\
  tr_qty tr = (notional_usdt cfg / entry)%Q /\
  tr_notional_usdt tr = notional_usdt cfg.
Proof.
  intros Hm. destruct (Qeq_dec entry 0) as [Hz|Hnz].
  - rewrite (make_trade_raises cfg now_ts sym entry local_high ticker Hz) in Hm.
    discriminate Hm.
  - rewrite (make_trade_returns cfg now_ts sym entry local_high ticker Hnz) in Hm.
    injection Hm as <-. simpl. auto 10.
Qed.

(** The trades after one step: as before, or one more, opened by
    [make_trade] above the take-profit, with the cooldown set and the symbol
    off the watchlist. *)
Lemma stall_step_trades (sym : string) (b : Bot) :
  trades (stall_step cfg pub tick_map now_ts sym b).2 = trades b \/
  exists tr entry local_high ticker,
    (stall_step cfg pub tick_map now_ts sym b).1 = Normal /\
    trades (stall_step cfg pub tick_map now_ts sym b).2 = trades b ++ [tr] /\
    make_trade cfg sym entry local_high now_ts ticker = Py.Return tr /\
    (local_high * (1 - tp_from_high_pct cfg) < entry)%Q /\
    cooldowns (state (stall_step cfg pub tick_map now_ts sym b).2)
    = <[sym := now_ts]> (cooldowns (state b)) /\
    watch (state (stall_step cfg pub tick_map now_ts sym b).2) !! sym = None.
Proof.
  destruct (watch (state b) !! sym) as [w|] eqn:Hw;
    [|left; rewrite stall_step_unwatched by exact Hw; reflexivity].
  destruct (get_last_closed_kline pub sym) as [k|] eqn:Hk;
    [|left; unfold stall_step; rewrite Hw, Hk; reflexivity].
  rewrite (stall_step_watched cfg pub tick_map now_ts sym b w k Hw Hk). cbv zeta.
  destruct (bool_decide _ && negb (w_blocked w)); [|left; reflexivity].
  match goal with |- context [(?e <=? ?t)%pyq] =>
    destruct (e <=? t)%pyq eqn:Ecmp end; [left; reflexivity|].
  match goal with |- context [make_trade cfg sym ?e ?h now_ts ?t] =>
    destruct (make_trade cfg sym e h now_ts t) as [tr|e'] eqn:Hm end;
    [|left; reflexivity].
  right. py_cmp. do 4 eexists. split; [reflexivity|]. split; [reflexivity|].
  split; [exact Hm|]. split; [exact Ecmp|]. split; [reflexivity|].
  simpl. apply lookup_delete_eq.
Qed.

(** The events after one step: as before, or one more and the last 500
    kept. *)
Lemma stall_step_events (sym : string) (b : Bot) :
  last_events (state (stall_step cfg pub tick_map now_ts sym b).2)
  = last_events (state b) \/
  exists ev,
    last_events (state (stall_step cfg pub tick_map now_ts sym b).2)
    = last_n 500 (last_events (state b) ++ [ev]).
Proof.
  unfold stall_step.
  repeat (case_match; simpl; try (left; reflexivity));
    right; eexists; reflexivity.
Qed.

(** A blocked entry only takes the candle in. *)
Lemma stall_step_blocked (sym : string) (b : Bot) (w : WatchEntry) :
  watch (state b) !! sym = Some w ->
  w_blocked w = true ->
  stall_step cfg pub tick_map now_ts sym b
  = match get_last_closed_kline pub sym with
    | Some k =>
      (Normal, put_watch sym (update_watch_entry w (safe_float (k_high k) 0) now_ts) b)
    | None => (Normal, b)
    end.
Proof.
  intros Hw Hb. destruct (get_last_closed_kline pub sym) as [k|] eqn:Hk.
  - rewrite (stall_step_watched cfg pub tick_map now_ts sym b w k Hw Hk). cbv zeta.
    rewrite Hb, andb_false_r. reflexivity.
  - unfold stall_step. rewrite Hw, Hk. reflexivity.
Qed.


End StallStep.

(** The trades after the loop of step 4. *)
Lemma stall_loop_trades (cfg : BotConfig) (pub : HTTP)
    (tick_map : gmap string TickInfo) (now_ts : Z) (keys : list string) (b : Bot) :
  exists new,
    trades (stall_loop cfg pub tick_map now_ts keys b).2 = trades b ++ new /\
    map tr_symbol new `sublist_of` keys /\
    Forall (fun tr =>
              tr_status tr = OPEN /\ tr_open_ts tr = now_ts /\
              (tr_tp tr < tr_entry tr)%Q) new.
Proof.
  revert b. induction keys as [|sym keys IH]; intros b.
  - exists []. simpl. rewrite app_nil_r. split; [reflexivity|].
    split; constructor.
  - simpl.
    pose proof (stall_step_trades cfg pub tick_map now_ts sym b) as Hstep.
    destruct (stall_step cfg pub tick_map now_ts sym b) as [[|e] b1] eqn:Hrun;
      simpl in Hstep.
    + destruct (IH b1) as (new & Hnew & Hsub & Hall).
      destruct Hstep as [Hsame|(tr & entry & lh & ticker & _ & Hadd & Hm & Hlt & _)].
      * exists new. rewrite Hnew, Hsame. split; [reflexivity|].
        split; [apply sublist_cons; exact Hsub|exact Hall].
      * exists (tr :: new). rewrite Hnew, Hadd, <- app_assoc.
        split; [reflexivity|].
        apply make_trade_return_inv in Hm.
        destruct Hm as (Hnz & Hsym & Hst & Hts & Hentry & Htp & Hqty & Hnot).
        split.
        { simpl. rewrite Hsym. apply sublist_skip. exact Hsub. }
        apply Forall_cons. split; [|exact Hall].
        rewrite Hst, Hts, Hentry, Htp. auto.
    + destruct Hstep as [Hsame|(tr & entry & lh & ticker & Hnormal & _)];
        [|discriminate Hnormal].
      exists []. simpl. rewrite app_nil_r. split; [exact Hsame|].
      split; [apply sublist_nil_l|constructor].
Qed.

(** X16.  Step 4 only ever appends to the list of trades: the trades that
    were there are untouched, and the symbols of the trades added are, in
    their order, a sublist of the keys the loop went through, so that at
    most one trade is added per key (and no symbol twice, the keys of a
    dictionary being distinct); every trade added is OPEN, opened at the
    time of the cycle, on an entry price that the skip rule let through:
    not at or below its take-profit. *)
Theorem stall_loop_appends (cfg : BotConfig) (pub : HTTP)
    (tick_map : gmap string TickInfo) (now_ts : Z) (keys : list string) (b : Bot) :
  exists new,
    trades (stall_loop cfg pub tick_map now_ts keys b).2 = trades b ++ new /\
    map tr_symbol new `sublist_of` keys /\
    (length new <= length keys)%nat /\
    (NoDup keys -> NoDup (map tr_symbol new)) /\
    Forall (fun tr =>
              tr_status tr = OPEN /\ tr_open_ts tr = now_ts /\
              In (tr_symbol tr) keys /\
              ~ (tr_entry tr <= tr_tp tr)%Q) new.
Proof.
  destruct (stall_loop_trades cfg pub tick_map now_ts keys b)
    as (new & Hnew & Hsub & Hall).
  exists new. split; [exact Hnew|]. split; [exact Hsub|]. split.
  { rewrite <- (length_map tr_symbol new). apply sublist_length, Hsub. }
  split.
  { intros Hnd. eapply sublist_NoDup; eassumption. }
  apply Forall_forall. intros tr Hin.
  rewrite Forall_forall in Hall.
  destruct (Hall tr Hin) as (Hst & Hts & Htp).
  split; [exact Hst|]. split; [exact Hts|]. split.
  - apply list_elem_of_In. eapply elem_of_sublist; [|exact Hsub].
    apply (list_elem_of_fmap_2 tr_symbol). exact Hin.
  - apply Qlt_not_le. exact Htp.
Qed.

(** X17.  Once step 4 has opened a trade on a symbol, step 3 does not take
    the symbol back: not while the trade is in the list as it was opened,
    and, whatever becomes of the trades, not before
    [symbol_cooldown_minutes * 60] seconds have passed since the opening
    (for a cycle whose timestamp is not 0). *)
Theorem no_readmission_after_trigger (cfg : BotConfig) (pub : HTTP)
    (tick_map : gmap string TickInfo) (now_ts : Z) (sym : string) (b : Bot)
    (tr : Trade) :
  trades (stall_step cfg pub tick_map now_ts sym b).2 = trades b ++ [tr] ->
  let b1 := (stall_step cfg pub tick_map now_ts sym b).2 in
  watch (state b1) !! sym = None /\
  (forall pub' now' (c : Candidate),
     c_symbol c = sym -> admit_step cfg pub' now' c b1 = b1) /\
  (forall pub' now' (c : Candidate) (trades' : list Trade),
     c_symbol c = sym ->
     now_ts <> 0 ->
     now' - now_ts < symbol_cooldown_minutes cfg * 60 ->
     admit_step cfg pub' now' c {| state := state b1; trades := trades' |}
     = {| state := state b1; trades := trades' |}).
Proof.
  intros Hgrew. cbv zeta.
  destruct (stall_step_trades cfg pub tick_map now_ts sym b)
    as [Hsame|(tr' & entry & lh & ticker & _ & Hadd & Hm & _ & Hcool & Hgone)].
  { rewrite Hsame in Hgrew. apply (f_equal length) in Hgrew.
    rewrite length_app in Hgrew. simpl in Hgrew. lia. }
  rewrite Hadd in Hgrew. apply app_inv_head in Hgrew. injection Hgrew as ->.
  apply make_trade_return_inv in Hm. destruct Hm as (_ & Hsym & Hst & _).
  split; [exact Hgone|]. split.
  - intros pub' now' c Hc. rewrite admit_step_watch. unfold admission.
    rewrite Hc, Hgone, Hadd.
    assert (Hopen : has_open_trade sym (trades b ++ [tr]) = true).
    { unfold has_open_trade. rewrite existsb_app. simpl.
      rewrite !bool_decide_eq_true_2 by assumption.
      rewrite orb_true_r. reflexivity. }
    rewrite Hopen. destruct (in_cooldown _ _ _ _); reflexivity.
  - intros pub' now' c trades' Hc Hnz Hwindow.
    rewrite admit_step_watch. unfold admission. simpl.
    rewrite Hc, Hgone.
    assert (Hin : in_cooldown cfg (state (stall_step cfg pub tick_map now_ts sym b).2)
                    sym now' = true).
    { apply in_cooldown_lookup. exists now_ts. rewrite Hcool.
      split; [apply lookup_insert_eq|]. auto. }
    rewrite Hin. reflexivity.
Qed.

(** X18.  Step 4 never lets the event log grow past 500 entries: after the
    loop it holds at most 500, or no more than before. *)
Theorem stall_loop_events_bounded (cfg : BotConfig) (pub : HTTP)
    (tick_map : gmap string TickInfo) (now_ts : Z) (keys : list string) (b : Bot) :
  (length (last_events (state (stall_loop cfg pub tick_map now_ts keys b).2))
   <= Nat.max 500 (length (last_events (state b))))%nat.
Proof.
  revert b. induction keys as [|sym keys IH]; intros b; simpl; [lia|].
  pose proof (stall_step_events cfg pub tick_map now_ts sym b) as Hstep.
  destruct (stall_step cfg pub tick_map now_ts sym b) as [[|e] b1]; simpl in Hstep.
  - specialize (IH b1).
    destruct Hstep as [Hsame|[ev Hev]].
    + rewrite Hsame in IH. exact IH.
    + rewrite Hev in IH. unfold last_n in IH. rewrite length_drop in IH. lia.
  - simpl. destruct Hstep as [Hsame|[ev Hev]].
    + rewrite Hsame. lia.
    + rewrite Hev. unfold last_n. rewrite length_drop. lia.
Qed.

(** X19.  A blocked entry cannot trigger: whatever the candle and the price,
    step 4 opens no trade for it, records no event and sets no cooldown; it
    only takes the candle into the entry (which a new high unblocks for the
    cycles to come). *)
Theorem blocked_entry_never_triggers (cfg : BotConfig) (pub : HTTP)
    (tick_map : gmap string TickInfo) (now_ts : Z) (sym : string) (b : Bot)
    (w : WatchEntry) :
  watch (state b) !! sym = Some w ->
  w_blocked w = true ->
  let r := stall_step cfg pub tick_map now_ts sym b in
  r.1 = Normal /\
  trades r.2 = trades b /\
  last_events (state r.2) = last_events (state b) /\
  cooldowns (state r.2) = cooldowns (state b) /\
  watch (state r.2) !! sym
  = Some (match get_last_closed_kline pub sym with
          | Some k => update_watch_entry w (safe_float (k_high k) 0) now_ts
          | None => w
          end).
Proof.
  intros Hw Hb. cbv zeta.
  rewrite (stall_step_blocked cfg pub tick_map now_ts sym b w Hw Hb).
  destruct (get_last_closed_kline pub sym) as [k|]; simpl.
  - repeat split. apply lookup_insert_eq.
  - repeat split. exact Hw.
Qed.



(** ** One pass of the main loop *)

Section Cycle.

Variable cfg : BotConfig.
Variable order : gmap string WatchEntry -> list string.

(** Step 4 does not touch the mark of the last bar. *)
Lemma stall_step_last_bar pub tick_map now_ts (sym : string) (b : Bot) :
  last_bar_close_ms (state (stall_step cfg pub tick_map now_ts sym b).2)
  = last_bar_close_ms (state b).
Proof.
  unfold stall_step. repeat (case_match; simpl; try reflexivity).
Qed.

Lemma stall_loop_last_bar pub tick_map now_ts (keys : list string) (b : Bot) :
  last_bar_close_ms (state (stall_loop cfg pub tick_map now_ts keys b).2)
  = last_bar_close_ms (state b).
Proof.
  revert b. induction keys as [|sym keys IH]; intros b; simpl; [reflexivity|].
  pose proof (stall_step_last_bar pub tick_map now_ts sym b) as Hstep.
  destruct (stall_step cfg pub tick_map now_ts sym b) as [[|e] b1]; simpl in *.
  - rewrite IH. exact Hstep.
  - exact Hstep.
Qed.

(** A pass that is not skipped marks its bar, however it ends, and changes
    the trades through [update_open_trades] and step 4 only. *)
Lemma cycle_not_skipped (clock : Clock) (tickers : TickersResponse) (pub : HTTP)
    (b : Bot) :
  only_on_15m_close cfg
  && bool_decide (last_bar_close_ms (state b) = Some (bar_of cfg clock)) = false ->
  (cycle cfg order clock tickers pub b).1 <> Skipped /\
  last_bar_close_ms (state (cycle cfg order clock tickers pub b).2)
  = Some (bar_of cfg clock) /\
  (trades (cycle cfg order clock tickers pub b).2 = trades b \/
   exists tick_map new,
     trades (cycle cfg order clock tickers pub b).2
     = update_open_trades cfg pub (trades b) tick_map (clock_now clock) ++ new /\
     Forall (fun tr => tr_status tr = OPEN /\ (tr_tp tr < tr_entry tr)%Q) new).
Proof.
  intros Hgate. unfold cycle. fold (bar_of cfg clock). rewrite Hgate.
  destruct (get_all_tickers tickers) as [rows|e];
    [|split; [discriminate|]; split; [reflexivity|left; reflexivity]].
  destruct (scan_tickers cfg rows (∅, [])) as [[tick_map candidates]|e];
    [|split; [discriminate|]; split; [reflexivity|left; reflexivity]].
  simpl.
  destruct (print_stats _) as [line|e];
    [|split; [discriminate|]; split; [reflexivity|right]; simpl;
      exists tick_map, []; rewrite app_nil_r; auto].
  destruct (ttl_loop _ _ _ _) as [watch'|e];
    [|split; [discriminate|]; split; [reflexivity|right]; simpl;
      exists tick_map, []; rewrite app_nil_r; auto].
  match goal with |- context [stall_loop cfg pub tick_map ?n ?ks ?b0] =>
    pose proof (stall_loop_last_bar pub tick_map n ks b0) as Hbar;
    pose proof (stall_loop_trades cfg pub tick_map n ks b0) as (new & Hnew & _ & Hall);
    destruct (admit_watch cfg pub n candidates
                (set_watch watch'
                   {| state := state (set_last_bar_close (bar_of cfg clock) b);
                      trades := update_open_trades cfg pub
                                  (trades (set_last_bar_close (bar_of cfg clock) b))
                                  tick_map n |}))
      as (Ht & _ & _ & Hb & _);
    destruct (stall_loop cfg pub tick_map n ks b0) as [[|e] b2]
  end; simpl in *.
  - split; [discriminate|]. split; [congruence|].
    right. exists tick_map, new. split; [congruence|].
    eapply List.Forall_impl; [|exact Hall]. simpl. intuition.
  - split; [discriminate|]. split; [congruence|].
    right. exists tick_map, new. split; [congruence|].
    eapply List.Forall_impl; [|exact Hall]. simpl. intuition.
Qed.

End Cycle.


(** X21.  With the bar gate on, a bar is worked on at most once: a pass
    whose bar is the one marked in the state is skipped and changes nothing;
    any other pass marks its bar before it asks the exchange, so that every
    later pass in the same bar is skipped, also after a pass that failed.
    A pass that fails on the error code of the ticker request leaves
    everything but that mark as it was. *)
Theorem cycle_once_per_bar (cfg : BotConfig)
    (order : gmap string WatchEntry -> list string) (clock : Clock)
    (tickers : TickersResponse) (pub : HTTP) (b : Bot) :
  only_on_15m_close cfg = true ->
  let bar := current_15m_close_ms (clock_bar clock) in
  let r := cycle cfg order clock tickers pub b in
  (last_bar_close_ms (state b) = Some bar -> r = (Skipped, b)) /\
  (last_bar_close_ms (state b) <> Some bar ->
     r.1 <> Skipped /\
     last_bar_close_ms (state r.2) = Some bar /\
     (tk_retCode tickers <> 0 ->
        r = (Failed (RuntimeError ("tickers error: " +:+ tk_retMsg tickers)),
             set_last_bar_close bar b))) /\
  (forall clock' tickers' pub',
     current_15m_close_ms (clock_bar clock') = bar ->
     cycle cfg order clock' tickers' pub' r.2 = (Skipped, r.2)).
Proof.
  intros Hgate. cbv zeta.
  assert (Hbar : forall c, bar_of cfg c = current_15m_close_ms (clock_bar c))
    by (intros c; unfold bar_of; rewrite Hgate; reflexivity).
  assert (Hskip : forall c t p b0,
            last_bar_close_ms (state b0) = Some (current_15m_close_ms (clock_bar c)) ->
            cycle cfg order c t p b0 = (Skipped, b0)).
  { intros c t p b0 Hlast. unfold cycle. rewrite Hgate. simpl.
    rewrite bool_decide_eq_true_2 by exact Hlast. reflexivity. }
  assert (Hrun : last_bar_close_ms (state b)
                 <> Some (current_15m_close_ms (clock_bar clock)) ->
                 (cycle cfg order clock tickers pub b).1 <> Skipped /\
                 last_bar_close_ms (state (cycle cfg order clock tickers pub b).2)
                 = Some (current_15m_close_ms (clock_bar clock))).
  { intros Hne.
    destruct (cycle_not_skipped cfg order clock tickers pub b) as (Hn & Hm & _).
    - rewrite Hgate, Hbar. simpl. apply bool_decide_eq_false_2. exact Hne.
    - rewrite Hbar in Hm. auto. }
  split; [apply Hskip|]. split.
  - intros Hne. destruct (Hrun Hne) as [Hn Hm].
    split; [exact Hn|]. split; [exact Hm|].
    intros Hcode. unfold cycle, get_all_tickers. rewrite Hgate. simpl.
    rewrite bool_decide_eq_false_2 by exact Hne.
    rewrite bool_decide_eq_true_2 by exact Hcode. reflexivity.
  - intros clock' tickers' pub' Hsame. apply Hskip. rewrite Hsame.
    destruct (decide (last_bar_close_ms (state b)
                      = Some (current_15m_close_ms (clock_bar clock)))) as [He|Hne].
    + rewrite (Hskip clock tickers pub b He). exact He.
    + exact (proj2 (Hrun Hne)).
Qed.

Section CycleSafety.

Variable cfg : BotConfig.
Variable pub : HTTP.
Variable now_ts : Z.



End CycleSafety.



(** X23.  Over a whole pass of the loop, however it ends, the list of trades
    is a ledger: no trade is removed or moved, every trade keeps its id,
    symbol, entry, take-profit, stop-loss and quantity, a trade that was
    CLOSED is exactly as it was, and a trade that is OPEN afterwards is
    exactly as it was. *)
Theorem cycle_ledger (cfg : BotConfig)
    (order : gmap string WatchEntry -> list string) (clock : Clock)
    (tickers : TickersResponse) (pub : HTTP) (b : Bot) :
  let b' := (cycle cfg order clock tickers pub b).2 in
  (length (trades b) <= length (trades b'))%nat /\
  forall (i : nat) (tr : Trade),
    trades b !! i = Some tr ->
    exists tr',
      trades b' !! i = Some tr' /\
      tr_id tr' = tr_id tr /\ tr_symbol tr' = tr_symbol tr /\
      tr_entry tr' = tr_entry tr /\ tr_tp tr' = tr_tp tr /\
      tr_sl tr' = tr_sl tr /\ tr_qty tr' = tr_qty tr /\
      (tr_status tr = CLOSED -> tr' = tr) /\
      (tr_status tr' = OPEN -> tr' = tr).
Proof.
  cbv zeta.
  assert (Hsame : forall l : list Trade,
            (length (trades b) <= length l)%nat /\
            (forall i tr, trades b !! i = Some tr -> l !! i = Some tr) ->
            (length (trades b) <= length l)%nat /\
            forall i tr, trades b !! i = Some tr ->
              exists tr', l !! i = Some tr' /\
                tr_id tr' = tr_id tr /\ tr_symbol tr' = tr_symbol tr /\
                tr_entry tr' = tr_entry tr /\ tr_tp tr' = tr_tp tr /\
                tr_sl tr' = tr_sl tr /\ tr_qty tr' = tr_qty tr /\
                (tr_status tr = CLOSED -> tr' = tr) /\
                (tr_status tr' = OPEN -> tr' = tr)).
  { intros l [Hlen Hl]. split; [exact Hlen|]. intros i tr Hi.
    exists tr. split; [apply Hl, Hi|]. auto 10. }
  destruct (only_on_15m_close cfg
            && bool_decide (last_bar_close_ms (state b) = Some (bar_of cfg clock)))
    eqn:Hgate.
  { unfold cycle. fold (bar_of cfg clock). rewrite Hgate. simpl.
    apply Hsame. auto. }
  destruct (cycle_not_skipped cfg order clock tickers pub b Hgate)
    as (_ & _ & [Heq|(tick_map & new & Heq & _)]); rewrite Heq.
  { apply Hsame. auto. }
  split.
  - rewrite length_app. unfold update_open_trades. rewrite length_map. lia.
  - intros i tr Hi.
    exists (update_trade cfg pub tick_map (clock_now clock) tr). split.
    + rewrite lookup_app_l
        by (unfold update_open_trades; rewrite length_map;
            apply lookup_lt_Some in Hi; exact Hi).
      apply update_open_trades_lookup. exact Hi.
    + destruct (update_trade_outcome cfg pub tick_map (clock_now clock) tr)
        as [->|(Hopen & [(mark & -> & _)|[->| ->]])]; simpl;
        repeat split; try reflexivity; intros Hst;
        first [discriminate Hst | rewrite Hopen in Hst; discriminate Hst].
Qed.

(* ===================================================================== *)
(** ** Instances *)
(* ===================================================================== *)


(** The candle (low 8, high 12) closes the trade with tp = 9 and sl = 11. *)
Lemma update_trade_close_fields_witness :
  let tr := Ex.trade OPEN 10 9 11 2 None in
  let tr' := update_trade CFG (Ex.session (Ex.kline 12 8 10)) ∅ 5 tr in
  tr_close_ts tr' = Some 5 /\
  exists reason price,
    tr_close_reason tr' = Some reason /\
    tr_close_price tr' = Some price /\
    trade_pnl tr' = Some ((tr_entry tr - price) * tr_qty tr)%Q /\
    match reason with
    | SL => price = tr_sl tr
    | TP => price = tr_tp tr
    | FUNDING_GUARD => (tr_tp tr < price)%Q /\ (0 < tr_qty tr)%Q
    end.
Proof.
  exact (update_trade_close_fields CFG (Ex.session (Ex.kline 12 8 10)) ∅ 5
           (Ex.trade OPEN 10 9 11 2 None) eq_refl eq_refl).
Defined.


(** A watchlist with the one entry of XUSDT, created at time 1: a day later
    the entry is gone. *)
Lemma ttl_loop_expires_witness :
  exists watch',
    ttl_loop CFG 100000 (gmap_order {[ "XUSDT"%string := Ex.entry 12 0 false ]})
      {[ "XUSDT"%string := Ex.entry 12 0 false ]} = Ok watch' /\
    watch' !! "XUSDT"%string = None.
Proof.
  destruct (ttl_loop_expires CFG gmap_order 100000
              {[ "XUSDT"%string := Ex.entry 12 0 false ]} gmap_order_lists_keys)
    as (watch' & Hrun & Hlook).
  exists watch'. split; [exact Hrun|].
  rewrite Hlook, lookup_singleton_eq. reflexivity.
Defined.

(** XUSDT is admitted by a bot that has just started, on a candle of high
    11; step 4 is answered with a candle of high 10 and the entry ends the
    cycle with stall count 1 and no trade. *)
Lemma admitted_entry_first_cycle_witness :
  let b1 := admit_step CFG (Ex.session (Ex.kline 11 8 10)) 5 Run.candidate Run.idle in
  let r := stall_step CFG (Ex.session (Ex.kline 10 8 9)) (Ex.tick_map 9) 5 "XUSDT" b1 in
  watch (state b1) !! "XUSDT"%string = Some (new_watch_entry 11 5) /\
  trades r.2 = [] /\
  watch (state r.2) !! "XUSDT"%string
  = Some {| w_local_high := 11; w_stall := 1; w_blocked := false;
            w_updated_ts := 5; w_created_ts := 5 |}.
Proof.
  destruct (admitted_entry_first_cycle CFG (Ex.session (Ex.kline 11 8 10))
              (Ex.session (Ex.kline 10 8 9)) (Ex.tick_map 9) 5 Run.candidate
              Run.idle (Ex.kline 11 8 10)
              (lookup_empty _) eq_refl eq_refl eq_refl eq_refl)
    as (Hw & _ & Htr & _ & _ & _ & Hstall).
  split; [exact Hw|]. split; [exact Htr|].
  apply (Hstall (Ex.kline 10 8 9) eq_refl).
  intros Hlt. apply PyFacts.lt_true in Hlt. discriminate Hlt.
Defined.

(** The entry of XUSDT triggers at time 5: XUSDT leaves the watchlist and a
    candidate for it is not admitted at time 6. *)
Lemma no_readmission_after_trigger_witness :
  let pub := Ex.session (Ex.kline 11 8 10) in
  let b1 := (stall_step CFG pub (Ex.tick_map 10) 5 "XUSDT"
               (Ex.bot (Ex.entry 12 1 false))).2 in
  watch (state b1) !! "XUSDT"%string = None /\
  admit_step CFG pub 6 Run.candidate b1 = b1.
Proof.
  cbv zeta.
  edestruct (no_readmission_after_trigger CFG (Ex.session (Ex.kline 11 8 10))
               (Ex.tick_map 10) 5 "XUSDT" (Ex.bot (Ex.entry 12 1 false)))
    as (Hgone & Hopen & _).
  - vm_compute. reflexivity.
  - split; [exact Hgone|]. apply Hopen. reflexivity.
Defined.

(** A blocked entry meets the candle and the price that make an unblocked
    one trigger. *)
Lemma blocked_entry_never_triggers_witness :
  let r := stall_step CFG (Ex.session (Ex.kline 11 8 10)) (Ex.tick_map 10) 5 "XUSDT"
             (Ex.bot (Ex.entry 12 3 true)) in
  r.1 = Normal /\ trades r.2 = [] /\
  watch (state r.2) !! "XUSDT"%string
  = Some (update_watch_entry (Ex.entry 12 3 true) 11 5).
Proof.
  destruct (blocked_entry_never_triggers CFG (Ex.session (Ex.kline 11 8 10))
              (Ex.tick_map 10) 5 "XUSDT" (Ex.bot (Ex.entry 12 3 true))
              (Ex.entry 12 3 true) (lookup_singleton_eq _ _) eq_refl)
    as (Hn & Ht & _ & _ & Hw).
  repeat split; assumption.
Defined.




(** A bot that has just started works on the bar of the clock, and skips a
    second pass in the same bar. *)
Lemma cycle_once_per_bar_witness :
  let pub := Ex.session (Ex.kline 11 8 10) in
  let r := cycle CFG gmap_order Run.clock (Run.tickers []) pub Run.idle in
  r.1 <> Skipped /\
  cycle CFG gmap_order Run.clock (Run.tickers []) pub r.2 = (Skipped, r.2).
Proof.
  destruct (cycle_once_per_bar CFG gmap_order Run.clock (Run.tickers [])
              (Ex.session (Ex.kline 11 8 10)) Run.idle eq_refl)
    as (_ & Hrun & Hskip).
  split.
  - apply Hrun. discriminate.
  - apply Hskip. reflexivity.
Defined.

